(** * code_quality_scanner.py: a shallow embedding and its verified properties

    The development follows the layout of the script.  Part I holds the
    definitions: a small model of the Python values the script computes with
    (exceptions, text, binary64 floats), the objects the Git backend hands
    over, and then one definition per method of [GitRepository],
    [CodeQualityAnalyzer], [CodeQuantityAnalyzer], [MetricsCalculator] and
    [CodeQualityScanner].  Part II holds the lemmas and the properties of the
    scoring pipeline. *)

From Stdlib Require Import ZArith QArith Qround Qpower Lia Lqa.
From Stdlib Require Import String Ascii List.
From Stdlib Require SpecFloat.
From stdpp Require Import gmap strings list.

Set Default Proof Using "Type".

(* ===================================================================== *)
(** * Part I: definitions                                                  *)
(* ===================================================================== *)

(** ** Exceptions *)

(** Python exceptions that the script can meet.  [GitCommandError] stands for
    any failure of the Git backend, [ValueError] for the remaining failures
    of the parsers of the runtime. *)
Inductive exn :=
  | ZeroDivisionError
  | OverflowError
  | SyntaxError
  | RecursionError
  | ValueError
  | GitCommandError.

Inductive result (A : Type) :=
  | Ok (a : A)
  | Raise (e : exn).
Arguments Ok {A} a.
Arguments Raise {A} e.

Definition bind {A B} (m : result A) (k : A -> result B) : result B :=
  match m with
  | Ok a => k a
  | Raise e => Raise e
  end.

Notation "'let*' x ':=' m 'in' k" := (bind m (fun x => k))
  (at level 10, x name, m at level 100, k at level 200).

(** [try: body  except: handler] with a bare [except]. *)
Definition try_except {A} (body : result A) (handler : exn -> result A) : result A :=
  match body with
  | Ok a => Ok a
  | Raise e => handler e
  end.

(** ** binary64 floats *)

(** Python's [float] is IEEE 754 binary64 with round-to-nearest, ties to even.
    A finite float is represented by the rational it denotes; every operation
    computes the exact rational result and rounds it to the binary64 grid
    (53 significant bits, least exponent -1074), overflowing to an infinity
    at 2^1024.  The sign of zero is not represented: no result of the script
    depends on it. *)
Module Float.
Local Open Scope Q_scope.

Inductive pyfloat :=
  | Fin (q : Q)
  | PInf
  | NInf
  | NaN.

(** floor (log2 q) for q > 0 *)
Definition ilog2 (q : Q) : Z :=
  let k0 := (Z.log2 (Qnum q) - Z.log2 (Zpos (Qden q)))%Z in
  if Qle_bool (2 ^ k0) q then k0 else (k0 - 1)%Z.

(** round half to even, to an integer *)
Definition rhe (q : Q) : Z :=
  let f := Qfloor q in
  match Qcompare (q - inject_Z f) (1 # 2) with
  | Lt => f
  | Gt => (f + 1)%Z
  | Eq => if Z.even f then f else (f + 1)%Z
  end.

(** exponent of the unit in the last place of the binade of q *)
Definition fexp (q : Q) : Z := Z.max (ilog2 q - 52) (-1074).

Definition round_pos (q : Q) : Q :=
  let e := fexp q in inject_Z (rhe (q / 2 ^ e)) * 2 ^ e.

Definition rnd (q : Q) : Q :=
  match Qcompare q 0 with
  | Eq => 0
  | Gt => round_pos q
  | Lt => - round_pos (- q)
  end.

Definition overflow_to_inf (r : Q) : pyfloat :=
  if Qle_bool (2 ^ 1024) r then PInf
  else if Qle_bool r (- 2 ^ 1024) then NInf
  else Fin (Qred r).

(** the float nearest to the rational q *)
Definition round_float (q : Q) : pyfloat := overflow_to_inf (rnd q).

(** sys.float_info.max *)
Definition DBL_MAX : Z := ((2 ^ 53 - 1) * 2 ^ 971)%Z.

Definition inf_of_sign (c : comparison) : pyfloat :=
  match c with
  | Gt => PInf
  | Lt => NInf
  | Eq => NaN
  end.

Definition fopp (x : pyfloat) : pyfloat :=
  match x with
  | Fin q => Fin (- q)
  | PInf => NInf
  | NInf => PInf
  | NaN => NaN
  end.

Definition fadd (x y : pyfloat) : pyfloat :=
  match x, y with
  | NaN, _ | _, NaN => NaN
  | Fin a, Fin b => round_float (a + b)
  | PInf, NInf | NInf, PInf => NaN
  | PInf, _ | _, PInf => PInf
  | NInf, _ | _, NInf => NInf
  end.

Definition fsub (x y : pyfloat) : pyfloat := fadd x (fopp y).

Definition fmul (x y : pyfloat) : pyfloat :=
  match x, y with
  | NaN, _ | _, NaN => NaN
  | Fin a, Fin b => round_float (a * b)
  | Fin a, PInf | PInf, Fin a => inf_of_sign (Qcompare a 0)
  | Fin a, NInf | NInf, Fin a => inf_of_sign (Qcompare 0 a)
  | PInf, PInf | NInf, NInf => PInf
  | PInf, NInf | NInf, PInf => NInf
  end.

Definition is_zero (x : pyfloat) : bool :=
  match x with
  | Fin q => Qeq_bool q 0
  | _ => false
  end.

(** [x / y] on floats; Python raises on a zero divisor before dividing. *)
Definition fdiv (x y : pyfloat) : result pyfloat :=
  if is_zero y then Raise ZeroDivisionError
  else Ok match x, y with
          | NaN, _ | _, NaN => NaN
          | Fin a, Fin b => round_float (a / b)
          | Fin _, _ => Fin 0
          | PInf, Fin b => inf_of_sign (Qcompare b 0)
          | NInf, Fin b => inf_of_sign (Qcompare 0 b)
          | _, _ => NaN
          end.

(** [x >= y]; every comparison with a NaN is false. *)
Definition fge (x y : pyfloat) : bool :=
  match x, y with
  | NaN, _ | _, NaN => false
  | Fin a, Fin b => Qle_bool b a
  | PInf, _ | _, NInf => true
  | _, _ => false
  end.

(** [x > y] *)
Definition fgt (x y : pyfloat) : bool :=
  match x, y with
  | NaN, _ | _, NaN => false
  | Fin a, Fin b => negb (Qle_bool a b)
  | PInf, PInf | NInf, NInf => false
  | PInf, _ | _, NInf => true
  | _, _ => false
  end.

(** the order on floats, as a proposition *)
Definition fle (x y : pyfloat) : Prop := fge y x = true.

(** [float(n)] for an int n *)
Definition float_of_int (n : Z) : result pyfloat :=
  match round_float (inject_Z n) with
  | Fin q => Ok (Fin q)
  | _ => Raise OverflowError
  end.

(** [a / b] on ints: the correctly rounded quotient *)
Definition int_truediv (a b : Z) : result pyfloat :=
  if (b =? 0)%Z then Raise ZeroDivisionError
  else match round_float (inject_Z a / inject_Z b) with
       | Fin q => Ok (Fin q)
       | _ => Raise OverflowError
       end.

(** the multiple of 1/100 nearest to q, ties to the even multiple *)
Definition decimal2 (q : Q) : Q := inject_Z (rhe (q * 100)) / 100.

(** [round(x, 2)]: the exact value of x is rounded half-even to a multiple
    of 1/100, and the float nearest to that decimal is returned; infinities
    and NaN round to themselves. *)
Definition py_round2 (x : pyfloat) : result pyfloat :=
  match x with
  | Fin q =>
      match round_float (decimal2 q) with
      | Fin r => Ok (Fin r)
      | _ => Raise OverflowError
      end
  | _ => Ok x
  end.

(** [max(0, x)]: the first argument is kept unless the second is greater.
    The int 0 it may return is represented by the float 0, from which
    [round], [*] and the comparisons do not tell it apart. *)
Definition py_max0 (x : pyfloat) : pyfloat :=
  if fgt x (Fin 0) then x else Fin 0.

(** float literals of the script *)
Definition lit (q : Q) : pyfloat := round_float q.

End Float.
Export Float.

(** ** Text *)

(** A Python [str] is held as the string of its UTF-8 bytes, a [bytes] object
    as the string of its bytes.  The markers the script looks for (['+'], the
    newline and the keywords) are ASCII, so that prefix and substring tests,
    [line[1:]] on a line that starts with ['+'], [split] and [join] on the
    encoded text agree with the operations on code points. *)
Module Text.
Local Open Scope string_scope.

Definition newline : ascii := "010"%char.

(** [s.startswith(p)] *)
Definition startswith (s p : string) : bool := String.prefix p s.

(** [needle in hay] *)
Fixpoint str_in (needle hay : string) : bool :=
  if String.prefix needle hay then true
  else match hay with
       | EmptyString => false
       | String _ rest => str_in needle rest
       end.

(** [s[1:]] *)
Definition slice_from_1 (s : string) : string :=
  match s with
  | EmptyString => EmptyString
  | String _ rest => rest
  end.

(** [s.split('\n')] *)
Fixpoint split_newline (s : string) : list string :=
  match s with
  | EmptyString => [EmptyString]
  | String c rest =>
      if Ascii.eqb c newline then EmptyString :: split_newline rest
      else match split_newline rest with
           | [] => [String c EmptyString]
           | line :: lines => String c line :: lines
           end
  end.

(** ['\n'.join(lines)] *)
Fixpoint join_newline (lines : list string) : string :=
  match lines with
  | [] => EmptyString
  | [line] => line
  | line :: rest => line ++ String newline (join_newline rest)
  end.

End Text.
Export Text.

(** ** Python datetimes at midnight, as day numbers *)

Module Dates.

(** [date.max.toordinal()], the day number of 9999-12-31; day 1 is
    0001-01-01. *)
Definition MAXORDINAL : Z := 3652059.

(** [dt + timedelta(days=1)]: the next day when its number lies in
    1 .. [MAXORDINAL]; otherwise Python raises OverflowError. *)
Definition add_one_day (day : Z) : result Z :=
  let next := (day + 1)%Z in
  if (0 <? next)%Z && (next <=? MAXORDINAL)%Z then Ok next
  else Raise OverflowError.

End Dates.
Export Dates.

(** ** Objects of the Git backend *)

(** [commit.stats.total]: GitPython fills the four counters of every commit
    it could read. *)
Record Stats := {
  insertions : Z;
  deletions : Z;
  lines : Z;
  files : Z;
}.

(** One entry of a diff made with [create_patch=True]; [diff] holds the bytes
    of the patch of one file, from its first hunk header on (the backend
    keeps the file headers apart), or nothing. *)
Record DiffItem := {
  diff : option string;
}.

(** A commit as the script sees it.  Each read of the backend either yields
    its value or raises. *)
Record Commit := {
  hexsha : string;
  author_name : string;
  (** [commit.parents], by their hashes *)
  parents : list string;
  (** [commit.stats] *)
  stats : result Stats;
  (** [commit.parents[0].diff(commit, create_patch=True)] *)
  diff_from_first_parent : result (list DiffItem);
  (** [commit.diff(git.NULL_TREE, create_patch=True)] *)
  diff_against_null_tree : result (list DiffItem);
}.

(** [git.Repo]: [iter_commits since until] lists the commits whose date is in
    the window, dates being day numbers. *)
Record Repo := {
  iter_commits : Z -> Z -> list Commit;
}.

(** ** Syntax trees of the [ast] module *)

Inductive node_kind :=
  | FunctionDef
  | For
  | While
  | If
  | Try
  | ExceptHandler
  | OtherNode.

(** A node with the nodes [ast.iter_child_nodes] yields for it, in order. *)
#[local] Unset Elimination Schemes.
Inductive node :=
  | Node (kind : node_kind) (children : list node).

#[local] Set Elimination Schemes.

Definition kind_of (n : node) : node_kind :=
  match n with
  | Node k _ => k
  end.

Definition iter_child_nodes (n : node) : list node :=
  match n with
  | Node _ cs => cs
  end.

Fixpoint node_count (n : node) : nat :=
  match n with
  | Node _ cs => S (list_sum (List.map node_count cs))
  end.

(** The loop of [ast.walk]: pop the first node of the queue, append its
    children, yield it.  [steps] bounds the number of iterations. *)
Fixpoint walk_queue (steps : nat) (todo : list node) : list node :=
  match steps, todo with
  | S steps', n :: rest => n :: walk_queue steps' (rest ++ iter_child_nodes n)
  | _, _ => []
  end.

(** [ast.walk(tree)], breadth first; one iteration per node of the tree. *)
Definition ast_walk (tree : node) : list node :=
  walk_queue (node_count tree) [tree].

Definition forest_count (nodes : list node) : nat :=
  list_sum (List.map node_count nodes).

(** The number of nested calls [_calculate_nesting_depth] makes on a node:
    one, and those of its deepest child that is a loop, a conditional or a
    [try]. *)
Fixpoint nesting_height (n : node) : nat :=
  match n with
  | Node _ cs =>
      S (list_max
           (List.map
              (fun c =>
                 match kind_of c with
                 | For | While | If | Try => nesting_height c
                 | _ => O
                 end)
              cs))
  end.

(** ** What the Python runtime supplies *)

Record Runtime := {
  (** [datetime.strptime(s, "%Y-%m-%d")], as a day number *)
  strptime_ymd : string -> result Z;
  (** [b.decode('utf-8', errors='ignore')] *)
  utf8_decode_ignore : string -> string;
  (** [len(re.findall(pattern, text, re.MULTILINE | re.IGNORECASE))] *)
  re_findall_count : string -> string -> Z;
  (** [ast.parse(text)] *)
  ast_parse : string -> result node;
  (** the number of nested calls of [_calculate_nesting_depth] that fit
      under the recursion limit of the interpreter *)
  recursion_headroom : nat;
}.

(** ** The script *)

Section Script.
Context (rt : Runtime).
Local Open Scope string_scope.
Local Open Scope Z_scope.

(** [issues[key] += n] on a [defaultdict(int)] *)
Definition dict_add (key : string) (n : Z) (issues : gmap string Z) : gmap string Z :=
  <[key := default 0 (issues !! key) + n]> issues.

(** [sum(d.values())] *)
Definition sum_values (d : gmap string Z) : Z :=
  map_fold (fun _ v acc => v + acc) 0 d.

(** *** class GitRepository *)

(** The test of the inner loop of [get_commits_by_author_and_time]:
    [target_author in author_name or author_name in target_author]. *)
Definition author_matches (target_author name : string) : bool :=
  str_in target_author name || str_in name target_author.

(** The body of the loop over the commits: the inner loop runs to the first
    target that matches, appends the commit to the bucket of its author and
    breaks. *)
Definition collect_commit (authors : list string)
    (commits_by_author : gmap string (list Commit)) (commit : Commit)
    : gmap string (list Commit) :=
  match List.find (fun target_author => author_matches target_author (author_name commit)) authors with
  | Some _ =>
      <[author_name commit :=
          (default [] (commits_by_author !! author_name commit) ++ [commit])%list]>
        commits_by_author
  | None => commits_by_author
  end.

Definition get_commits_by_author_and_time (repo : option Repo)
    (authors : list string) (start_date end_date : string)
    : result (gmap string (list Commit)) :=
  match repo with
  | None => Ok ∅
  | Some repo =>
      let* start_dt := strptime_ymd rt start_date in
      let* end_day := strptime_ymd rt end_date in
      let* end_dt := add_one_day end_day in
      Ok (fold_left (collect_commit authors) (iter_commits repo start_dt end_dt) ∅)
  end.

Definition get_diff_stats (commit : Commit) : result (Z * Z * Z) :=
  try_except
    (let* st := stats commit in
     Ok (insertions st, deletions st, lines st))
    (fun _ => Ok (0, 0, 0)).

(** The loop over the items of a diff: the patch of every item that has one
    is decoded and split into lines. *)
Definition patch_lines (items : list DiffItem) : list string :=
  flat_map
    (fun item =>
       match diff item with
       | Some bytes =>
           if String.eqb bytes EmptyString then []
           else split_newline (utf8_decode_ignore rt bytes)
       | None => []
       end)
    items.

(** The diff [get_commit_diff_content] asks the backend for: against the
    first parent, or against the empty tree for an initial commit. *)
Definition read_diff (commit : Commit) : result (list DiffItem) :=
  match parents commit with
  | _ :: _ => diff_from_first_parent commit
  | [] => diff_against_null_tree commit
  end.

Definition get_commit_diff_content (commit : Commit) : result (list string) :=
  try_except
    (let* diff := read_diff commit in
     Ok (patch_lines diff))
    (fun _ => Ok []).

(** the lines [get_commit_diff_content] hands to its caller *)
Definition diff_lines_of (commit : Commit) : list string :=
  match get_commit_diff_content commit with
  | Ok diff_lines => diff_lines
  | Raise _ => []
  end.

(** *** class CodeQualityAnalyzer *)

Definition dquote : string := String "034"%char EmptyString.

(** [self.quality_patterns], in the order of the dictionary *)
Definition quality_patterns : list (string * list string) :=
  [ ("死代码",
      [ "^\s*#.*TODO.*$";
        "^\s*#.*FIXME.*$";
        "^\s*#.*HACK.*$";
        "^\s*def\s+\w+.*:\s*pass\s*$";
        "^\s*class\s+\w+.*:\s*pass\s*$" ]);
    ("重复代码",
      [ "(.{20,})\n(?:.*\n){0,5}\1" ]);
    ("安全漏洞",
      [ "eval\s*\(";
        "exec\s*\(";
        "subprocess\..*shell=True";
        "os\.system\s*\(";
        "pickle\.loads?\s*\(";
        "yaml\.load\s*\(" ]);
    ("性能瓶颈",
      [ "for\s+\w+\s+in\s+range\s*\(\s*len\s*\(";
        "\+\s*=.*\+.*\+";
        "\.append\s*\(.*\)\s*\n.*\.append\s*\(" ]);
    ("风格一致性",
      [ "^\s{1,3}\S";
        "=\s{2,}";
        "\s+$";
        "^[a-z]+[A-Z]" ]);
    ("注释缺失",
      [ "^\s*def\s+[^_].*:(?!\s*" ++ dquote ++ dquote ++ dquote ++ ")";
        "^\s*class\s+\w+.*:(?!\s*" ++ dquote ++ dquote ++ dquote ++ ")" ]) ].

Definition analyze_code_content (code_lines : list string) : gmap string Z :=
  let code_content := join_newline code_lines in
  fold_left
    (fun issues '(issue_type, patterns) =>
       fold_left
         (fun issues pattern =>
            dict_add issue_type (re_findall_count rt pattern code_content) issues)
         patterns issues)
    quality_patterns ∅.

Definition is_branching (k : node_kind) : bool :=
  match k with
  | If | For | While | Try | ExceptHandler => true
  | _ => false
  end.

Definition _calculate_complexity (n : node) : Z :=
  fold_left
    (fun complexity child =>
       if is_branching (kind_of child) then complexity + 1 else complexity)
    (ast_walk n) 1.

Definition is_nesting (k : node_kind) : bool :=
  match k with
  | For | While | If | Try => true
  | _ => false
  end.

(** [_calculate_nesting_depth(node, depth)]; every nested call takes one of
    the [frames] that are left under the recursion limit. *)
Fixpoint _calculate_nesting_depth (frames : nat) (n : node) (depth : Z) : result Z :=
  match frames with
  | O => Raise RecursionError
  | S frames' =>
      fold_left
        (fun acc child =>
           let* max_depth := acc in
           if is_nesting (kind_of child) then
             let* child_depth := _calculate_nesting_depth frames' child (depth + 1) in
             Ok (Z.max max_depth child_depth)
           else Ok max_depth)
        (iter_child_nodes n) (Ok depth)
  end.

Definition is_loop_or_if (k : node_kind) : bool :=
  match k with
  | For | While | If => true
  | _ => false
  end.

(** One iteration of the loop over [ast.walk(tree)]: the tally after it, and
    the exception that ended it, if any. *)
Definition check_node (n : node) (issues : gmap string Z)
    : gmap string Z * option exn :=
  let issues :=
    match kind_of n with
    | FunctionDef =>
        if 10 <? _calculate_complexity n
        then dict_add "高复杂度函数" 1 issues else issues
    | _ => issues
    end in
  if is_loop_or_if (kind_of n) then
    match _calculate_nesting_depth (recursion_headroom rt) n 0 with
    | Ok depth =>
        (if 3 <? depth then dict_add "过深嵌套" 1 issues else issues, None)
    | Raise e => (issues, Some e)
    end
  else (issues, None).

Fixpoint check_nodes (nodes : list node) (issues : gmap string Z)
    : gmap string Z * option exn :=
  match nodes with
  | [] => (issues, None)
  | n :: rest =>
      match check_node n issues with
      | (issues, None) => check_nodes rest issues
      | (issues, Some e) => (issues, Some e)
      end
  end.

(** The [try] block of [analyze_python_syntax] on the empty tally: the tally
    it leaves, and the exception that ended it, if any. *)
Definition run_try_block (code_content : string) : gmap string Z * option exn :=
  match ast_parse rt code_content with
  | Ok tree => check_nodes (ast_walk tree) ∅
  | Raise e => (∅, Some e)
  end.

(** [except SyntaxError] adds one syntax error to whatever the tally holds by
    then, the bare [except] leaves the tally as it is, and the tally is
    returned in every case. *)
Definition analyze_python_syntax (code_content : string) : gmap string Z :=
  let '(issues, raised) := run_try_block code_content in
  match raised with
  | Some SyntaxError => dict_add "语法错误" 1 issues
  | _ => issues
  end.

(** *** class CodeQuantityAnalyzer *)

(** The body of the loop of [analyze_commit_quantity] on the three running
    totals (insertions, deletions, files changed). *)
Definition add_commit_stats (totals : Z * Z * Z) (commit : Commit) : Z * Z * Z :=
  let '(total_insertions, total_deletions, total_files_changed) := totals in
  match stats commit with
  | Ok st =>
      (total_insertions + insertions st,
       total_deletions + deletions st,
       total_files_changed + files st)
  | Raise _ => totals
  end.

Definition analyze_commit_quantity (commits : list Commit) : gmap string Z :=
  let total_commits := Z.of_nat (length commits) in
  let '(total_insertions, total_deletions, total_files_changed) :=
    fold_left add_commit_stats commits (0, 0, 0) in
  <["提交次数" := total_commits]>
  (<["新增代码行数" := total_insertions]>
  (<["删除代码行数" := total_deletions]>
  (<["净增代码行数" := total_insertions - total_deletions]>
  (<["修改文件数" := total_files_changed]>
  (<["总变更行数" := total_insertions + total_deletions]> ∅))))).

(** *** class MetricsCalculator *)

Definition calculate_quality_metrics (total_issues total_lines : Z)
    : result (gmap string pyfloat) :=
  if total_lines =? 0 then
    Ok (<["千行代码问题数" := Fin 0]>
       (<["千行代码问题率" := Fin 0]>
       (<["质量分数" := Fin 100]> ∅)))
  else
    let* q1 := int_truediv total_issues total_lines in
    let issues_per_kloc := fmul q1 (Fin 1000) in
    let* q2 := int_truediv total_issues total_lines in
    let issue_rate_per_kloc := fmul q2 (Fin 1000) in
    let quality_score := py_max0 (fsub (Fin 100) (fmul issues_per_kloc (Fin 2))) in
    let* r1 := py_round2 issues_per_kloc in
    let* r2 := py_round2 issue_rate_per_kloc in
    let* r3 := py_round2 quality_score in
    Ok (<["千行代码问题数" := r1]>
       (<["千行代码问题率" := r2]>
       (<["质量分数" := r3]> ∅))).

Definition calculate_quantity_score (total_lines : Z) (avg_lines : pyfloat)
    : result pyfloat :=
  if is_zero avg_lines then Ok (Fin 50)
  else
    let* total := float_of_int total_lines in
    let* ratio := fdiv total avg_lines in
    let score :=
      if fge ratio (lit 2) then 100
      else if fge ratio (lit (15 # 10)) then 90
      else if fge ratio (lit 1) then 80
      else if fge ratio (lit (8 # 10)) then 70
      else if fge ratio (lit (6 # 10)) then 60
      else if fge ratio (lit (4 # 10)) then 50
      else if fge ratio (lit (2 # 10)) then 40
      else 30 in
    float_of_int score.

Definition calculate_final_score (quality_score quantity_score : pyfloat)
    : result pyfloat :=
  let final_score :=
    fadd (fmul quality_score (lit (8 # 10))) (fmul quantity_score (lit (2 # 10))) in
  py_round2 final_score.

(** *** class CodeQualityScanner *)

(** One record of the report. *)
Record ScoreRecord := {
  contributor : string;
  commit_count : Z;
  total_changed_lines : Z;
  total_issue_count : Z;
  issues_per_kloc : pyfloat;
  issue_rate_per_kloc : pyfloat;
  quality_score : pyfloat;
  quantity_score : pyfloat;
  final_score : pyfloat;
}.

(** The comprehension of [_analyze_author_code] on the lines of one diff:
    [[line[1:] for line in diff_lines
      if line.startswith('+') and not line.startswith('+++')]]. *)
Definition new_lines (diff_lines : list string) : list string :=
  List.map slice_from_1
    (List.filter
       (fun line => startswith line "+" && negb (startswith line "+++"))
       diff_lines).

(** The first loop of [_analyze_author_code]: [all_code_lines] once every
    commit has been read. *)
Fixpoint collect_code_lines (commits : list Commit) (all_code_lines : list string)
    : result (list string) :=
  match commits with
  | [] => Ok all_code_lines
  | commit :: rest =>
      let* diff_lines := get_commit_diff_content commit in
      collect_code_lines rest (all_code_lines ++ new_lines diff_lines)%list
  end.

Definition looks_like_python (line : string) : bool :=
  existsb (fun keyword => str_in keyword line) ["def "; "class "; "import "].

(** [total_issues] as [_analyze_author_code] computes it from the lines it
    collected. *)
Definition count_issues (all_code_lines : list string) : Z :=
  match all_code_lines with
  | [] => 0
  | _ :: _ =>
      let quality_issues := analyze_code_content all_code_lines in
      let total_issues := sum_values quality_issues in
      let python_code := join_newline (List.filter looks_like_python all_code_lines) in
      if String.eqb python_code EmptyString then total_issues
      else total_issues + sum_values (analyze_python_syntax python_code)
  end.

Definition metric (d : gmap string pyfloat) (key : string) : pyfloat :=
  default (Fin 0) (d !! key).

(** [quality_metrics.get('质量分数', 0.0)] on the metrics of an author *)
Definition quality_score_of (total_issues total_lines : Z) : result pyfloat :=
  let* quality_metrics := calculate_quality_metrics total_issues total_lines in
  Ok (metric quality_metrics "质量分数").

Definition _analyze_author_code (author : string) (commits : list Commit)
    : result ScoreRecord :=
  let quantity_metrics := analyze_commit_quantity commits in
  let* all_code_lines := collect_code_lines commits [] in
  let total_issues := count_issues all_code_lines in
  let total_lines := default 0 (quantity_metrics !! "总变更行数") in
  let* quality_metrics := calculate_quality_metrics total_issues total_lines in
  Ok {| contributor := author;
        commit_count := default 0 (quantity_metrics !! "提交次数");
        total_changed_lines := total_lines;
        total_issue_count := total_issues;
        issues_per_kloc := metric quality_metrics "千行代码问题数";
        issue_rate_per_kloc := metric quality_metrics "千行代码问题率";
        quality_score := metric quality_metrics "质量分数";
        quantity_score := Fin 0;
        final_score := Fin 0 |}.

End Script.

(** ** The scoring rules in the words of the specification *)

Module Spec.

(** issues-per-thousand-lines = issues/lines x 1000 *)
Definition issues_per_thousand (issues changed_lines : Z) : result pyfloat :=
  let* density := int_truediv issues changed_lines in
  Ok (fmul density (Fin 1000)).

(** quality score = max(0, 100 - 2 x issues-per-thousand-lines) *)
Definition quality_of (per_thousand : pyfloat) : pyfloat :=
  py_max0 (fsub (Fin 100) (fmul (Fin 2) per_thousand)).

(** the descending thresholds of the quantity score, each with its tier *)
Definition tiers : list (pyfloat * Z) :=
  [ (lit 2, 100%Z); (lit (15 # 10), 90%Z); (lit 1, 80%Z); (lit (8 # 10), 70%Z);
    (lit (6 # 10), 60%Z); (lit (4 # 10), 50%Z); (lit (2 # 10), 40%Z) ].

(** the tier of the first threshold the ratio reaches, else 30 *)
Definition tier_of (ratio : pyfloat) : Z :=
  match List.find (fun '(threshold, _) => fge ratio threshold) tiers with
  | Some (_, tier) => tier
  | None => 30%Z
  end.

(** final score = round(0.8 x quality + 0.2 x quantity, 2) *)
Definition final_of (quality quantity : pyfloat) : result pyfloat :=
  py_round2 (fadd (fmul (lit (8 # 10)) quality) (fmul (lit (2 # 10)) quantity)).

(** The density figures and the score without the final rounding. *)
Definition unrounded_metrics (issues changed_lines : Z) (d : gmap string pyfloat) : Prop :=
  exists per_thousand,
    issues_per_thousand issues changed_lines = Ok per_thousand /\
    d !! "千行代码问题数" = Some per_thousand /\
    d !! "千行代码问题率" = Some per_thousand /\
    d !! "质量分数" = Some (quality_of per_thousand).

(** [needle] occurs in [hay], with the same case *)
Definition is_substring (needle hay : string) : Prop :=
  exists before after, hay = (before ++ needle ++ after)%string.

(** a target name matches an author name when one contains the other *)
Definition names_match (target name : string) : Prop :=
  is_substring target name \/ is_substring name target.

(** the commits of [name] that some target matches, in the order of the log *)
Definition bucket_of (authors : list string) (name : string) (log : list Commit)
    : list Commit :=
  List.filter
    (fun commit =>
       String.eqb (author_name commit) name &&
       existsb (fun target => author_matches target (author_name commit)) authors)
    log.

(** the insertions, deletions and files a commit adds to the totals of its
    author: those of its stats when they can be read *)
Definition counted (field : Stats -> Z) (commit : Commit) : Z :=
  match stats commit with
  | Ok st => field st
  | Raise _ => 0%Z
  end.

Definition total_of (field : Stats -> Z) (commits : list Commit) : Z :=
  fold_right (fun commit acc => (counted field commit + acc)%Z) 0%Z commits.

(** the stats the backend reports are counts *)
Definition stats_are_counts (commits : list Commit) : Prop :=
  forall commit st, In commit commits -> stats commit = Ok st ->
    (0 <= insertions st)%Z /\ (0 <= deletions st)%Z /\ (0 <= files st)%Z.

Definition raises {A} (r : result A) : Prop := exists e, r = Raise e.

(** *** The sentences that do not hold as they are worded *)

(** On root commits: every line of content of the commit is returned as an
    addition. *)
Definition root_content_all_returned (rt : Runtime) (commit : Commit) : Prop :=
  parents commit = [] ->
  forall items, diff_against_null_tree commit = Ok items ->
    get_commit_diff_content rt commit = Ok (patch_lines rt items) /\
    forall line, In ("+" ++ line)%string (patch_lines rt items) ->
      In line (new_lines (diff_lines_of rt commit)).


(** On the quantity metrics: all six are non-negative. *)
Definition all_metrics_nonnegative (metrics : gmap string Z) : Prop :=
  forall key v, metrics !! key = Some v -> (0 <= v)%Z.

(** On the structural analyzer: one syntax error on a parse failure, an
    empty result on any other failure, no syntax error when the blob
    parses. *)
Definition syntax_analysis_as_worded (rt : Runtime) (blob : string) : Prop :=
  (ast_parse rt blob = Raise SyntaxError ->
     analyze_python_syntax rt blob = {[ "语法错误" := 1%Z ]}) /\
  (forall e, snd (run_try_block rt blob) = Some e -> e <> SyntaxError ->
     analyze_python_syntax rt blob = ∅) /\
  (forall tree, ast_parse rt blob = Ok tree ->
     analyze_python_syntax rt blob !! "语法错误" = None).

End Spec.

(** ** The arithmetic of the calculator with the IEEE 754 operations of the
       standard library *)

(** [SpecFloat] specifies the binary64 operations on sign, mantissa and
    exponent.  The calculator is written a second time with these
    operations, to compare the two on concrete counts. *)
Module Binary64.
Import SpecFloat.
Local Open Scope Q_scope.

Definition of_int (n : Z) : spec_float := binary_normalize 53 1024 n 0 false.

Definition value (x : spec_float) : pyfloat :=
  match x with
  | S754_zero _ => Fin 0
  | S754_infinity false => PInf
  | S754_infinity true => NInf
  | S754_nan => NaN
  | S754_finite s m e =>
      Fin (Qred ((if s then - inject_Z (Zpos m) else inject_Z (Zpos m)) * 2 ^ e))
  end.

Definition same (x y : pyfloat) : bool :=
  match x, y with
  | Fin a, Fin b => Qeq_bool a b
  | PInf, PInf | NInf, NInf | NaN, NaN => true
  | _, _ => false
  end.

Definition same_result (x : pyfloat) (y : result pyfloat) : bool :=
  match y with
  | Ok y => same x y
  | Raise _ => false
  end.

Definition per_thousand (i l : Z) : spec_float :=
  SFmul 53 1024 (SFdiv 53 1024 (of_int i) (of_int l)) (of_int 1000).

Definition raw_quality (i l : Z) : spec_float :=
  SFsub 53 1024 (of_int 100) (SFmul 53 1024 (per_thousand i l) (of_int 2)).

Definition rounded2 (x : spec_float) : spec_float :=
  match value x with
  | Fin q => SFdiv 53 1024 (of_int (rhe (q * 100))) (of_int 100)
  | _ => x
  end.

Definition weighted (quality quantity : spec_float) : spec_float :=
  SFadd 53 1024
    (SFmul 53 1024 quality (SFdiv 53 1024 (of_int 8) (of_int 10)))
    (SFmul 53 1024 quantity (SFdiv 53 1024 (of_int 2) (of_int 10))).

(** the two calculators agree on [i] issues over [l] lines, and on the final
    score of the resulting quality with the quantity score [tier] *)
Definition agree (i l tier : Z) : bool :=
  same_result (value (per_thousand i l)) (Spec.issues_per_thousand i l) &&
  same_result (value (rounded2 (per_thousand i l)))
    (let* x := Spec.issues_per_thousand i l in py_round2 x) &&
  match Spec.issues_per_thousand i l with
  | Ok x =>
      same (value (raw_quality i l)) (fsub (Fin 100) (fmul x (Fin 2))) &&
      same_result
        (value (rounded2 (weighted (rounded2 (raw_quality i l)) (of_int tier))))
        (let* quality := py_round2 (fsub (Fin 100) (fmul x (Fin 2))) in
         calculate_final_score quality (Fin (inject_Z tier)))
  | Raise _ => false
  end.

Definition grid (n m : nat) : list (Z * Z) :=
  list_prod (List.map Z.of_nat (seq 0 n)) (List.map Z.of_nat (seq 1 m)).

End Binary64.

(** ** Sample objects *)

Module Sample.
Local Open Scope string_scope.

(** A runtime for ASCII patches: the two dates of the configuration are
    parsed to their day numbers, decoding keeps the bytes, no pattern
    matches and no text parses. *)
Definition plain_runtime : Runtime := {|
  strptime_ymd := fun s =>
    if String.eqb s "2025-02-27" then Ok 739309%Z
    else if String.eqb s "2025-7-18" then Ok 739450%Z
    else Raise ValueError;
  utf8_decode_ignore := fun bytes => bytes;
  re_findall_count := fun _ _ => 0%Z;
  ast_parse := fun _ => Raise SyntaxError;
  recursion_headroom := 1000;
|}.

Definition readable_stats (i d f : Z) : result Stats :=
  Ok {| insertions := i; deletions := d; lines := (i + d)%Z; files := f |}.

(** A root commit that adds one file with the lines [++counter;] and
    [return counter;]. *)
Definition root_commit : Commit := {|
  hexsha := "1f0c3a9";
  author_name := "zhangbo0037";
  parents := [];
  stats := readable_stats 2 0 1;
  diff_from_first_parent := Raise GitCommandError;
  diff_against_null_tree :=
    Ok [ {| diff := Some ("@@ -0,0 +1,2 @@" ++ String newline
                          ("+++counter;" ++ String newline
                          ("+return counter;" ++ String newline ""))) |} ];
|}.

(** A commit that only deletes five lines of one file. *)
Definition deleting_commit : Commit := {|
  hexsha := "77ab02e";
  author_name := "zhangbo0037";
  parents := ["1f0c3a9"];
  stats := readable_stats 0 5 1;
  diff_from_first_parent :=
    Ok [ {| diff := Some ("@@ -1,5 +0,0 @@" ++ String newline "-x = 1") |} ];
  diff_against_null_tree := Raise GitCommandError;
|}.

(** A commit whose stats can be read and whose diff cannot. *)
Definition half_readable_commit : Commit := {|
  hexsha := "c41d9e0";
  author_name := "JohanLi233";
  parents := ["77ab02e"];
  stats := readable_stats 5 0 1;
  diff_from_first_parent := Raise GitCommandError;
  diff_against_null_tree := Raise GitCommandError;
|}.

Definition sample_repo : Repo := {|
  iter_commits := fun _ _ => [half_readable_commit; deleting_commit; root_commit];
|}.

(** The text [if a: import os] followed by [n] lines [elif a: import os],
    and its tree: every [elif] is an [If] in the [orelse] of the one before;
    the children of an [If] are its test (a [Name] with its context), the
    statement of its body (an [Import] with its alias) and the next [If]. *)
Fixpoint elif_lines (n : nat) : string :=
  match n with
  | O => ""
  | S n' => String newline ("elif a: import os" ++ elif_lines n')
  end.

Definition elif_source (n : nat) : string := "if a: import os" ++ elif_lines n.

Definition name_node : node := Node OtherNode [Node OtherNode []].

Definition import_node : node := Node OtherNode [Node OtherNode []].

Fixpoint elif_chain (n : nat) : node :=
  Node If (name_node :: import_node ::
           match n with
           | O => []
           | S n' => [elif_chain n']
           end).

(** Two such statements, of 5 and of 1200 branches, and their module. *)
Definition long_elif_blob : string :=
  elif_source 4 ++ String newline (elif_source 1199).

Definition long_elif_module : node :=
  Node OtherNode [elif_chain 4; elif_chain 1199].

(** A runtime that parses this text, under the default recursion limit of
    1000. *)
Definition elif_runtime : Runtime := {|
  strptime_ymd := strptime_ymd plain_runtime;
  utf8_decode_ignore := fun bytes => bytes;
  re_findall_count := fun _ _ => 0%Z;
  ast_parse := fun text =>
    if String.eqb text long_elif_blob then Ok long_elif_module
    else Raise SyntaxError;
  recursion_headroom := 1000;
|}.

End Sample.

(** ** The report and the main loop *)

(** What the operating system, the Git library and the table renderer
    supply to [initialize_repo], [get_current_branch] and
    [generate_report_table]. *)
Record Host := {
  (** [os.path.exists(path)] *)
  path_exists : string -> bool;
  (** [os.path.join(path, name)] *)
  path_join : string -> string -> string;
  (** [git.Repo(path)] *)
  git_Repo : string -> result Repo;
  (** [repo.active_branch.name] *)
  active_branch_name : Repo -> result string;
  (** [repo.head.commit.hexsha] *)
  head_commit_hexsha : Repo -> result string;
  (** [tabulate(table_data, headers=headers, tablefmt='grid',
      floatfmt='.2f')] on the rows made of the records and the period *)
  render_table : list ScoreRecord -> string -> string;
}.

Section Pipeline.
Context (host : Host) (rt : Runtime).
Local Open Scope string_scope.
Local Open Scope Z_scope.

(** *** class GitRepository, continued *)

(** [initialize_repo]: [self.repo] after the call; the method returns
    whether it is set. *)
Definition initialize_repo (local_path : string) : option Repo :=
  match
    try_except
      (if negb (path_exists host local_path) then Ok None
       else if negb (path_exists host (path_join host local_path ".git")) then Ok None
       else
         let* repo := git_Repo host local_path in
         Ok (Some repo))
      (fun _ => Ok None)
  with
  | Ok repo => repo
  | Raise _ => None
  end.

(** [s[:7]] *)
Definition slice_to_7 (s : string) : string := String.substring 0 7 s.

Definition get_current_branch (repo : option Repo) : result string :=
  match repo with
  | None => Ok "unknown"
  | Some repo =>
      try_except
        (active_branch_name host repo)
        (fun _ =>
           try_except
             (let* hexsha := head_commit_hexsha host repo in
              Ok (slice_to_7 hexsha))
             (fun _ => Ok "unknown"))
  end.

(** [commits_by_author[key].append(commit)] on the [defaultdict(list)], the
    dictionary being kept as the list of its items in the order in which
    the keys were inserted. *)
Fixpoint odict_append (key : string) (commit : Commit)
    (items : list (string * list Commit)) : list (string * list Commit) :=
  match items with
  | [] => [(key, [commit])]
  | (k, bucket) :: rest =>
      if String.eqb k key then (k, (bucket ++ [commit])%list) :: rest
      else (k, bucket) :: odict_append key commit rest
  end.

Definition collect_commit_item (authors : list string)
    (items : list (string * list Commit)) (commit : Commit)
    : list (string * list Commit) :=
  match List.find (fun target_author => author_matches target_author (author_name commit)) authors with
  | Some _ => odict_append (author_name commit) commit items
  | None => items
  end.

(** [get_commits_by_author_and_time(...).items()]: the method of
    [GitRepository] once more, with the order of the keys. *)
Definition commits_by_author_items (repo : option Repo)
    (authors : list string) (start_date end_date : string)
    : result (list (string * list Commit)) :=
  match repo with
  | None => Ok []
  | Some repo =>
      let* start_dt := strptime_ymd rt start_date in
      let* end_day := strptime_ymd rt end_date in
      let* end_dt := add_one_day end_day in
      Ok (fold_left (collect_commit_item authors) (iter_commits repo start_dt end_dt) [])
  end.

(** *** class ReportGenerator *)

Definition generate_report_table (results : list ScoreRecord) (time_period : string)
    : string :=
  match results with
  | [] => "没有找到符合条件的数据"
  | _ :: _ => render_table host results time_period
  end.

(** *** class CodeQualityScanner, continued *)

(** The first loop of [run_analysis]: one record per author. *)
Fixpoint analyze_authors (items : list (string * list Commit))
    : result (list ScoreRecord) :=
  match items with
  | [] => Ok []
  | (author, commits) :: rest =>
      let* record := _analyze_author_code rt author commits in
      let* records := analyze_authors rest in
      Ok (record :: records)
  end.

(** [sum(all_total_lines) / len(all_total_lines) if all_total_lines else 0] *)
Definition average_lines (all_total_lines : list Z) : result pyfloat :=
  match all_total_lines with
  | [] => Ok (Fin 0)
  | _ :: _ =>
      int_truediv (fold_right Z.add 0 all_total_lines)
        (Z.of_nat (length all_total_lines))
  end.

(** The body of the second loop of [run_analysis] on one record. *)
Definition set_scores (avg_lines : pyfloat) (record : ScoreRecord)
    : result ScoreRecord :=
  let total_lines := total_changed_lines record in
  let* quantity := calculate_quantity_score total_lines avg_lines in
  let* final := calculate_final_score (quality_score record) quantity in
  Ok {| contributor := contributor record;
        commit_count := commit_count record;
        total_changed_lines := total_changed_lines record;
        total_issue_count := total_issue_count record;
        issues_per_kloc := issues_per_kloc record;
        issue_rate_per_kloc := issue_rate_per_kloc record;
        quality_score := quality_score record;
        quantity_score := quantity;
        final_score := final |}.

Fixpoint update_scores (avg_lines : pyfloat) (records : list ScoreRecord)
    : result (list ScoreRecord) :=
  match records with
  | [] => Ok []
  | record :: rest =>
      let* record := set_scores avg_lines record in
      let* records := update_scores avg_lines rest in
      Ok (record :: records)
  end.

(** Steps 3 to 5 of [run_analysis]: the records of the report. *)
Definition score_authors (items : list (string * list Commit))
    : result (list ScoreRecord) :=
  let* results := analyze_authors items in
  let all_total_lines := List.map total_changed_lines results in
  let* avg_lines := average_lines all_total_lines in
  update_scores avg_lines results.

(** [run_analysis]: the text it returns.  What it prints and the spreadsheet
    it writes, whose failures [_save_report_to_excel] swallows, are left
    out. *)
Definition run_analysis (local_path : string) (authors : list string)
    (start_date end_date : string) : result string :=
  match initialize_repo local_path with
  | None => Ok "❌ 仓库初始化失败，请检查本地路径"
  | Some repo =>
      let* current_branch := get_current_branch (Some repo) in
      let* commits_by_author :=
        commits_by_author_items (Some repo) authors start_date end_date in
      match commits_by_author with
      | [] => Ok "❌ 未找到指定时间段内目标作者的提交记录"
      | _ :: _ =>
          let* results := score_authors commits_by_author in
          let time_period := start_date ++ " 至 " ++ end_date in
          Ok (generate_report_table results time_period)
      end
  end.

End Pipeline.

(** ** Measures of the syntax trees and of the tallies *)

Module Measure.

(** the nodes of a tree, each before its children *)
Fixpoint preorder (n : node) : list node :=
  match n with
  | Node _ cs => n :: flat_map preorder cs
  end.

(** the conditionals, loops, [try] statements and handlers of a tree *)
Definition branching_nodes (n : node) : Z :=
  Z.of_nat (length (List.filter (fun c => is_branching (kind_of c)) (preorder n))).

(** the matches of a list of patterns in a text *)
Definition pattern_matches (rt : Runtime) (patterns : list string) (text : string) : Z :=
  fold_right (fun pattern acc => (re_findall_count rt pattern text + acc)%Z) 0%Z patterns.

(** the functions of a tree whose complexity exceeds 10 *)
Definition complex_functions (tree : node) : Z :=
  Z.of_nat (length (List.filter
    (fun n => match kind_of n with
              | FunctionDef => (10 <? _calculate_complexity n)%Z
              | _ => false
              end)
    (preorder tree))).

(** the loops and conditionals of a tree that are nested deeper than 3 *)
Definition deep_nests (tree : node) : Z :=
  Z.of_nat (length (List.filter
    (fun n => is_loop_or_if (kind_of n) && (4 <? nesting_height n)%nat)
    (preorder tree))).

(** a text without line break *)
Fixpoint one_line (s : string) : bool :=
  match s with
  | EmptyString => true
  | String c rest => negb (Ascii.eqb c newline) && one_line rest
  end.

(** the names of a list that are not in [seen], each at its first
    occurrence *)
Fixpoint first_occurrences (seen names : list string) : list string :=
  match names with
  | [] => []
  | name :: rest =>
      if existsb (String.eqb name) seen then first_occurrences seen rest
      else name :: first_occurrences (name :: seen) rest
  end.

(** some target matches the author of the commit *)
Definition matched (authors : list string) (commit : Commit) : bool :=
  existsb (fun target => author_matches target (author_name commit)) authors.

(** the added lines of the commits of an author *)
Definition added_lines (rt : Runtime) (commits : list Commit) : list string :=
  flat_map (fun commit => new_lines (diff_lines_of rt commit)) commits.

(** every loop and conditional of the tree is nested at most [frames]
    deep, so that its depth is computed within [frames] nested calls *)
Definition measurable (frames : nat) (tree : node) : bool :=
  forallb
    (fun n => implb (is_loop_or_if (kind_of n)) (nesting_height n <=? frames)%nat)
    (preorder tree).

(** [issues[key]] after [n] increments of a key that was absent *)
Definition tallied (n : Z) : option Z :=
  if (n =? 0)%Z then None else Some n.

End Measure.

(** ** A host, a module with one function and a commit without stats *)

Module Fixture.
Local Open Scope string_scope.

(** [n] conditionals, each in the body of the one before. *)
Fixpoint nested_ifs (n : nat) : node :=
  match n with
  | O => Node OtherNode []
  | S n' => Node If [Sample.name_node; nested_ifs n']
  end.

(** A function whose body is a conditional nested five deep and six loops
    in a row, and its module. *)
Definition busy_function : node :=
  Node FunctionDef
    (Node OtherNode [] :: nested_ifs 5 ::
     List.repeat (Node For [Sample.name_node; Sample.name_node; Node OtherNode []]) 6).

Definition busy_module : node := Node OtherNode [busy_function].

Definition busy_source : string := "def busy(a): ...".

(** A runtime that parses this text and in which the first pattern of dead
    code matches twice in every text. *)
Definition busy_runtime : Runtime := {|
  strptime_ymd := strptime_ymd Sample.plain_runtime;
  utf8_decode_ignore := fun bytes => bytes;
  re_findall_count := fun pattern _ =>
    if String.eqb pattern "^\s*#.*TODO.*$" then 2%Z else 0%Z;
  ast_parse := fun text =>
    if String.eqb text busy_source then Ok busy_module else Raise SyntaxError;
  recursion_headroom := 1000;
|}.

(** A runtime that also parses the last date of the calendar. *)
Definition late_runtime : Runtime := {|
  strptime_ymd := fun s =>
    if String.eqb s "9999-12-31" then Ok MAXORDINAL
    else strptime_ymd Sample.plain_runtime s;
  utf8_decode_ignore := fun bytes => bytes;
  re_findall_count := fun _ _ => 0%Z;
  ast_parse := fun _ => Raise SyntaxError;
  recursion_headroom := 1000;
|}.

(** A commit whose stats cannot be read and whose patch adds one line. *)
Definition statless_commit : Commit := {|
  hexsha := "e03b7c5";
  author_name := "zhangbo0037";
  parents := ["c41d9e0"];
  stats := Raise GitCommandError;
  diff_from_first_parent :=
    Ok [ {| diff := Some ("@@ -3,0 +4,1 @@" ++ String newline "+x = 1") |} ];
  diff_against_null_tree := Raise GitCommandError;
|}.

(** A host with one repository, on a branch, and a renderer that lists the
    contributors under the period. *)
Definition plain_host : Host := {|
  path_exists := fun path =>
    String.eqb path "/srv/scanner" || String.eqb path "/srv/scanner/.git";
  path_join := fun path name => path ++ "/" ++ name;
  git_Repo := fun path =>
    if String.eqb path "/srv/scanner" then Ok Sample.sample_repo
    else Raise GitCommandError;
  active_branch_name := fun _ => Ok "main";
  head_commit_hexsha := fun _ => Ok "c41d9e0";
  render_table := fun records time_period =>
    join_newline (time_period :: List.map contributor records);
|}.

End Fixture.


(* ===================================================================== *)
(** * Part II: lemmas and properties                                       *)
(* ===================================================================== *)

(** ** Rounding to the binary64 grid *)

Section FloatFacts.
Local Open Scope Q_scope.

Lemma pow2_pos e : 0 < 2 ^ e.
Proof. apply Qpower_0_lt. reflexivity. Qed.

Lemma pow2_le a b : (a <= b)%Z -> 2 ^ a <= 2 ^ b.
Proof. intros H. apply Qpower_le_compat_l; [exact H | discriminate]. Qed.

Lemma pow2_lt a b : (a < b)%Z -> 2 ^ a < 2 ^ b.
Proof. intros H. apply Qpower_lt_compat_l; [exact H | reflexivity]. Qed.

Lemma pow2_lt_inv a b : 2 ^ a < 2 ^ b -> (a < b)%Z.
Proof. intros H. apply (Qpower_lt_compat_l_inv 2); [exact H | reflexivity]. Qed.

Lemma pow2_add a b : 2 ^ (a + b) == 2 ^ a * 2 ^ b.
Proof. apply Qpower_plus. discriminate. Qed.

Lemma pow2_Z n : (0 <= n)%Z -> 2 ^ n == inject_Z (2 ^ n).
Proof. intros H. symmetry. apply (Zpower_Qpower 2 n H). Qed.

Lemma log2_bounds n : (0 < n)%Z ->
  inject_Z (2 ^ Z.log2 n) <= inject_Z n /\ inject_Z n < inject_Z (2 ^ (Z.log2 n + 1)).
Proof.
  intros H. destruct (Z.log2_spec n H) as [H1 H2].
  rewrite <- Zle_Qle, <- Zlt_Qlt. split; [exact H1 |].
  replace (Z.log2 n + 1)%Z with (Z.succ (Z.log2 n)) by lia. exact H2.
Qed.

Lemma ilog2_spec q : 0 < q -> 2 ^ ilog2 q <= q /\ q < 2 ^ (ilog2 q + 1).
Proof.
  intros Hq. unfold ilog2.
  destruct q as [n d]. cbn [Qnum Qden].
  assert (Hn : (0 < n)%Z) by (unfold Qlt in Hq; cbn in Hq; lia).
  set (a := Z.log2 n). set (b := Z.log2 (Z.pos d)).
  destruct (log2_bounds n Hn) as [Ha1 Ha2]. fold a in Ha1, Ha2.
  destruct (log2_bounds (Z.pos d) ltac:(lia)) as [Hb1 Hb2]. fold b in Hb1, Hb2.
  assert (Ha0 : (0 <= a)%Z) by apply Z.log2_nonneg.
  assert (Hb0 : (0 <= b)%Z) by apply Z.log2_nonneg.
  rewrite <- pow2_Z in Ha1, Ha2, Hb1, Hb2 by lia.
  assert (Hqd : n # d == inject_Z n / inject_Z (Z.pos d)) by apply Qmake_Qdiv.
  assert (Hd : 0 < inject_Z (Z.pos d)) by reflexivity.
  assert (Hmul : (n # d) * inject_Z (Z.pos d) == inject_Z n).
  { rewrite Hqd. field. intros E. rewrite E in Hd. discriminate. }
  pose proof (pow2_pos b) as Pb. pose proof (pow2_pos (a - b)) as Pab.
  pose proof (pow2_pos (a - b - 1)) as Pab1.
  destruct (Qle_bool (2 ^ (a - b)) (n # d)) eqn:E.
  - apply Qle_bool_iff in E. split; [exact E |].
    assert (Hk : 2 ^ (a + 1) == 2 ^ (a - b + 1) * 2 ^ b).
    { rewrite <- pow2_add. replace (a - b + 1 + b)%Z with (a + 1)%Z by lia. reflexivity. }
    apply (Qmult_lt_r _ _ (2 ^ b) Pb). rewrite <- Hk.
    apply Qle_lt_trans with (inject_Z n); [| exact Ha2].
    rewrite <- Hmul. apply Qmult_le_l; [exact Hq | exact Hb1].
  - assert (E' : n # d < 2 ^ (a - b)).
    { apply Qnot_le_lt. intros C. apply Qle_bool_iff in C. congruence. }
    replace (a - b - 1 + 1)%Z with (a - b)%Z by lia. split; [| exact E'].
    assert (Hk : 2 ^ a == 2 ^ (a - b - 1) * 2 ^ (b + 1)).
    { rewrite <- pow2_add. replace (a - b - 1 + (b + 1))%Z with a by lia. reflexivity. }
    apply (Qmult_le_r _ _ (2 ^ (b + 1)) (pow2_pos _)). rewrite <- Hk.
    apply Qle_trans with (inject_Z n); [exact Ha1 |].
    rewrite <- Hmul. apply Qmult_le_l; [exact Hq |]. apply Qlt_le_weak, Hb2.
Qed.

Lemma ilog2_mono p q : 0 < p -> p <= q -> (ilog2 p <= ilog2 q)%Z.
Proof.
  intros Hp Hpq.
  destruct (ilog2_spec p Hp) as [L _].
  destruct (ilog2_spec q (Qlt_le_trans _ _ _ Hp Hpq)) as [_ U].
  assert (H : 2 ^ ilog2 p < 2 ^ (ilog2 q + 1)) by lra.
  apply pow2_lt_inv in H. lia.
Qed.

Lemma fexp_mono p q : 0 < p -> p <= q -> (fexp p <= fexp q)%Z.
Proof. intros Hp Hpq. unfold fexp. pose proof (ilog2_mono p q Hp Hpq). lia. Qed.

(** Round-half-even to an integer. *)
Lemma rhe_cases q :
  (rhe q = Qfloor q /\ q - inject_Z (Qfloor q) <= 1 # 2) \/
  (rhe q = (Qfloor q + 1)%Z /\ 1 # 2 <= q - inject_Z (Qfloor q)).
Proof.
  unfold rhe. destruct (Qcompare_spec (q - inject_Z (Qfloor q)) (1 # 2)) as [E|E|E].
  - destruct (Z.even (Qfloor q)); [left | right]; split; trivial; rewrite E; apply Qle_refl.
  - left. split; [reflexivity | apply Qlt_le_weak, E].
  - right. split; [reflexivity | apply Qlt_le_weak, E].
Qed.

Lemma floor_bounds q : inject_Z (Qfloor q) <= q /\ q < inject_Z (Qfloor q) + 1.
Proof.
  split; [apply Qfloor_le |].
  pose proof (Qlt_floor q) as H. rewrite inject_Z_plus in H. exact H.
Qed.

Lemma rhe_ge_int q n : inject_Z n <= q -> (n <= rhe q)%Z.
Proof.
  intros H. apply Qfloor_resp_le in H. rewrite Qfloor_Z in H.
  destruct (rhe_cases q) as [[-> _]|[-> _]]; lia.
Qed.

Lemma rhe_le_int q n : q <= inject_Z n -> (rhe q <= n)%Z.
Proof.
  intros H. pose proof (Qfloor_resp_le _ _ H) as Hf. rewrite Qfloor_Z in Hf.
  destruct (rhe_cases q) as [[-> _]|[-> Hh]]; [lia |].
  destruct (Z.eq_dec (Qfloor q) n) as [E|E]; [| lia].
  exfalso. destruct (floor_bounds q) as [Hl _]. rewrite E in Hh. lra.
Qed.

Lemma rhe_Z n : rhe (inject_Z n) = n.
Proof.
  apply Z.le_antisymm; [apply rhe_le_int | apply rhe_ge_int]; apply Qle_refl.
Qed.

Lemma rhe_mono p q : p <= q -> (rhe p <= rhe q)%Z.
Proof.
  intros H. pose proof (Qfloor_resp_le _ _ H) as Hf.
  destruct (Z.eq_dec (Qfloor p) (Qfloor q)) as [E|E].
  - unfold rhe. rewrite <- E.
    destruct (Qcompare_spec (p - inject_Z (Qfloor p)) (1 # 2)) as [Ep|Ep|Ep];
    destruct (Qcompare_spec (q - inject_Z (Qfloor p)) (1 # 2)) as [Eq|Eq|Eq];
      try destruct (Z.even (Qfloor p)); try lia; exfalso; lra.
  - assert (Hlt : (Qfloor p + 1 <= Qfloor q)%Z) by lia.
    destruct (rhe_cases p) as [[-> _]|[-> _]];
    destruct (rhe_cases q) as [[-> _]|[-> _]]; lia.
Qed.

Lemma rhe_near q : inject_Z (rhe q) - q <= 1 # 2 /\ q - inject_Z (rhe q) <= 1 # 2.
Proof.
  destruct (floor_bounds q) as [Hl Hu].
  destruct (rhe_cases q) as [[-> H]|[-> H]].
  - split; lra.
  - rewrite inject_Z_plus. change (inject_Z 1) with 1. split; lra.
Qed.

(** Rounding of a positive rational to the binary64 grid. *)
Lemma scale_back q e : q / 2 ^ e * 2 ^ e == q.
Proof. field. pose proof (pow2_pos e). intros E. rewrite E in H. discriminate. Qed.

Lemma round_pos_le_grid q m :
  q <= inject_Z m * 2 ^ fexp q -> round_pos q <= inject_Z m * 2 ^ fexp q.
Proof.
  intros H. unfold round_pos. cbv zeta.
  apply Qmult_le_compat_r; [| apply Qlt_le_weak, pow2_pos].
  rewrite <- Zle_Qle. apply rhe_le_int.
  apply Qle_shift_div_r; [apply pow2_pos | exact H].
Qed.

Lemma round_pos_ge_grid q m :
  inject_Z m * 2 ^ fexp q <= q -> inject_Z m * 2 ^ fexp q <= round_pos q.
Proof.
  intros H. unfold round_pos. cbv zeta.
  apply Qmult_le_compat_r; [| apply Qlt_le_weak, pow2_pos].
  rewrite <- Zle_Qle. apply rhe_ge_int.
  apply Qle_shift_div_l; [apply pow2_pos | exact H].
Qed.

Lemma pow2_on_grid k e : (e <= k)%Z -> 2 ^ k == inject_Z (2 ^ (k - e)) * 2 ^ e.
Proof.
  intros H. rewrite <- pow2_Z by lia. rewrite <- pow2_add.
  replace (k - e + e)%Z with k by lia. reflexivity.
Qed.

Lemma round_pos_nonneg q : 0 <= q -> 0 <= round_pos q.
Proof.
  intros H. pose proof (round_pos_ge_grid q 0) as G.
  change (inject_Z 0) with 0 in G. rewrite Qmult_0_l in G. exact (G H).
Qed.

Lemma round_pos_mono p q : 0 < p -> p <= q -> round_pos p <= round_pos q.
Proof.
  intros Hp Hpq. assert (Hq : 0 < q) by lra.
  pose proof (fexp_mono p q Hp Hpq) as He.
  destruct (Z.eq_dec (fexp p) (fexp q)) as [E|E].
  - unfold round_pos. cbv zeta. rewrite E.
    apply Qmult_le_compat_r; [| apply Qlt_le_weak, pow2_pos].
    rewrite <- Zle_Qle. apply rhe_mono.
    apply Qmult_le_compat_r; [exact Hpq |].
    apply Qlt_le_weak, Qinv_lt_0_compat, pow2_pos.
  - destruct (ilog2_spec p Hp) as [_ Up]. destruct (ilog2_spec q Hq) as [Lq _].
    assert (Hk : (fexp q = ilog2 q - 52 /\ ilog2 p + 1 <= ilog2 q)%Z)
      by (unfold fexp in *; lia).
    destruct Hk as [Hfq Hk].
    assert (Hfp : (fexp p <= ilog2 q)%Z) by lia.
    apply Qle_trans with (2 ^ ilog2 q).
    + rewrite (pow2_on_grid (ilog2 q) (fexp p) Hfp).
      apply round_pos_le_grid. rewrite <- pow2_on_grid by exact Hfp.
      apply Qle_trans with (2 ^ (ilog2 p + 1)); [lra | apply pow2_le, Hk].
    + assert (Hfq' : (fexp q <= ilog2 q)%Z) by lia.
      rewrite (pow2_on_grid (ilog2 q) (fexp q) Hfq').
      apply round_pos_ge_grid. rewrite <- pow2_on_grid by exact Hfq'. exact Lq.
Qed.

(** *** The signed rounding *)

Lemma rnd_pos_eq q : 0 < q -> rnd q = round_pos q.
Proof.
  intros H. unfold rnd.
  assert (E : Qcompare q 0 = Gt) by (apply Qgt_alt; exact H).
  rewrite E. reflexivity.
Qed.

Lemma rnd_neg_eq q : q < 0 -> rnd q = - round_pos (- q).
Proof.
  intros H. unfold rnd.
  assert (E : Qcompare q 0 = Lt) by (apply Qlt_alt; exact H).
  rewrite E. reflexivity.
Qed.

Lemma rnd_zero_eq q : q == 0 -> rnd q = 0.
Proof.
  intros H. unfold rnd.
  assert (E : Qcompare q 0 = Eq) by (apply Qeq_alt; exact H).
  rewrite E. reflexivity.
Qed.

Lemma rnd_nonneg q : 0 <= q -> 0 <= rnd q.
Proof.
  intros H. destruct (Qcompare_spec q 0) as [E|E|E].
  - rewrite (rnd_zero_eq q E). apply Qle_refl.
  - exfalso. lra.
  - rewrite (rnd_pos_eq q E). apply round_pos_nonneg, H.
Qed.

Lemma rnd_nonpos q : q <= 0 -> rnd q <= 0.
Proof.
  intros H. destruct (Qcompare_spec q 0) as [E|E|E].
  - rewrite (rnd_zero_eq q E). apply Qle_refl.
  - rewrite (rnd_neg_eq q E).
    assert (0 <= round_pos (- q)) by (apply round_pos_nonneg; lra). lra.
  - exfalso. lra.
Qed.

Lemma rnd_mono p q : p <= q -> rnd p <= rnd q.
Proof.
  intros H. destruct (Qlt_le_dec 0 p) as [Hp|Hp].
  - rewrite (rnd_pos_eq p Hp), (rnd_pos_eq q) by lra. apply round_pos_mono; assumption.
  - destruct (Qlt_le_dec q 0) as [Hq|Hq].
    + rewrite (rnd_neg_eq q Hq), (rnd_neg_eq p) by lra.
      assert (round_pos (- q) <= round_pos (- p)) by (apply round_pos_mono; lra). lra.
    + apply Qle_trans with 0; [apply rnd_nonpos, Hp | apply rnd_nonneg, Hq].
Qed.


Lemma round_pos_upper q :
  0 < q -> round_pos q <= 2 ^ Z.max (ilog2 q + 1) (fexp q).
Proof.
  intros Hq. destruct (ilog2_spec q Hq) as [_ U].
  set (t := Z.max (ilog2 q + 1) (fexp q)).
  assert (Ht : (fexp q <= t)%Z) by lia.
  rewrite (pow2_on_grid t (fexp q) Ht).
  apply round_pos_le_grid. rewrite <- pow2_on_grid by exact Ht.
  apply Qle_trans with (2 ^ (ilog2 q + 1)); [lra | apply pow2_le; lia].
Qed.

Lemma round_pos_lower q :
  0 < q -> (fexp q <= ilog2 q)%Z -> 2 ^ ilog2 q <= round_pos q.
Proof.
  intros Hq He. destruct (ilog2_spec q Hq) as [L _].
  rewrite (pow2_on_grid (ilog2 q) (fexp q) He).
  apply round_pos_ge_grid. rewrite <- pow2_on_grid by exact He. exact L.
Qed.

Lemma DBL_MAX_top : inject_Z DBL_MAX == inject_Z (2 ^ 53 - 1) * 2 ^ 971.
Proof. rewrite (pow2_Z 971) by lia. rewrite <- inject_Z_mult. reflexivity. Qed.

Lemma pow2_1023_le_max : 2 ^ 1023 <= inject_Z DBL_MAX.
Proof. rewrite (pow2_Z 1023) by lia. rewrite <- Zle_Qle. vm_compute. discriminate. Qed.

Lemma round_pos_below_overflow q :
  0 < q -> round_pos q < 2 ^ 1024 -> round_pos q <= inject_Z DBL_MAX.
Proof.
  intros Hq Hr.
  destruct (Z_lt_le_dec (ilog2 q) 1023) as [Hk|Hk].
  - apply Qle_trans with (2 ^ 1023); [| apply pow2_1023_le_max].
    apply Qle_trans with (2 ^ Z.max (ilog2 q + 1) (fexp q)); [apply round_pos_upper, Hq |].
    apply pow2_le. unfold fexp. lia.
  - destruct (Z.eq_dec (ilog2 q) 1023%Z) as [E|E].
    + assert (He : fexp q = 971%Z) by (unfold fexp; lia).
      unfold round_pos in *. cbv zeta in *. rewrite He in *.
      set (m := rhe (q / 2 ^ 971)) in *.
      rewrite DBL_MAX_top.
      apply Qmult_le_compat_r; [| apply Qlt_le_weak, pow2_pos].
      rewrite <- Zle_Qle.
      assert (Hm : inject_Z m < inject_Z (2 ^ 53)).
      { apply (Qmult_lt_r _ _ (2 ^ 971) (pow2_pos _)).
        rewrite <- (pow2_Z 53) by lia. rewrite <- pow2_add. exact Hr. }
      rewrite <- Zlt_Qlt in Hm. lia.
    + exfalso.
      assert (L : 2 ^ ilog2 q <= round_pos q)
        by (apply round_pos_lower; [exact Hq | unfold fexp; lia]).
      assert (2 ^ 1024 <= 2 ^ ilog2 q) by (apply pow2_le; lia). lra.
Qed.

(** *** The order on floats *)

Lemma fle_Fin a b : fle (Fin a) (Fin b) <-> a <= b.
Proof. unfold fle. cbn. apply Qle_bool_iff. Qed.

Lemma fle_refl_Fin a : fle (Fin a) (Fin a).
Proof. apply fle_Fin, Qle_refl. Qed.

Lemma fle_trans x y z : fle x y -> fle y z -> fle x z.
Proof.
  unfold fle. destruct x, y, z; cbn; intros H1 H2; try discriminate; try reflexivity.
  apply Qle_bool_iff in H1, H2. apply Qle_bool_iff. lra.
Qed.

Lemma fle_not_NaN_l x y : fle x y -> x <> NaN.
Proof. unfold fle. destruct x, y; cbn; congruence. Qed.

Lemma fle_not_NaN_r x y : fle x y -> y <> NaN.
Proof. unfold fle. destruct x, y; cbn; congruence. Qed.

Lemma fle_PInf x : x <> NaN -> fle x PInf.
Proof. unfold fle. destruct x; cbn; congruence. Qed.

Lemma fle_NInf x : x <> NaN -> fle NInf x.
Proof. unfold fle. destruct x; cbn; congruence. Qed.

(** *** Rounding to a float *)

Lemma round_float_cases q :
  (round_float q = PInf /\ 2 ^ 1024 <= rnd q) \/
  (round_float q = NInf /\ rnd q <= - 2 ^ 1024) \/
  (round_float q = Fin (Qred (rnd q)) /\ - 2 ^ 1024 < rnd q /\ rnd q < 2 ^ 1024).
Proof.
  unfold round_float, overflow_to_inf.
  destruct (Qle_bool (2 ^ 1024) (rnd q)) eqn:E1.
  - left. split; [reflexivity | apply Qle_bool_iff, E1].
  - destruct (Qle_bool (rnd q) (- 2 ^ 1024)) eqn:E2.
    + right. left. split; [reflexivity | apply Qle_bool_iff, E2].
    + right. right. split; [reflexivity |]. split; apply Qnot_le_lt; intros C;
        apply Qle_bool_iff in C; congruence.
Qed.

Lemma round_float_not_NaN q : round_float q <> NaN.
Proof.
  destruct (round_float_cases q) as [[-> _]|[[-> _]|[-> _]]]; discriminate.
Qed.

Lemma round_float_Fin q r : round_float q = Fin r -> r = Qred (rnd q) /\ r == rnd q.
Proof.
  destruct (round_float_cases q) as [[-> _]|[[-> _]|[-> _]]]; intros H;
    try discriminate.
  injection H as <-. split; [reflexivity | apply Qred_correct].
Qed.

Lemma round_float_mono p q : p <= q -> fle (round_float p) (round_float q).
Proof.
  intros H. pose proof (rnd_mono p q H) as Hr.
  pose proof (pow2_pos 1024) as P.
  destruct (round_float_cases p) as [[-> Hp]|[[-> Hp]|[-> [Hp1 Hp2]]]];
  destruct (round_float_cases q) as [[-> Hq]|[[-> Hq]|[-> [Hq1 Hq2]]]];
    try reflexivity; try (exfalso; lra).
  apply fle_Fin. rewrite !Qred_correct. exact Hr.
Qed.

Lemma round_float_nonneg q : 0 <= q -> fle (Fin 0) (round_float q).
Proof.
  intros H. pose proof (rnd_nonneg q H) as Hr. pose proof (pow2_pos 1024) as P.
  destruct (round_float_cases q) as [[-> Hq]|[[-> Hq]|[-> [Hq1 Hq2]]]];
    try reflexivity; try (exfalso; lra).
  apply fle_Fin. rewrite Qred_correct. exact Hr.
Qed.

(** Every finite float lies between -DBL_MAX and DBL_MAX. *)
Lemma round_float_Fin_bounded q r :
  round_float q = Fin r -> - inject_Z DBL_MAX <= r /\ r <= inject_Z DBL_MAX.
Proof.
  intros H. pose proof (pow2_pos 1024) as P.
  assert (M : 0 <= inject_Z DBL_MAX) by (rewrite <- (Zle_Qle 0); vm_compute; discriminate).
  destruct (round_float_cases q) as [[E _]|[[E _]|[E [H1 H2]]]];
    rewrite E in H; try discriminate.
  injection H as <-. rewrite Qred_correct.
  destruct (Qcompare_spec q 0) as [Z0|Neg|Pos].
  - rewrite (rnd_zero_eq q Z0). split; lra.
  - rewrite (rnd_neg_eq q Neg) in *.
    assert (Hq' : 0 < - q) by lra.
    pose proof (round_pos_nonneg (- q) ltac:(lra)).
    pose proof (round_pos_below_overflow (- q) Hq' ltac:(lra)). split; lra.
  - rewrite (rnd_pos_eq q Pos) in *.
    pose proof (round_pos_nonneg q ltac:(lra)).
    pose proof (round_pos_below_overflow q Pos H2). split; lra.
Qed.


(** *** Monotonicity of the operations *)

Lemma fmul_mono_r c x y :
  0 < c -> fle x y -> fle (fmul x (Fin c)) (fmul y (Fin c)).
Proof.
  intros Hc H.
  assert (E1 : Qcompare c 0 = Gt) by (apply Qgt_alt; exact Hc).
  assert (E2 : Qcompare 0 c = Lt) by (apply Qlt_alt; exact Hc).
  destruct x as [a| | |], y as [b| | |]; try discriminate H; cbn;
    rewrite ?E1, ?E2; cbn; try reflexivity.
  - apply round_float_mono. apply fle_Fin in H.
    apply Qmult_le_compat_r; [exact H | lra].
  - apply fle_PInf, round_float_not_NaN.
  - apply fle_NInf, round_float_not_NaN.
Qed.

Lemma fopp_anti x y : fle x y -> fle (fopp y) (fopp x).
Proof.
  destruct x as [a| | |], y as [b| | |]; intros H; try discriminate H; try reflexivity.
  apply fle_Fin in H. apply fle_Fin. lra.
Qed.

Lemma fadd_mono_r c x y : fle x y -> fle (fadd (Fin c) x) (fadd (Fin c) y).
Proof.
  destruct x as [a| | |], y as [b| | |]; intros H; try discriminate H; cbn;
    try reflexivity.
  - apply round_float_mono. apply fle_Fin in H. lra.
  - apply fle_PInf, round_float_not_NaN.
  - apply fle_NInf, round_float_not_NaN.
Qed.

Lemma fsub_anti_r c x y : fle x y -> fle (fsub (Fin c) y) (fsub (Fin c) x).
Proof. intros H. unfold fsub. apply fadd_mono_r, fopp_anti, H. Qed.

Lemma py_max0_nonneg x : fle (Fin 0) (py_max0 x).
Proof.
  unfold py_max0. destruct (fgt x (Fin 0)) eqn:E; [| apply fle_refl_Fin].
  destruct x as [a| | |]; cbn in E; try discriminate; try reflexivity.
  apply fle_Fin. apply negb_true_iff in E.
  apply Qlt_le_weak, Qnot_le_lt. intros C. apply Qle_bool_iff in C. congruence.
Qed.

Lemma fgt_Fin a b : fgt (Fin a) (Fin b) = true <-> b < a.
Proof.
  cbn. rewrite negb_true_iff. split.
  - intros E. apply Qnot_le_lt. intros C. apply Qle_bool_iff in C. congruence.
  - intros H. destruct (Qle_bool a b) eqn:E; [| reflexivity].
    apply Qle_bool_iff in E. exfalso. lra.
Qed.

Lemma fgt_Fin_false a b : fgt (Fin a) (Fin b) = false <-> a <= b.
Proof.
  cbn. rewrite negb_false_iff. apply Qle_bool_iff.
Qed.

Lemma py_max0_mono x y : fle x y -> fle (py_max0 x) (py_max0 y).
Proof.
  intros H. unfold py_max0.
  destruct x as [a| | |], y as [b| | |]; try discriminate H; try reflexivity.
  - apply fle_Fin in H.
    destruct (fgt (Fin a) (Fin 0)) eqn:Ea;
      [apply fgt_Fin in Ea | apply fgt_Fin_false in Ea];
      (destruct (fgt (Fin b) (Fin 0)) eqn:Eb;
       [apply fgt_Fin in Eb | apply fgt_Fin_false in Eb]);
      apply fle_Fin; lra.
  - change (fgt PInf (Fin 0)) with true. cbv iota.
    destruct (fgt (Fin a) (Fin 0)); reflexivity.
  - change (fgt NInf (Fin 0)) with false. cbv iota.
    destruct (fgt (Fin b) (Fin 0)) eqn:Eb; [| apply fle_refl_Fin].
    apply fgt_Fin in Eb. apply fle_Fin. lra.
Qed.

Lemma py_max0_le c x : 0 <= c -> fle x (Fin c) -> fle (py_max0 x) (Fin c).
Proof.
  intros Hc H. unfold py_max0. destruct (fgt x (Fin 0)); [exact H |].
  apply fle_Fin, Hc.
Qed.

(** *** Integer arguments *)

Lemma int_truediv_Ok a b x :
  int_truediv a b = Ok x -> b <> 0%Z /\ x = round_float (inject_Z a / inject_Z b).
Proof.
  unfold int_truediv. destruct (Z.eqb_spec b 0) as [E|E]; [discriminate |].
  destruct (round_float _) eqn:R; intros H; try discriminate.
  injection H as <-. split; [exact E | reflexivity].
Qed.

Lemma int_truediv_mono a a' b x x' :
  (0 < b)%Z -> (a <= a')%Z ->
  int_truediv a b = Ok x -> int_truediv a' b = Ok x' -> fle x x'.
Proof.
  intros Hb Ha H H'.
  apply int_truediv_Ok in H as [_ ->]. apply int_truediv_Ok in H' as [_ ->].
  apply round_float_mono.
  assert (Pb : 0 < inject_Z b) by (rewrite <- (Zlt_Qlt 0); exact Hb).
  apply Qmult_le_compat_r; [rewrite <- Zle_Qle; exact Ha |].
  apply Qlt_le_weak, Qinv_lt_0_compat, Pb.
Qed.

Lemma rnd_DBL_MAX : rnd (inject_Z DBL_MAX) == inject_Z DBL_MAX.
Proof. vm_compute. reflexivity. Qed.

Lemma DBL_MAX_lt_overflow : inject_Z DBL_MAX < 2 ^ 1024.
Proof. rewrite (pow2_Z 1024) by lia. rewrite <- Zlt_Qlt. vm_compute. reflexivity. Qed.

Lemma round_float_in_range q :
  0 <= q -> q <= inject_Z DBL_MAX ->
  exists r, round_float q = Fin r /\ 0 <= r.
Proof.
  intros H0 H1.
  pose proof (rnd_mono _ _ H1) as U. rewrite rnd_DBL_MAX in U.
  pose proof (rnd_nonneg q H0) as L.
  pose proof DBL_MAX_lt_overflow as D. pose proof (pow2_pos 1024) as P.
  destruct (round_float_cases q) as [[E Hq]|[[E Hq]|[E _]]]; try (exfalso; lra).
  exists (Qred (rnd q)). split; [exact E | rewrite Qred_correct; exact L].
Qed.

Lemma int_truediv_total a b :
  (0 <= a)%Z -> (0 < b)%Z -> (a <= DBL_MAX * b)%Z ->
  exists r, int_truediv a b = Ok (Fin r) /\ 0 <= r.
Proof.
  intros Ha Hb Hab. unfold int_truediv.
  destruct (Z.eqb_spec b 0) as [E|_]; [lia |].
  assert (Pb : 0 < inject_Z b) by (rewrite <- (Zlt_Qlt 0); exact Hb).
  assert (Pa : 0 <= inject_Z a) by (rewrite <- (Zle_Qle 0); exact Ha).
  destruct (round_float_in_range (inject_Z a / inject_Z b)) as (r & -> & Hr).
  - apply Qle_shift_div_l; [exact Pb | lra].
  - apply Qle_shift_div_r; [exact Pb |].
    rewrite <- inject_Z_mult, <- Zle_Qle. exact Hab.
  - exists r. split; [reflexivity | exact Hr].
Qed.

(** *** [round(x, 2)] *)

Lemma rnd_above_max : rnd (inject_Z DBL_MAX + 1) == inject_Z DBL_MAX.
Proof. vm_compute. reflexivity. Qed.

Lemma rnd_below_min : rnd (- inject_Z DBL_MAX - 1) == - inject_Z DBL_MAX.
Proof. vm_compute. reflexivity. Qed.

Lemma decimal2_near q : q - (1 # 200) <= decimal2 q /\ decimal2 q <= q + (1 # 200).
Proof.
  unfold decimal2. destruct (rhe_near (q * 100)) as [H1 H2].
  split; [apply Qle_shift_div_l | apply Qle_shift_div_r]; lra.
Qed.

Lemma decimal2_mono p q : p <= q -> decimal2 p <= decimal2 q.
Proof.
  intros H. unfold decimal2. apply Qmult_le_compat_r; [| discriminate].
  rewrite <- Zle_Qle. apply rhe_mono. lra.
Qed.

Lemma py_round2_Fin q x :
  py_round2 (Fin q) = Ok x -> x = round_float (decimal2 q).
Proof.
  unfold py_round2.
  destruct (round_float (decimal2 q)); intros H; try discriminate.
  injection H as <-. reflexivity.
Qed.

Lemma py_round2_total q :
  - inject_Z DBL_MAX <= q -> q <= inject_Z DBL_MAX ->
  exists r, py_round2 (Fin q) = Ok (Fin r).
Proof.
  intros L U. unfold py_round2.
  destruct (decimal2_near q) as [N1 N2].
  assert (U' : rnd (decimal2 q) <= inject_Z DBL_MAX).
  { rewrite <- rnd_above_max. apply rnd_mono. lra. }
  assert (L' : - inject_Z DBL_MAX <= rnd (decimal2 q)).
  { rewrite <- rnd_below_min. apply rnd_mono. lra. }
  pose proof DBL_MAX_lt_overflow as D.
  destruct (round_float_cases (decimal2 q)) as [[E Hq]|[[E Hq]|[E _]]];
    try (exfalso; lra).
  rewrite E. eexists. reflexivity.
Qed.

Lemma py_round2_mono x y x' y' :
  fle x y -> py_round2 x = Ok x' -> py_round2 y = Ok y' -> fle x' y'.
Proof.
  intros H Hx Hy.
  destruct x as [a| | |], y as [b| | |]; try discriminate H.
  - apply py_round2_Fin in Hx, Hy. subst.
    apply round_float_mono, decimal2_mono. apply fle_Fin, H.
  - apply py_round2_Fin in Hx. cbn in Hy. injection Hy as <-. subst.
    apply fle_PInf, round_float_not_NaN.
  - cbn in Hx, Hy. injection Hx as <-. injection Hy as <-. reflexivity.
  - apply py_round2_Fin in Hy. cbn in Hx. injection Hx as <-. subst.
    apply fle_NInf, round_float_not_NaN.
  - cbn in Hx, Hy. injection Hx as <-. injection Hy as <-. reflexivity.
  - cbn in Hx, Hy. injection Hx as <-. injection Hy as <-. reflexivity.
Qed.

End FloatFacts.

(** [round] follows the stored binary value, and breaks exact ties towards
    the even digit: 2.675 is stored below the tie and gives 2.67, 0.125 and
    0.375 are exact ties and give 0.12 and 0.38. *)
Example py_round2_ties :
  py_round2 (lit (2675 # 1000)) = Ok (lit (267 # 100)) /\
  py_round2 (lit (125 # 1000)) = Ok (lit (12 # 100)) /\
  py_round2 (lit (375 # 1000)) = Ok (lit (38 # 100)).
Proof. vm_compute. repeat split. Qed.

(** 1/3 is rounded to 53 significant bits, 2^1024 is out of range. *)
Example int_truediv_samples :
  int_truediv 1 3 = Ok (Fin (6004799503160661 # 18014398509481984)) /\
  int_truediv (2 ^ 1024) 1 = Raise OverflowError /\
  int_truediv 1 0 = Raise ZeroDivisionError.
Proof. vm_compute. repeat split. Qed.
(** ** The metrics calculator *)

Section MetricsFacts.
Local Open Scope Q_scope.

Lemma Qmult_comm_eq a b : a * b = b * a.
Proof. unfold Qmult. rewrite Z.mul_comm, Pos.mul_comm. reflexivity. Qed.

Lemma fmul_comm x y : fmul x y = fmul y x.
Proof.
  destruct x, y; cbn; try reflexivity. rewrite Qmult_comm_eq. reflexivity.
Qed.

Lemma fle_between_Fin a b x :
  fle (Fin a) x -> fle x (Fin b) -> exists c, x = Fin c /\ a <= c /\ c <= b.
Proof.
  destruct x as [c| | |]; intros H1 H2; try discriminate.
  exists c. split; [reflexivity |]. split; apply fle_Fin; assumption.
Qed.

Lemma float_of_int_total n :
  (- DBL_MAX <= n <= DBL_MAX)%Z -> exists r, float_of_int n = Ok (Fin r).
Proof.
  intros [L U]. unfold float_of_int.
  assert (U' : rnd (inject_Z n) <= inject_Z DBL_MAX).
  { rewrite <- rnd_DBL_MAX. apply rnd_mono. rewrite <- Zle_Qle. exact U. }
  assert (L' : - inject_Z DBL_MAX <= rnd (inject_Z n)).
  { assert (E : rnd (- inject_Z DBL_MAX) == - inject_Z DBL_MAX)
      by (vm_compute; reflexivity).
    rewrite <- E. apply rnd_mono. rewrite <- inject_Z_opp, <- Zle_Qle. exact L. }
  pose proof DBL_MAX_lt_overflow as D.
  destruct (round_float_cases (inject_Z n)) as [[E Hq]|[[E Hq]|[E _]]];
    try (exfalso; lra).
  rewrite E. eexists. reflexivity.
Qed.

Lemma py_round2_float_total q : exists r, py_round2 (round_float q) = Ok r.
Proof.
  destruct (round_float q) as [v| | |] eqn:E; try (eexists; reflexivity).
  destruct (round_float_Fin_bounded q v E) as [L U].
  destruct (py_round2_total v L U) as [r Hr]. exists (Fin r). exact Hr.
Qed.

Lemma py_round2_unit x :
  fle (Fin 0) x -> fle x (Fin 100) ->
  exists r, py_round2 x = Ok (Fin r) /\ 0 <= r /\ r <= 100.
Proof.
  intros L U. destruct (fle_between_Fin _ _ _ L U) as (c & -> & Hc1 & Hc2).
  assert (M : 100 <= inject_Z DBL_MAX)
    by (rewrite <- (Zle_Qle 100); vm_compute; discriminate).
  destruct (py_round2_total c ltac:(lra) ltac:(lra)) as [r Hr].
  exists r. split; [exact Hr |].
  assert (R0 : py_round2 (Fin 0) = Ok (Fin 0)) by (vm_compute; reflexivity).
  assert (R100 : py_round2 (Fin 100) = Ok (Fin 100)) by (vm_compute; reflexivity).
  split; apply fle_Fin.
  - exact (py_round2_mono _ _ _ _ L R0 Hr).
  - exact (py_round2_mono _ _ _ _ U Hr R100).
Qed.

(** issues-per-thousand-lines and the unrounded score, as the calculator
    computes them from the quotient of the two counts *)
Lemma per_thousand_nonneg q : 0 <= q -> fle (Fin 0) (fmul (Fin q) (Fin 1000)).
Proof.
  intros H. cbn. apply round_float_nonneg. lra.
Qed.

Lemma raw_quality_bounds ipk :
  fle (Fin 0) ipk ->
  fle (Fin 0) (py_max0 (fsub (Fin 100) (fmul ipk (Fin 2)))) /\
  fle (py_max0 (fsub (Fin 100) (fmul ipk (Fin 2)))) (Fin 100).
Proof.
  intros H. split; [apply py_max0_nonneg |].
  apply py_max0_le; [discriminate |].
  assert (T : fle (Fin 0) (fmul ipk (Fin 2))).
  { assert (E : fmul (Fin 0) (Fin 2) = Fin 0) by (vm_compute; reflexivity).
    rewrite <- E. apply fmul_mono_r; [reflexivity | exact H]. }
  assert (E : fsub (Fin 100) (Fin 0) = Fin 100) by (vm_compute; reflexivity).
  rewrite <- E. apply fsub_anti_r, T.
Qed.

Lemma raw_quality_anti ipk ipk' :
  fle ipk ipk' ->
  fle (py_max0 (fsub (Fin 100) (fmul ipk' (Fin 2))))
      (py_max0 (fsub (Fin 100) (fmul ipk (Fin 2)))).
Proof.
  intros H. apply py_max0_mono, fsub_anti_r, fmul_mono_r; [reflexivity | exact H].
Qed.

Lemma calculate_quality_metrics_zero issues :
  calculate_quality_metrics issues 0 =
  Ok (<["千行代码问题数" := Fin 0]>
     (<["千行代码问题率" := Fin 0]>
     (<["质量分数" := Fin 100]> ∅))).
Proof. reflexivity. Qed.

Lemma calculate_quality_metrics_nonzero issues changed q r s :
  changed <> 0%Z ->
  int_truediv issues changed = Ok q ->
  py_round2 (fmul q (Fin 1000)) = Ok r ->
  py_round2 (py_max0 (fsub (Fin 100) (fmul (fmul q (Fin 1000)) (Fin 2)))) = Ok s ->
  calculate_quality_metrics issues changed =
  Ok (<["千行代码问题数" := r]>
     (<["千行代码问题率" := r]>
     (<["质量分数" := s]> ∅))).
Proof.
  intros Hl Hq Hr Hs. unfold calculate_quality_metrics.
  destruct (Z.eqb_spec changed 0) as [E|_]; [contradiction |].
  rewrite Hq. cbn [bind]. rewrite Hr. cbn [bind]. rewrite Hs. reflexivity.
Qed.

Lemma metrics_lookup (r1 r2 r3 : pyfloat) :
  let d := <["千行代码问题数" := r1]>
          (<["千行代码问题率" := r2]>
          (<["质量分数" := r3]> (∅ : gmap string pyfloat))) in
  d !! "千行代码问题数" = Some r1 /\
  d !! "千行代码问题率" = Some r2 /\
  d !! "质量分数" = Some r3.
Proof.
  cbv zeta. split; [| split].
  - apply lookup_insert_eq.
  - rewrite lookup_insert_ne by discriminate. apply lookup_insert_eq.
  - rewrite !lookup_insert_ne by discriminate. apply lookup_insert_eq.
Qed.

(** What the calculator returns on counts in the range of the floats. *)
Lemma quality_pipeline issues changed :
  (0 <= issues)%Z -> (0 < changed)%Z -> (issues <= DBL_MAX * changed)%Z ->
  exists q r s,
    int_truediv issues changed = Ok (Fin q) /\ 0 <= q /\
    py_round2 (fmul (Fin q) (Fin 1000)) = Ok r /\
    py_round2 (py_max0 (fsub (Fin 100) (fmul (fmul (Fin q) (Fin 1000)) (Fin 2))))
      = Ok (Fin s) /\
    0 <= s /\ s <= 100 /\
    calculate_quality_metrics issues changed =
    Ok (<["千行代码问题数" := r]>
       (<["千行代码问题率" := r]>
       (<["质量分数" := Fin s]> ∅))).
Proof.
  intros Hi Hl Hb.
  destruct (int_truediv_total issues changed Hi Hl Hb) as (q & Hq & Hq0).
  destruct (py_round2_float_total (q * 1000)) as [r Hr].
  destruct (raw_quality_bounds (fmul (Fin q) (Fin 1000)) (per_thousand_nonneg q Hq0))
    as [B0 B100].
  destruct (py_round2_unit _ B0 B100) as (s & Hs & Hs0 & Hs100).
  exists q, r, s.
  split; [exact Hq |]. split; [exact Hq0 |]. split; [exact Hr |].
  split; [exact Hs |]. split; [exact Hs0 |]. split; [exact Hs100 |].
  apply (calculate_quality_metrics_nonzero issues changed (Fin q)); try assumption.
  lia.
Qed.

End MetricsFacts.

(** ** Properties of the metrics calculator *)

Section MetricsClaims.
Local Open Scope Q_scope.

Lemma quality_score_of_zero issues : quality_score_of issues 0 = Ok (Fin 100).
Proof. reflexivity. Qed.

Lemma quality_score_of_pipeline issues changed q s :
  changed <> 0%Z ->
  int_truediv issues changed = Ok q ->
  py_round2 (py_max0 (fsub (Fin 100) (fmul (fmul q (Fin 1000)) (Fin 2)))) = Ok s ->
  forall r, py_round2 (fmul q (Fin 1000)) = Ok r ->
  quality_score_of issues changed = Ok s.
Proof.
  intros Hl Hq Hs r Hr. unfold quality_score_of.
  rewrite (calculate_quality_metrics_nonzero issues changed q r s Hl Hq Hr Hs).
  cbn [bind]. unfold metric.
  destruct (metrics_lookup r r s) as (_ & _ & ->). reflexivity.
Qed.

(** C1, as amended: with no changed line the calculator returns quality 100
    and both densities 0; otherwise both density figures are
    issues/lines x 1000 rounded to two decimals, and the quality score is
    max(0, 100 - 2 x issues-per-thousand-lines), computed from the unrounded
    density and then rounded to two decimals. *)
Theorem quality_metrics_rounded :
  (forall issues : Z,
     exists d, calculate_quality_metrics issues 0 = Ok d /\
       d !! "千行代码问题数" = Some (Fin 0) /\
       d !! "千行代码问题率" = Some (Fin 0) /\
       d !! "质量分数" = Some (Fin 100)) /\
  (forall issues changed : Z,
     (0 <= issues)%Z -> (0 < changed)%Z -> (issues <= DBL_MAX * changed)%Z ->
     exists per_thousand r s d,
       Spec.issues_per_thousand issues changed = Ok per_thousand /\
       py_round2 per_thousand = Ok r /\
       py_round2 (Spec.quality_of per_thousand) = Ok s /\
       calculate_quality_metrics issues changed = Ok d /\
       d !! "千行代码问题数" = Some r /\
       d !! "千行代码问题率" = Some r /\
       d !! "质量分数" = Some s).
Proof.
  split.
  - intros issues. eexists. split; [apply calculate_quality_metrics_zero |].
    apply metrics_lookup.
  - intros issues changed Hi Hl Hb.
    destruct (quality_pipeline issues changed Hi Hl Hb)
      as (q & r & s & Hq & _ & Hr & Hs & _ & _ & Hd).
    exists (fmul (Fin q) (Fin 1000)), r, (Fin s). eexists.
    split; [unfold Spec.issues_per_thousand; rewrite Hq; reflexivity |].
    split; [exact Hr |].
    split; [unfold Spec.quality_of; rewrite (fmul_comm (Fin 2)); exact Hs |].
    split; [exact Hd |]. apply metrics_lookup.
Qed.

Lemma quality_metrics_rounded_witness :
  exists per_thousand r s d,
    Spec.issues_per_thousand 3 140 = Ok per_thousand /\
    py_round2 per_thousand = Ok r /\
    py_round2 (Spec.quality_of per_thousand) = Ok s /\
    calculate_quality_metrics 3 140 = Ok d /\
    d !! "千行代码问题数" = Some r /\
    d !! "千行代码问题率" = Some r /\
    d !! "质量分数" = Some s.
Proof.
  apply (proj2 quality_metrics_rounded 3%Z 140%Z); unfold DBL_MAX; lia.
Defined.

(** The calculator does not return the unrounded figures: for 1 issue over
    3 lines the density it reports is 333.33, not 1/3 x 1000. *)
Lemma quality_metrics_unrounded_fails :
  ~ (exists d, calculate_quality_metrics 1 3 = Ok d /\ Spec.unrounded_metrics 1 3 d).
Proof.
  intros (d & Hd & ipk & Hipk & H1 & _).
  destruct (quality_pipeline 1 3) as (q & r & s & Hq & _ & Hr & _ & _ & _ & Hd');
    [lia | lia | unfold DBL_MAX; lia |].
  rewrite Hd' in Hd. injection Hd as <-.
  destruct (metrics_lookup r r (Fin s)) as (L & _ & _). rewrite L in H1.
  injection H1 as <-.
  unfold Spec.issues_per_thousand in Hipk. rewrite Hq in Hipk.
  injection Hipk as <-.
  vm_compute in Hq. injection Hq as <-.
  vm_compute in Hr. discriminate Hr.
Qed.

(** C9: for a fixed positive line count the quality score does not increase
    when the issue count increases, and the quality score always lies in
    [0, 100]. *)
Theorem quality_score_monotone_bounded :
  (forall issues : Z, quality_score_of issues 0 = Ok (Fin 100)) /\
  (forall issues changed : Z,
     (0 <= issues)%Z -> (0 < changed)%Z -> (issues <= DBL_MAX * changed)%Z ->
     exists s, quality_score_of issues changed = Ok (Fin s) /\ 0 <= s /\ s <= 100) /\
  (forall issues issues' changed : Z,
     (0 < changed)%Z -> (0 <= issues)%Z -> (issues <= issues')%Z ->
     (issues' <= DBL_MAX * changed)%Z ->
     exists s s',
       quality_score_of issues changed = Ok s /\
       quality_score_of issues' changed = Ok s' /\
       fle s' s).
Proof.
  split; [exact quality_score_of_zero |]. split.
  - intros issues changed Hi Hl Hb.
    destruct (quality_pipeline issues changed Hi Hl Hb)
      as (q & r & s & Hq & _ & Hr & Hs & Hs0 & Hs100 & _).
    exists s. split; [| split; assumption].
    apply (quality_score_of_pipeline issues changed (Fin q) (Fin s)) with r;
      try assumption. lia.
  - intros issues issues' changed Hl Hi Hii Hb.
    assert (Hb1 : (issues <= DBL_MAX * changed)%Z) by lia.
    destruct (quality_pipeline issues changed Hi Hl Hb1)
      as (q & r & s & Hq & _ & Hr & Hs & _ & _ & _).
    destruct (quality_pipeline issues' changed ltac:(lia) Hl Hb)
      as (q' & r' & s' & Hq' & _ & Hr' & Hs' & _ & _ & _).
    exists (Fin s), (Fin s').
    split; [apply (quality_score_of_pipeline issues changed (Fin q) (Fin s)) with r;
            try assumption; lia |].
    split; [apply (quality_score_of_pipeline issues' changed (Fin q') (Fin s')) with r';
            try assumption; lia |].
    refine (py_round2_mono _ _ _ _ _ Hs' Hs).
    apply raw_quality_anti, fmul_mono_r; [reflexivity |].
    exact (int_truediv_mono issues issues' changed _ _ Hl Hii Hq Hq').
Qed.

Lemma quality_score_monotone_bounded_witness :
  exists s s',
    quality_score_of 3 140 = Ok s /\ quality_score_of 7 140 = Ok s' /\ fle s' s.
Proof.
  apply (proj2 (proj2 quality_score_monotone_bounded) 3%Z 7%Z 140%Z);
    unfold DBL_MAX; lia.
Defined.

End MetricsClaims.

Section ScoreClaims.
Local Open Scope Q_scope.

Lemma float_of_tier (t : Z) :
  In t [100; 90; 80; 70; 60; 50; 40; 30]%Z ->
  float_of_int t = Ok (Fin (inject_Z t)).
Proof.
  intros H. repeat (destruct H as [<-|H]; [vm_compute; reflexivity |]). destruct H.
Qed.

Lemma tier_of_values ratio :
  In (Spec.tier_of ratio) [100; 90; 80; 70; 60; 50; 40; 30]%Z.
Proof.
  unfold Spec.tier_of, Spec.tiers. cbn [List.find].
  repeat (match goal with
          | |- context [if fge ratio ?t then _ else _] => destruct (fge ratio t)
          end; [cbn; tauto |]).
  cbn; tauto.
Qed.

(** The if/elif chain of [calculate_quantity_score] walks the table of
    descending thresholds. *)
Lemma quantity_chain ratio :
  (if fge ratio (lit 2) then 100
   else if fge ratio (lit (15 # 10)) then 90
   else if fge ratio (lit 1) then 80
   else if fge ratio (lit (8 # 10)) then 70
   else if fge ratio (lit (6 # 10)) then 60
   else if fge ratio (lit (4 # 10)) then 50
   else if fge ratio (lit (2 # 10)) then 40
   else 30)%Z = Spec.tier_of ratio.
Proof.
  unfold Spec.tier_of, Spec.tiers. cbn [List.find].
  repeat (match goal with
          | |- context [if fge ratio ?t then _ else _] => destruct (fge ratio t)
          end; [reflexivity |]).
  reflexivity.
Qed.

Lemma fge_weaken ratio a b :
  fle a b -> fge ratio b = true -> fge ratio a = true.
Proof. intros Hab Hb. exact (fle_trans a b ratio Hab Hb). Qed.

Lemma thresholds_descend :
  fle (lit (2 # 10)) (lit (4 # 10)) /\ fle (lit (4 # 10)) (lit (6 # 10)) /\
  fle (lit (6 # 10)) (lit (8 # 10)) /\ fle (lit (8 # 10)) (lit 1) /\
  fle (lit 1) (lit (15 # 10)) /\ fle (lit (15 # 10)) (lit 2).
Proof. vm_compute. repeat split. Qed.

(** A descending if/elif chain over tests of which each implies the next. *)
Lemma chain_bands (g7 g6 g5 g4 g3 g2 g1 : bool) :
  (g7 = true -> g6 = true) -> (g6 = true -> g5 = true) -> (g5 = true -> g4 = true) ->
  (g4 = true -> g3 = true) -> (g3 = true -> g2 = true) -> (g2 = true -> g1 = true) ->
  let tier := (if g7 then 100 else if g6 then 90 else if g5 then 80
               else if g4 then 70 else if g3 then 60 else if g2 then 50
               else if g1 then 40 else 30)%Z in
  (tier = 100%Z <-> g7 = true) /\
  (tier = 90%Z <-> g6 = true /\ g7 = false) /\
  (tier = 80%Z <-> g5 = true /\ g6 = false) /\
  (tier = 70%Z <-> g4 = true /\ g5 = false) /\
  (tier = 60%Z <-> g3 = true /\ g4 = false) /\
  (tier = 50%Z <-> g2 = true /\ g3 = false) /\
  (tier = 40%Z <-> g1 = true /\ g2 = false) /\
  (tier = 30%Z <-> g1 = false).
Proof.
  intros H76 H65 H54 H43 H32 H21. cbv zeta.
  destruct g7, g6, g5, g4, g3, g2, g1;
    try discriminate (H76 eq_refl); try discriminate (H65 eq_refl);
    try discriminate (H54 eq_refl); try discriminate (H43 eq_refl);
    try discriminate (H32 eq_refl); try discriminate (H21 eq_refl);
    repeat split; intros; try discriminate; try tauto;
    match goal with H : _ /\ _ |- _ => destruct H; discriminate end.
Qed.

Lemma tier_bands ratio :
  (Spec.tier_of ratio = 100%Z <-> fge ratio (lit 2) = true) /\
  (Spec.tier_of ratio = 90%Z <->
     fge ratio (lit (15 # 10)) = true /\ fge ratio (lit 2) = false) /\
  (Spec.tier_of ratio = 80%Z <->
     fge ratio (lit 1) = true /\ fge ratio (lit (15 # 10)) = false) /\
  (Spec.tier_of ratio = 70%Z <->
     fge ratio (lit (8 # 10)) = true /\ fge ratio (lit 1) = false) /\
  (Spec.tier_of ratio = 60%Z <->
     fge ratio (lit (6 # 10)) = true /\ fge ratio (lit (8 # 10)) = false) /\
  (Spec.tier_of ratio = 50%Z <->
     fge ratio (lit (4 # 10)) = true /\ fge ratio (lit (6 # 10)) = false) /\
  (Spec.tier_of ratio = 40%Z <->
     fge ratio (lit (2 # 10)) = true /\ fge ratio (lit (4 # 10)) = false) /\
  (Spec.tier_of ratio = 30%Z <-> fge ratio (lit (2 # 10)) = false).
Proof.
  destruct thresholds_descend as (D1 & D2 & D3 & D4 & D5 & D6).
  rewrite <- quantity_chain.
  apply chain_bands; apply fge_weaken; assumption.
Qed.
(** A ratio equal to a threshold takes the tier of that threshold. *)
Lemma thresholds_inclusive :
  forallb (fun p => (Spec.tier_of (fst p) =? snd p)%Z) Spec.tiers = true.
Proof. vm_compute. reflexivity. Qed.

(** C2: the quantity score is a function of the author's changed lines and
    the cohort average: 50 when the average is 0, and otherwise the tier of
    ratio = author/average among the eight values 30..100, found by the
    descending thresholds 2.0, 1.5, 1.0, 0.8, 0.6, 0.4, 0.2: the tier is 100
    from 2.0 on, 90 from 1.5 to below 2.0, and so on down to 30 below 0.2,
    each threshold belonging to the band above it. *)
Theorem quantity_score_tiers (total_lines : Z) (avg_lines : pyfloat) :
  (- DBL_MAX <= total_lines <= DBL_MAX)%Z ->
  (is_zero avg_lines = true ->
     calculate_quantity_score total_lines avg_lines = Ok (Fin 50)) /\
  (is_zero avg_lines = false ->
     exists total ratio,
       float_of_int total_lines = Ok total /\
       fdiv total avg_lines = Ok ratio /\
       calculate_quantity_score total_lines avg_lines
         = Ok (Fin (inject_Z (Spec.tier_of ratio))) /\
       In (Spec.tier_of ratio) [100; 90; 80; 70; 60; 50; 40; 30]%Z) /\
  (forall threshold tier,
     In (threshold, tier) Spec.tiers -> Spec.tier_of threshold = tier) /\
  (forall ratio,
     (Spec.tier_of ratio = 100%Z <-> fge ratio (lit 2) = true) /\
     (Spec.tier_of ratio = 90%Z <->
        fge ratio (lit (15 # 10)) = true /\ fge ratio (lit 2) = false) /\
     (Spec.tier_of ratio = 80%Z <->
        fge ratio (lit 1) = true /\ fge ratio (lit (15 # 10)) = false) /\
     (Spec.tier_of ratio = 70%Z <->
        fge ratio (lit (8 # 10)) = true /\ fge ratio (lit 1) = false) /\
     (Spec.tier_of ratio = 60%Z <->
        fge ratio (lit (6 # 10)) = true /\ fge ratio (lit (8 # 10)) = false) /\
     (Spec.tier_of ratio = 50%Z <->
        fge ratio (lit (4 # 10)) = true /\ fge ratio (lit (6 # 10)) = false) /\
     (Spec.tier_of ratio = 40%Z <->
        fge ratio (lit (2 # 10)) = true /\ fge ratio (lit (4 # 10)) = false) /\
     (Spec.tier_of ratio = 30%Z <-> fge ratio (lit (2 # 10)) = false)).
Proof.
  intros Hr. split; [| split; [| split; [| exact tier_bands]]].
  - intros Hz. unfold calculate_quantity_score. rewrite Hz. reflexivity.
  - intros Hz. destruct (float_of_int_total total_lines Hr) as [t Ht].
    exists (Fin t). unfold calculate_quantity_score, fdiv. rewrite Hz, Ht. cbn [bind].
    eexists. split; [reflexivity |]. split; [reflexivity |].
    rewrite quantity_chain. split; [| apply tier_of_values].
    apply float_of_tier, tier_of_values.
  - intros threshold tier H.
    apply (proj1 (List.forallb_forall _ _) thresholds_inclusive (threshold, tier)) in H.
    apply Z.eqb_eq, H.
Qed.

Lemma quantity_score_tiers_witness :
  exists total ratio,
    float_of_int 140 = Ok total /\
    fdiv total (Fin 175) = Ok ratio /\
    calculate_quantity_score 140 (Fin 175)
      = Ok (Fin (inject_Z (Spec.tier_of ratio))) /\
    In (Spec.tier_of ratio) [100; 90; 80; 70; 60; 50; 40; 30]%Z.
Proof.
  apply (proj1 (proj2 (quantity_score_tiers 140%Z (Fin 175) ltac:(unfold DBL_MAX; lia)))).
  reflexivity.
Defined.

Lemma weighted_part_bounds q w c :
  0 <= q -> q <= 100 -> lit w = Fin c -> 0 < c ->
  fle (Fin 0) (fmul (Fin q) (lit w)) /\
  fle (fmul (Fin q) (lit w)) (fmul (Fin 100) (lit w)).
Proof.
  intros H0 H100 -> Hc. split.
  - cbn. apply round_float_nonneg. apply Qmult_le_0_compat; lra.
  - apply fmul_mono_r; [exact Hc | apply fle_Fin, H100].
Qed.

(** C3: the final score is round(0.8 x quality + 0.2 x quantity, 2); on
    scores in [0, 100] it is returned and lies in [0, 100]; an author with
    3 issues over 140 changed lines has quality 57.14, a ratio of 1.0 to the
    cohort average gives quantity 80, and the final score is then 61.71. *)
Theorem final_score_weighted :
  (forall quality quantity : pyfloat,
     calculate_final_score quality quantity = Spec.final_of quality quantity) /\
  (forall quality quantity : Q,
     0 <= quality -> quality <= 100 -> 0 <= quantity -> quantity <= 100 ->
     exists r, calculate_final_score (Fin quality) (Fin quantity) = Ok (Fin r) /\
       0 <= r /\ r <= 100) /\
  (quality_score_of 3 140 = Ok (lit (5714 # 100)) /\
   calculate_quantity_score 140 (Fin 140) = Ok (Fin 80) /\
   calculate_final_score (lit (5714 # 100)) (Fin 80) = Ok (lit (6171 # 100))).
Proof.
  split; [| split].
  - intros quality quantity. unfold calculate_final_score, Spec.final_of.
    rewrite (fmul_comm quality), (fmul_comm quantity). reflexivity.
  - intros quality quantity Hq0 Hq1 Hn0 Hn1. unfold calculate_final_score.
    assert (E8 : lit (8 # 10) = Fin (3602879701896397 # 4503599627370496))
      by (vm_compute; reflexivity).
    assert (E2 : lit (2 # 10) = Fin (3602879701896397 # 18014398509481984))
      by (vm_compute; reflexivity).
    destruct (weighted_part_bounds quality _ _ Hq0 Hq1 E8 ltac:(reflexivity)) as [A0 A1].
    destruct (weighted_part_bounds quantity _ _ Hn0 Hn1 E2 ltac:(reflexivity)) as [B0 B1].
    assert (T8 : fmul (Fin 100) (lit (8 # 10)) = Fin 80) by (vm_compute; reflexivity).
    assert (T2 : fmul (Fin 100) (lit (2 # 10)) = Fin 20) by (vm_compute; reflexivity).
    rewrite T8 in A1. rewrite T2 in B1.
    destruct (fle_between_Fin _ _ _ A0 A1) as (a & -> & Ha0 & Ha1).
    destruct (fle_between_Fin _ _ _ B0 B1) as (b & -> & Hb0 & Hb1).
    apply py_round2_unit; cbn [fadd].
    + apply round_float_nonneg. lra.
    + assert (R : round_float 100 = Fin 100) by (vm_compute; reflexivity).
      rewrite <- R. apply round_float_mono. lra.
  - split; [vm_compute; reflexivity |]. split; vm_compute; reflexivity.
Qed.

Lemma final_score_weighted_witness :
  exists r, calculate_final_score (Fin (5714 # 100)) (Fin 80) = Ok (Fin r) /\
    0 <= r /\ r <= 100.
Proof.
  apply (proj1 (proj2 final_score_weighted) (5714 # 100) 80); vm_compute; discriminate.
Defined.

End ScoreClaims.

(** ** Agreement with the IEEE 754 operations of the standard library *)

(** On every count of 0 to 11 issues over 1 to 12 lines, and on larger
    counts spread over six orders of magnitude, the calculator of the model
    and the one written with [SpecFloat] return the same densities, the same
    rounded values and the same final scores. *)
Lemma calculator_agrees_with_SpecFloat :
  forallb (fun p => Binary64.agree (fst p) (snd p) 80) (Binary64.grid 12 12) = true /\
  forallb (fun p => Binary64.agree (fst p * 7919) (snd p * 104729 + 1) 30)
    (Binary64.grid 6 6) = true.
Proof. vm_compute. split; reflexivity. Qed.

(** ** Text *)

Section TextFacts.
Local Open Scope string_scope.

Lemma prefix_spec p s : String.prefix p s = true <-> exists rest, s = p ++ rest.
Proof.
  revert s. induction p as [|a p IH]; intros s.
  - split; [intros _; exists s; reflexivity | intros _; destruct s; reflexivity].
  - destruct s as [|b s]; [split; [discriminate | intros [r H]; discriminate] |].
    cbn. destruct (ascii_dec a b) as [->|N].
    + rewrite IH. split; intros [r H]; exists r; [rewrite H; reflexivity |].
      injection H as H. exact H.
    + split; [discriminate | intros [r H]; injection H as E _; congruence].
Qed.

Lemma prefix_refl s : String.prefix s s = true.
Proof.
  apply prefix_spec. exists "". induction s as [|a s IH]; [reflexivity |].
  change (String a s = String a (s ++ "")). rewrite <- IH. reflexivity.
Qed.

Lemma str_in_unfold needle hay :
  str_in needle hay =
  if String.prefix needle hay then true
  else match hay with
       | EmptyString => false
       | String _ rest => str_in needle rest
       end.
Proof. destruct hay; reflexivity. Qed.

Lemma str_in_spec needle hay :
  str_in needle hay = true <-> Spec.is_substring needle hay.
Proof.
  unfold Spec.is_substring. induction hay as [|c hay IH]; rewrite str_in_unfold.
  - destruct (String.prefix needle "") eqn:E.
    + apply prefix_spec in E as [r E]. split; [| reflexivity].
      intros _. exists "", r. exact E.
    + split; [discriminate |]. intros (b & a & H).
      destruct b; [| discriminate]. cbn in H.
      assert (P : String.prefix needle "" = true) by (apply prefix_spec; exists a; exact H).
      congruence.
  - destruct (String.prefix needle (String c hay)) eqn:E.
    + apply prefix_spec in E as [r E]. split; [| reflexivity].
      intros _. exists "", r. exact E.
    + rewrite IH. split.
      * intros (b & a & ->). exists (String c b), a. reflexivity.
      * intros (b & a & H). destruct b as [|c' b].
        -- cbn in H.
           assert (P : String.prefix needle (String c hay) = true)
             by (apply prefix_spec; exists a; exact H).
           congruence.
        -- injection H as _ H. exists b, a. exact H.
Qed.

Lemma str_in_refl s : str_in s s = true.
Proof. rewrite str_in_unfold, prefix_refl. reflexivity. Qed.

Lemma author_matches_spec target name :
  author_matches target name = true <-> Spec.names_match target name.
Proof.
  unfold author_matches, Spec.names_match.
  rewrite orb_true_iff, !str_in_spec. reflexivity.
Qed.

Lemma author_matches_refl target : author_matches target target = true.
Proof. unfold author_matches. rewrite str_in_refl. reflexivity. Qed.

End TextFacts.

(** ** Grouping the commits by author *)

Section GroupingClaims.
Context (rt : Runtime).

Lemma add_one_day_Ok day :
  (0 <= day < MAXORDINAL)%Z -> add_one_day day = Ok (day + 1)%Z.
Proof.
  intros [L U]. unfold add_one_day. cbv zeta.
  destruct (Z.ltb_spec 0 (day + 1)); [| lia].
  destruct (Z.leb_spec (day + 1) MAXORDINAL); [reflexivity | lia].
Qed.

Lemma add_one_day_overflow day :
  (MAXORDINAL <= day)%Z -> add_one_day day = Raise OverflowError.
Proof.
  intros L. unfold add_one_day. cbv zeta.
  destruct (Z.leb_spec (day + 1) MAXORDINAL); [lia |].
  rewrite andb_false_r. reflexivity.
Qed.

Lemma get_commits_in_range repo authors start_date end_date since until_day :
  strptime_ymd rt start_date = Ok since ->
  strptime_ymd rt end_date = Ok until_day ->
  (0 <= until_day < MAXORDINAL)%Z ->
  get_commits_by_author_and_time rt (Some repo) authors start_date end_date
  = Ok (fold_left (collect_commit authors) (iter_commits repo since (until_day + 1)) ∅).
Proof.
  intros Hs He Hr. unfold get_commits_by_author_and_time. rewrite Hs. cbn [bind].
  rewrite He. cbn [bind]. rewrite (add_one_day_Ok _ Hr). reflexivity.
Qed.

Lemma find_is_Some_existsb {A} (f : A -> bool) (l : list A) :
  (exists x, List.find f l = Some x) <-> existsb f l = true.
Proof.
  induction l as [|a l IH]; cbn.
  - split; [intros [x H]; discriminate | discriminate].
  - destruct (f a); [split; [reflexivity | intros _; exists a; reflexivity] | exact IH].
Qed.

Lemma find_first_split {A} (f : A -> bool) (l : list A) x :
  List.find f l = Some x ->
  exists earlier later,
    l = (earlier ++ x :: later)%list /\ f x = true /\
    forall t, In t earlier -> f t = false.
Proof.
  induction l as [|a l IH]; [discriminate |]. cbn. destruct (f a) eqn:M.
  - intros H. injection H as <-. exists [], l. split; [reflexivity |].
    split; [exact M | intros t []].
  - intros H. destruct (IH H) as (earlier & later & -> & Hx & Hall).
    exists (a :: earlier), later. split; [reflexivity |]. split; [exact Hx |].
    intros t [<-|Ht]; [exact M | apply Hall, Ht].
Qed.

Lemma collect_commit_eq authors m commit :
  collect_commit authors m commit =
  if existsb (fun target => author_matches target (author_name commit)) authors
  then <[author_name commit := (default [] (m !! author_name commit) ++ [commit])%list]> m
  else m.
Proof.
  unfold collect_commit.
  destruct (existsb _ authors) eqn:E.
  - apply find_is_Some_existsb in E as [x ->]. reflexivity.
  - destruct (List.find _ authors) eqn:F; [| reflexivity].
    assert (existsb (fun target => author_matches target (author_name commit)) authors = true)
      by (apply find_is_Some_existsb; eauto).
    congruence.
Qed.

Lemma collect_fold authors log : forall (m : gmap string (list Commit)) name,
  fold_left (collect_commit authors) log m !! name =
  match Spec.bucket_of authors name log with
  | [] => m !! name
  | bucket => Some (default [] (m !! name) ++ bucket)%list
  end.
Proof.
  induction log as [|c log IH]; intros m name; [reflexivity |].
  cbn [fold_left]. rewrite IH, collect_commit_eq. unfold Spec.bucket_of. cbn [List.filter].
  fold (Spec.bucket_of authors name log).
  destruct (existsb _ authors) eqn:E.
  - destruct (String.eqb_spec (author_name c) name) as [->|N]; cbn [andb].
    + rewrite lookup_insert_eq.
      destruct (Spec.bucket_of authors name log) as [|b bs]; [reflexivity |].
      cbn [from_option id]. rewrite <- app_assoc. reflexivity.
    + rewrite lookup_insert_ne by exact N. reflexivity.
  - rewrite andb_false_r. reflexivity.
Qed.

Lemma bucket_of_In authors name log c :
  In c (Spec.bucket_of authors name log) <->
  In c log /\ author_name c = name /\
  exists target, In target authors /\ Spec.names_match target (author_name c).
Proof.
  unfold Spec.bucket_of. rewrite filter_In, andb_true_iff, String.eqb_eq, existsb_exists.
  split.
  - intros (H1 & H2 & t & Ht & Hm). apply author_matches_spec in Hm. eauto 6.
  - intros (H1 & H2 & t & Ht & Hm). apply author_matches_spec in Hm. eauto 6.
Qed.

(** C5: for dates that parse, the end date before the last day of the
    calendar (the window ends one day after it), a commit of the date window
    is placed in the result iff some target name is a substring of its
    author name or the reverse, with the case of the letters kept; it is
    placed once for each time the log lists it, in the bucket of its author
    and in no other, whichever targets match; and a target that matches some
    author also matches a commit authored by exactly that target. *)
Theorem commits_grouped_by_matching_author
    (repo : Repo) (authors : list string) (start_date end_date : string)
    (since until_day : Z) :
  strptime_ymd rt start_date = Ok since ->
  strptime_ymd rt end_date = Ok until_day ->
  (0 <= until_day < MAXORDINAL)%Z ->
  exists by_author,
    get_commits_by_author_and_time rt (Some repo) authors start_date end_date
      = Ok by_author /\
    let window := iter_commits repo since (until_day + 1) in
    (forall c,
       (exists name bucket, by_author !! name = Some bucket /\ In c bucket) <->
       In c window /\
       exists target, In target authors /\ Spec.names_match target (author_name c)) /\
    (forall name,
       by_author !! name =
       match Spec.bucket_of authors name window with
       | [] => None
       | bucket => Some bucket
       end) /\
    (forall c name bucket,
       by_author !! name = Some bucket -> In c bucket -> name = author_name c) /\
    (forall (m : gmap string (list Commit)) commit,
       collect_commit authors m commit <> m ->
       exists earlier target later,
         authors = (earlier ++ target :: later)%list /\
         author_matches target (author_name commit) = true /\
         forall t, In t earlier -> author_matches t (author_name commit) = false) /\
    (forall target name,
       author_matches target name = true -> author_matches target target = true).
Proof.
  intros Hs He Hr. eexists. split; [apply (get_commits_in_range _ _ _ _ _ _ Hs He Hr) |].
  cbv zeta. set (window := iter_commits repo since (until_day + 1)).
  assert (L : forall name,
    fold_left (collect_commit authors) window ∅ !! name =
    match Spec.bucket_of authors name window with
    | [] => None
    | bucket => Some bucket
    end).
  { intros name. rewrite collect_fold, lookup_empty. reflexivity. }
  split; [| split; [exact L | split; [| split]]].
  - intros c. split.
    + intros (name & bucket & Hb & Hc). rewrite L in Hb.
      destruct (Spec.bucket_of authors name window) as [|b bs] eqn:B; [discriminate |].
      injection Hb as <-. rewrite <- B in Hc. apply bucket_of_In in Hc. tauto.
    + intros (Hc & Ht).
      assert (Hin : In c (Spec.bucket_of authors (author_name c) window))
        by (apply bucket_of_In; tauto).
      exists (author_name c), (Spec.bucket_of authors (author_name c) window).
      split; [| exact Hin]. rewrite L.
      destruct (Spec.bucket_of authors (author_name c) window); [destruct Hin | reflexivity].
  - intros c name bucket Hb Hc. rewrite L in Hb.
    destruct (Spec.bucket_of authors name window) as [|b bs] eqn:B; [discriminate |].
    injection Hb as <-. rewrite <- B in Hc. apply bucket_of_In in Hc.
    symmetry. tauto.
  - intros m commit Hne. unfold collect_commit in Hne.
    destruct (List.find _ authors) as [target|] eqn:F; [| contradiction].
    destruct (find_first_split _ _ _ F) as (earlier & later & H1 & H2 & H3).
    exists earlier, target, later. auto.
  - intros target name _. apply author_matches_refl.
Qed.

End GroupingClaims.

Lemma commits_grouped_by_matching_author_witness :
  exists by_author,
    get_commits_by_author_and_time Sample.plain_runtime (Some Sample.sample_repo)
      ["zhangbo0037"; "陈项世隆"]%string "2025-02-27" "2025-7-18" = Ok by_author /\
    by_author !! "zhangbo0037"%string
      = Some [Sample.deleting_commit; Sample.root_commit] /\
    by_author !! "JohanLi233"%string = None.
Proof.
  destruct (commits_grouped_by_matching_author Sample.plain_runtime Sample.sample_repo
              ["zhangbo0037"; "陈项世隆"]%string "2025-02-27" "2025-7-18"
              739309 739450 eq_refl eq_refl ltac:(unfold MAXORDINAL; lia))
    as (by_author & H & _ & L & _).
  exists by_author. split; [exact H |]. rewrite !L. split; reflexivity.
Defined.

(** The containment test keeps the case of the letters. *)
Example author_matches_case :
  author_matches "Bob" "bob" = false /\ author_matches "zhang" "zhangbo0037" = true /\
  author_matches "zhangbo0037" "zhang" = true.
Proof. repeat split. Qed.

(** ** Added lines *)

Section AddedLines.
Context (rt : Runtime).
Local Open Scope string_scope.

Lemma get_commit_diff_content_Ok commit :
  get_commit_diff_content rt commit = Ok (diff_lines_of rt commit).
Proof.
  unfold diff_lines_of, get_commit_diff_content, try_except.
  destruct (read_diff commit); reflexivity.
Qed.

Lemma get_commit_diff_content_read commit items :
  read_diff commit = Ok items ->
  get_commit_diff_content rt commit = Ok (patch_lines rt items).
Proof. intros H. unfold get_commit_diff_content. rewrite H. reflexivity. Qed.

Lemma get_commit_diff_content_failed commit e :
  read_diff commit = Raise e -> get_commit_diff_content rt commit = Ok [].
Proof. intros H. unfold get_commit_diff_content. rewrite H. reflexivity. Qed.

Lemma starts_with_plus line :
  startswith line "+" = true -> line = "+" ++ slice_from_1 line.
Proof.
  unfold startswith. intros H. apply prefix_spec in H as [rest ->]. reflexivity.
Qed.

Lemma new_lines_In diff_lines line :
  In line (new_lines diff_lines) <->
  In ("+" ++ line) diff_lines /\ startswith ("+" ++ line) "+++" = false.
Proof.
  unfold new_lines. rewrite in_map_iff. split.
  - intros (d & <- & Hd). apply filter_In in Hd as [Hd Hf].
    apply andb_true_iff in Hf as [Hp Hn]. apply negb_true_iff in Hn.
    rewrite <- (starts_with_plus d Hp). split; assumption.
  - intros [Hd Hn]. exists ("+" ++ line). split; [reflexivity |].
    apply filter_In. split; [exact Hd |]. rewrite Hn.
    apply andb_true_iff. split; [| reflexivity].
    apply prefix_spec. exists line. reflexivity.
Qed.

Lemma collect_code_lines_eq commits : forall acc,
  collect_code_lines rt commits acc =
  Ok (acc ++ flat_map (fun commit => new_lines (diff_lines_of rt commit)) commits)%list.
Proof.
  induction commits as [|c commits IH]; intros acc; cbn [collect_code_lines flat_map].
  - rewrite app_nil_r. reflexivity.
  - rewrite get_commit_diff_content_Ok. cbn [bind]. rewrite IH, <- app_assoc.
    reflexivity.
Qed.

(** The lines of a commit without parents, as the code computes them: they
    are taken from the diff against the empty tree, whatever a diff against
    a parent would give, and reading them never raises; the comprehension
    keeps the lines marked '+' that pass its test on '+++'; when the
    backend cannot make the diff the commit yields no line. *)
Lemma root_commit_lines (commit : Commit) :
  parents commit = [] ->
  (forall items,
     diff_against_null_tree commit = Ok items ->
     get_commit_diff_content rt commit = Ok (patch_lines rt items) /\
     forall line,
       In line (new_lines (diff_lines_of rt commit)) <->
       In ("+" ++ line) (patch_lines rt items) /\
       startswith ("+" ++ line) "+++" = false) /\
  (forall e,
     diff_against_null_tree commit = Raise e ->
     get_commit_diff_content rt commit = Ok []) /\
  (exists diff_lines, get_commit_diff_content rt commit = Ok diff_lines).
Proof.
  intros Hp.
  assert (R : read_diff commit = diff_against_null_tree commit)
    by (unfold read_diff; rewrite Hp; reflexivity).
  split; [| split].
  - intros items Hi. rewrite <- R in Hi.
    pose proof (get_commit_diff_content_read commit items Hi) as G.
    split; [exact G |]. intros line. unfold diff_lines_of. rewrite G.
    apply new_lines_In.
  - intros e He. rewrite <- R in He. exact (get_commit_diff_content_failed commit e He).
  - eexists. apply get_commit_diff_content_Ok.
Qed.

End AddedLines.

(** C4: on the root commit that adds the lines [++counter;] and
    [return counter;] the extraction returns the second line only.  The
    diff against the empty tree is read and marks both lines as additions;
    the test on '+++', which the comment above it and the specification
    mean for the file headers of a diff, meets no file header, since the
    patch text starts at the hunk header, and removes the added line
    [++counter;] instead: not every line of content of the root commit is
    returned. *)
Theorem root_content_dropped :
  parents Sample.root_commit = [] /\
  get_commit_diff_content Sample.plain_runtime Sample.root_commit
    = Ok ["@@ -0,0 +1,2 @@"; "+++counter;"; "+return counter;"; ""]%string /\
  new_lines (diff_lines_of Sample.plain_runtime Sample.root_commit)
    = ["return counter;"]%string /\
  ~ Spec.root_content_all_returned Sample.plain_runtime Sample.root_commit.
Proof.
  split; [reflexivity |]. split; [reflexivity |]. split; [reflexivity |]. intros H.
  destruct (H eq_refl _ eq_refl) as [_ Hall].
  specialize (Hall "++counter;"%string). vm_compute in Hall.
  destruct Hall as [E|[]]; [right; left; reflexivity | discriminate E].
Qed.

(** ** Quantity metrics *)

Section QuantityClaims.
Local Open Scope Z_scope.

Lemma add_commit_stats_fold commits : forall i d f,
  fold_left add_commit_stats commits (i, d, f) =
  (i + Spec.total_of insertions commits,
   d + Spec.total_of deletions commits,
   f + Spec.total_of files commits).
Proof.
  induction commits as [|c commits IH]; intros i d f; cbn [fold_left Spec.total_of fold_right].
  - rewrite !Z.add_0_r. reflexivity.
  - fold (Spec.total_of insertions commits) (Spec.total_of deletions commits)
      (Spec.total_of files commits).
    assert (E : add_commit_stats (i, d, f) c =
                (i + Spec.counted insertions c, d + Spec.counted deletions c,
                 f + Spec.counted files c)).
    { unfold add_commit_stats, Spec.counted. destruct (stats c); [reflexivity |].
      rewrite !Z.add_0_r. reflexivity. }
    rewrite E, IH, !Z.add_assoc. reflexivity.
Qed.

Lemma total_of_app field l1 l2 :
  Spec.total_of field (l1 ++ l2) = Spec.total_of field l1 + Spec.total_of field l2.
Proof.
  induction l1 as [|c l1 IH]; cbn [app Spec.total_of fold_right]; [reflexivity |].
  fold (Spec.total_of field (l1 ++ l2)). fold (Spec.total_of field l1). lia.
Qed.

Lemma total_of_nonneg field commits :
  (forall commit st, In commit commits -> stats commit = Ok st -> 0 <= field st) ->
  0 <= Spec.total_of field commits.
Proof.
  induction commits as [|c commits IH]; intros H; cbn [Spec.total_of fold_right]; [lia |].
  fold (Spec.total_of field commits).
  assert (0 <= Spec.total_of field commits) by (apply IH; intros; eapply H; [right|]; eauto).
  assert (0 <= Spec.counted field c).
  { unfold Spec.counted. destruct (stats c) as [st|] eqn:E; [| lia].
    apply (H c st); [left; reflexivity | exact E]. }
  lia.
Qed.


(** The six entries of the dictionary [analyze_commit_quantity] returns. *)
Lemma analyze_commit_quantity_lookup commits :
  let i := Spec.total_of insertions commits in
  let d := Spec.total_of deletions commits in
  let f := Spec.total_of files commits in
  let metrics := analyze_commit_quantity commits in
  metrics !! "提交次数" = Some (Z.of_nat (length commits)) /\
  metrics !! "新增代码行数" = Some i /\
  metrics !! "删除代码行数" = Some d /\
  metrics !! "净增代码行数" = Some (i - d) /\
  metrics !! "修改文件数" = Some f /\
  metrics !! "总变更行数" = Some (i + d) /\
  forall key v, metrics !! key = Some v ->
    In key ["提交次数"; "新增代码行数"; "删除代码行数"; "净增代码行数";
            "修改文件数"; "总变更行数"]%string.
Proof.
  cbv zeta. unfold analyze_commit_quantity. rewrite add_commit_stats_fold.
  rewrite !Z.add_0_l.
  repeat (split; [repeat (rewrite lookup_insert_ne by discriminate);
                  apply lookup_insert_eq |]).
  intros key v H.
  repeat (rewrite lookup_insert in H; case_decide as E;
          [subst key; cbn; tauto | clear E]).
  rewrite lookup_empty in H. discriminate.
Qed.

(** C7, as amended: the dictionary holds six integers; the commit count is
    the length of the list, insertions, deletions and files changed are the
    sums over the commits whose stats can be read, total changed lines is
    insertions + deletions and net lines is insertions - deletions; the sums
    start at zero and add up over the commits; all of them are at least 0
    except net lines, which is at least -deletions. *)
Theorem quantity_metrics_accumulate (commits : list Commit) :
  Spec.stats_are_counts commits ->
  exists n i d f,
    let metrics := analyze_commit_quantity commits in
    (metrics !! "提交次数" = Some n /\
     metrics !! "新增代码行数" = Some i /\
     metrics !! "删除代码行数" = Some d /\
     metrics !! "净增代码行数" = Some (i - d) /\
     metrics !! "修改文件数" = Some f /\
     metrics !! "总变更行数" = Some (i + d)) /\
    (n = Z.of_nat (length commits) /\
     i = Spec.total_of insertions commits /\
     d = Spec.total_of deletions commits /\
     f = Spec.total_of files commits) /\
    (0 <= n /\ 0 <= i /\ 0 <= d /\ 0 <= f /\ 0 <= i + d /\ - d <= i - d) /\
    (commits = [] -> n = 0 /\ i = 0 /\ d = 0 /\ f = 0) /\
    (forall field l1 l2,
       Spec.total_of field (l1 ++ l2) = Spec.total_of field l1 + Spec.total_of field l2).
Proof.
  intros Hc.
  exists (Z.of_nat (length commits)), (Spec.total_of insertions commits),
    (Spec.total_of deletions commits), (Spec.total_of files commits).
  cbv zeta.
  destruct (analyze_commit_quantity_lookup commits) as (H1 & H2 & H3 & H4 & H5 & H6 & _).
  split; [tauto |]. split; [tauto |].
  assert (Pi : 0 <= Spec.total_of insertions commits)
    by (apply total_of_nonneg; intros c st Hin Hst; apply (Hc c st Hin Hst)).
  assert (Pd : 0 <= Spec.total_of deletions commits)
    by (apply total_of_nonneg; intros c st Hin Hst; apply (Hc c st Hin Hst)).
  assert (Pf : 0 <= Spec.total_of files commits)
    by (apply total_of_nonneg; intros c st Hin Hst; apply (Hc c st Hin Hst)).
  split; [lia |]. split; [intros ->; cbn; tauto |].
  apply total_of_app.
Qed.

Lemma quantity_metrics_accumulate_witness :
  exists n i d f,
    let metrics := analyze_commit_quantity [Sample.deleting_commit; Sample.root_commit] in
    (metrics !! "提交次数" = Some n /\
     metrics !! "新增代码行数" = Some i /\
     metrics !! "删除代码行数" = Some d /\
     metrics !! "净增代码行数" = Some (i - d) /\
     metrics !! "修改文件数" = Some f /\
     metrics !! "总变更行数" = Some (i + d)) /\
    (0 <= n /\ 0 <= i /\ 0 <= d /\ 0 <= f /\ 0 <= i + d /\ - d <= i - d).
Proof.
  destruct (quantity_metrics_accumulate
              [Sample.deleting_commit; Sample.root_commit]
              ltac:(intros c st [<-|[<-|[]]] H; injection H as <-; cbn; lia))
    as (n & i & d & f & H1 & _ & H3 & _).
  exists n, i, d, f. split; [exact H1 | exact H3].
Defined.

(** A commit that deletes five lines and inserts none has -5 net lines. *)
Lemma net_lines_negative :
  Spec.stats_are_counts [Sample.deleting_commit] /\
  ~ Spec.all_metrics_nonnegative (analyze_commit_quantity [Sample.deleting_commit]).
Proof.
  split.
  - intros c st [<-|[]] H. injection H as <-. cbn. lia.
  - intros H. specialize (H "净增代码行数"%string (-5) eq_refl). lia.
Qed.

End QuantityClaims.

(** ** Commits that cannot be read *)

Section UnreadableCommits.
Context (rt : Runtime).
Local Open Scope Z_scope.



End UnreadableCommits.



(** ** Walking a syntax tree *)

Section WalkFacts.
Context (rt : Runtime).

Lemma forest_count_cons n rest :
  forest_count (n :: rest) = (node_count n + forest_count rest)%nat.
Proof. reflexivity. Qed.

Lemma forest_count_app l1 l2 :
  forest_count (l1 ++ l2) = (forest_count l1 + forest_count l2)%nat.
Proof.
  unfold forest_count. rewrite List.map_app, list_sum_app. reflexivity.
Qed.

Lemma node_count_children n :
  node_count n = S (forest_count (iter_child_nodes n)).
Proof. destruct n. reflexivity. Qed.

(** The queue of [ast.walk] is empty after one iteration per node: more
    iterations yield nothing more. *)
Lemma walk_queue_enough steps : forall steps' todo,
  (forest_count todo <= steps)%nat -> (forest_count todo <= steps')%nat ->
  walk_queue steps todo = walk_queue steps' todo.
Proof.
  induction steps as [|steps IH]; intros steps' todo H H'.
  - destruct todo as [|n rest].
    + destruct steps'; reflexivity.
    + rewrite forest_count_cons, node_count_children in H. lia.
  - destruct todo as [|n rest]; [destruct steps'; reflexivity |].
    rewrite forest_count_cons, node_count_children in H, H'.
    destruct steps' as [|steps']; [lia |]. cbn [walk_queue]. f_equal.
    apply IH; rewrite forest_count_app; lia.
Qed.

Lemma ast_walk_complete tree extra :
  walk_queue (node_count tree + extra) [tree] = ast_walk tree.
Proof.
  unfold ast_walk. apply walk_queue_enough;
    rewrite forest_count_cons; unfold forest_count; cbn; lia.
Qed.

(** With as many frames as the nesting of a node is high, the depth
    computation returns. *)
Lemma nesting_depth_returns frames : forall n depth,
  (nesting_height n <= frames)%nat ->
  exists d, _calculate_nesting_depth frames n depth = Ok d.
Proof.
  induction frames as [|frames IH]; intros [k cs] depth H; cbn [nesting_height] in H;
    [lia |].
  cbn [_calculate_nesting_depth iter_child_nodes].
  assert (Hc : forall c, In c cs -> is_nesting (kind_of c) = true ->
                 (nesting_height c <= frames)%nat).
  { intros c Hin Hk.
    assert (B : (match kind_of c with
                 | For | While | If | Try => nesting_height c
                 | _ => O
                 end <= list_max (List.map
                   (fun c => match kind_of c with
                             | For | While | If | Try => nesting_height c
                             | _ => O
                             end) cs))%nat).
    { pose proof (proj1 (list_max_le _ _) (Nat.le_refl (list_max (List.map
        (fun c => match kind_of c with
                  | For | While | If | Try => nesting_height c
                  | _ => O
                  end) cs)))) as F.
      rewrite List.Forall_forall in F. apply F.
      apply List.in_map_iff. exists c. split; [reflexivity | exact Hin]. }
    destruct (kind_of c); try discriminate Hk; lia. }
  clear H. generalize depth at 2. intros acc.
  induction cs as [|c cs IHcs] in acc, Hc |- *; cbn [fold_left]; [eauto |].
  cbn [bind]. destruct (is_nesting (kind_of c)) eqn:K.
  - destruct (IH c (depth + 1)%Z (Hc c (or_introl eq_refl) K)) as [d ->]. cbn [bind].
    apply IHcs. intros c' Hin. apply Hc. right. exact Hin.
  - apply IHcs. intros c' Hin. apply Hc. right. exact Hin.
Qed.

End WalkFacts.

(** ** The structural analyzer *)

Section SyntaxClaims.
Context (rt : Runtime).
Local Open Scope Z_scope.

Lemma dict_add_other key n (issues : gmap string Z) other :
  key <> other -> dict_add key n issues !! other = issues !! other.
Proof. intros H. unfold dict_add. apply lookup_insert_ne, H. Qed.

(** The only exception of the depth computation is the recursion error. *)
Lemma nesting_depth_raises frames : forall n depth e,
  _calculate_nesting_depth frames n depth = Raise e -> e = RecursionError.
Proof.
  induction frames as [|frames IH]; intros n depth e; cbn [_calculate_nesting_depth].
  - intros H. injection H as <-. reflexivity.
  - assert (G : forall children acc,
      (forall e', acc = Raise e' -> e' = RecursionError) ->
      fold_left
        (fun acc child =>
           let* max_depth := acc in
           if is_nesting (kind_of child) then
             let* child_depth := _calculate_nesting_depth frames child (depth + 1) in
             Ok (Z.max max_depth child_depth)
           else Ok max_depth)
        children acc = Raise e -> e = RecursionError).
    { induction children as [|c cs IHc]; intros acc Hacc; cbn [fold_left].
      - apply Hacc.
      - apply IHc. intros e'. destruct acc as [m|ea]; cbn [bind].
        + destruct (is_nesting (kind_of c)); [| discriminate].
          destruct (_calculate_nesting_depth frames c (depth + 1)) eqn:D; cbn [bind];
            [discriminate |].
          intros H. injection H as <-. exact (IH _ _ _ D).
        + intros H. injection H as <-. apply Hacc. reflexivity. }
    apply G. discriminate.
Qed.

Lemma check_node_raises n issues issues' e :
  check_node rt n issues = (issues', Some e) -> e = RecursionError.
Proof.
  unfold check_node. destruct (is_loop_or_if (kind_of n)); [| discriminate].
  destruct (_calculate_nesting_depth _ n 0) eqn:D; [discriminate |].
  intros H. injection H as _ <-. exact (nesting_depth_raises _ _ _ _ D).
Qed.

Lemma check_node_keeps_syntax n issues :
  fst (check_node rt n issues) !! "语法错误" = issues !! "语法错误".
Proof.
  unfold check_node.
  set (issues1 := match kind_of n with
                  | FunctionDef => if 10 <? _calculate_complexity n
                                   then dict_add "高复杂度函数" 1 issues else issues
                  | _ => issues
                  end).
  assert (E1 : issues1 !! "语法错误" = issues !! "语法错误").
  { unfold issues1. destruct (kind_of n); try reflexivity.
    destruct (10 <? _calculate_complexity n); [| reflexivity].
    apply dict_add_other. discriminate. }
  destruct (is_loop_or_if (kind_of n)); [| exact E1].
  destruct (_calculate_nesting_depth _ n 0); [| exact E1].
  cbn [fst]. destruct (3 <? a); [| exact E1].
  rewrite dict_add_other by discriminate. exact E1.
Qed.

Lemma check_nodes_raises nodes : forall issues issues' e,
  check_nodes rt nodes issues = (issues', Some e) -> e = RecursionError.
Proof.
  induction nodes as [|n nodes IH]; intros issues issues' e; cbn [check_nodes].
  - discriminate.
  - destruct (check_node rt n issues) as [i [e'|]] eqn:C.
    + intros H. injection H as _ <-. exact (check_node_raises _ _ _ _ C).
    + apply IH.
Qed.

Lemma check_nodes_keeps_syntax nodes : forall issues,
  fst (check_nodes rt nodes issues) !! "语法错误" = issues !! "语法错误".
Proof.
  induction nodes as [|n nodes IH]; intros issues; cbn [check_nodes]; [reflexivity |].
  pose proof (check_node_keeps_syntax n issues) as K.
  destruct (check_node rt n issues) as [i [e'|]]; cbn [fst] in *; [exact K |].
  rewrite IH. exact K.
Qed.

(** C8, as amended: when parsing raises a syntax error the analyzer returns
    the single entry "syntax error" = 1; when parsing fails in any other way
    it returns the empty tally; when the blob parses it returns the
    structural counts made until the walk ended, be it at the last node or
    at a failure that is then swallowed, and no syntax-error entry. *)
Theorem syntax_analysis_outcomes (blob : string) :
  (ast_parse rt blob = Raise SyntaxError ->
     analyze_python_syntax rt blob = {[ "语法错误" := 1 ]}) /\
  (forall e, ast_parse rt blob = Raise e -> e <> SyntaxError ->
     analyze_python_syntax rt blob = ∅) /\
  (forall tree, ast_parse rt blob = Ok tree ->
     analyze_python_syntax rt blob = fst (check_nodes rt (ast_walk tree) ∅) /\
     analyze_python_syntax rt blob !! "语法错误" = None).
Proof.
  unfold analyze_python_syntax, run_try_block. split; [| split].
  - intros ->. unfold dict_add. rewrite lookup_empty. cbn. apply insert_empty.
  - intros e -> Hne. destruct e; try reflexivity. contradiction.
  - intros tree ->.
    assert (E : (let '(issues, raised) := check_nodes rt (ast_walk tree) ∅ in
                 match raised with
                 | Some SyntaxError => dict_add "语法错误" 1 issues
                 | _ => issues
                 end) = fst (check_nodes rt (ast_walk tree) ∅)).
    { destruct (check_nodes rt (ast_walk tree) ∅) as [issues [e|]] eqn:C;
        [| reflexivity].
      rewrite (check_nodes_raises _ _ _ _ C). reflexivity. }
    rewrite E. split; [reflexivity |].
    rewrite check_nodes_keeps_syntax. apply lookup_empty.
Qed.

End SyntaxClaims.

Lemma syntax_analysis_outcomes_witness :
  analyze_python_syntax Sample.plain_runtime "def f(:" = {[ "语法错误"%string := 1%Z ]}.
Proof.
  apply (proj1 (syntax_analysis_outcomes Sample.plain_runtime "def f(:")). reflexivity.
Defined.

(** A long if/elif chain after a short one: the short chain is counted as
    nested too deep, the depth computation on the long one exceeds the
    recursion limit, the failure is swallowed, and the result is not empty. *)
Lemma swallowed_failure_keeps_counts :
  ~ Spec.syntax_analysis_as_worded Sample.elif_runtime Sample.long_elif_blob.
Proof.
  intros (_ & H & _).
  specialize (H RecursionError).
  assert (R : snd (run_try_block Sample.elif_runtime Sample.long_elif_blob)
              = Some RecursionError) by (vm_compute; reflexivity).
  specialize (H R ltac:(discriminate)).
  assert (L : analyze_python_syntax Sample.elif_runtime Sample.long_elif_blob
              !! "过深嵌套"%string = Some 1%Z) by (vm_compute; reflexivity).
  rewrite H in L. rewrite lookup_empty in L. discriminate L.
Qed.

(* ===================================================================== *)
(** * Part III: further properties of the script                           *)
(* ===================================================================== *)

(** ** Rounding respects the equality of rationals *)

Section RoundingProper.
Local Open Scope Q_scope.

Lemma ilog2_unique q k : 0 < q -> 2 ^ k <= q -> q < 2 ^ (k + 1) -> ilog2 q = k.
Proof.
  intros Hq L U. destruct (ilog2_spec q Hq) as [L' U'].
  assert (H1 : 2 ^ k < 2 ^ (ilog2 q + 1)) by lra.
  assert (H2 : 2 ^ ilog2 q < 2 ^ (k + 1)) by lra.
  apply pow2_lt_inv in H1, H2. lia.
Qed.

Lemma ilog2_proper p q : 0 < p -> p == q -> ilog2 p = ilog2 q.
Proof.
  intros Hp E. destruct (ilog2_spec p Hp) as [L U].
  symmetry. apply ilog2_unique; rewrite <- E; assumption.
Qed.

Lemma rhe_proper p q : p == q -> rhe p = rhe q.
Proof.
  intros E. unfold rhe. rewrite (Qfloor_comp _ _ E).
  assert (C : Qcompare (p - inject_Z (Qfloor q)) (1 # 2)
              = Qcompare (q - inject_Z (Qfloor q)) (1 # 2))
    by (apply Qcompare_comp; [rewrite E; reflexivity | reflexivity]).
  rewrite C. reflexivity.
Qed.

Lemma round_pos_proper p q : 0 < p -> p == q -> round_pos p == round_pos q.
Proof.
  intros Hp E. unfold round_pos, fexp. rewrite (ilog2_proper p q Hp E).
  cbv zeta. rewrite (rhe_proper (p / 2 ^ Z.max (ilog2 q - 52) (-1074))
                                (q / 2 ^ Z.max (ilog2 q - 52) (-1074)));
    [reflexivity | rewrite E; reflexivity].
Qed.

Lemma rnd_proper p q : p == q -> rnd p == rnd q.
Proof.
  intros E. destruct (Qcompare_spec p 0) as [Z0|Neg|Pos].
  - rewrite (rnd_zero_eq p Z0), (rnd_zero_eq q); [reflexivity | rewrite <- E; exact Z0].
  - rewrite (rnd_neg_eq p Neg), (rnd_neg_eq q) by (rewrite <- E; exact Neg).
    rewrite (round_pos_proper (- p) (- q)); [reflexivity | lra | rewrite E; reflexivity].
  - rewrite (rnd_pos_eq p Pos), (rnd_pos_eq q) by (rewrite <- E; exact Pos).
    apply round_pos_proper; assumption.
Qed.

Lemma round_float_proper p q : p == q -> round_float p = round_float q.
Proof.
  intros E. unfold round_float, overflow_to_inf.
  pose proof (rnd_proper p q E) as R.
  assert (E1 : Qle_bool (2 ^ 1024) (rnd p) = Qle_bool (2 ^ 1024) (rnd q))
    by (rewrite R; reflexivity).
  assert (E2 : Qle_bool (rnd p) (- 2 ^ 1024) = Qle_bool (rnd q) (- 2 ^ 1024))
    by (rewrite R; reflexivity).
  rewrite E1, E2, (Qred_complete _ _ R). reflexivity.
Qed.

Lemma round_float_zero q : q == 0 -> round_float q = Fin 0.
Proof. intros E. rewrite (round_float_proper q 0 E). reflexivity. Qed.

Lemma round_float_int_pos n :
  (0 < n)%Z -> fle (Fin 1) (round_float (inject_Z n)).
Proof.
  intros H. assert (E : round_float 1 = Fin 1) by (vm_compute; reflexivity).
  rewrite <- E. apply round_float_mono. rewrite <- (Zle_Qle 1). lia.
Qed.

End RoundingProper.

(** ** More on the metrics calculator *)

Section MetricsMore.
Local Open Scope Q_scope.

Lemma py_max0_nonpos x : fle x (Fin 0) -> py_max0 x = Fin 0.
Proof.
  intros H. unfold py_max0. destruct x as [b| | |]; try discriminate H.
  - apply fle_Fin in H. apply fgt_Fin_false in H. rewrite H. reflexivity.
  - reflexivity.
Qed.

Lemma int_truediv_zero changed : changed <> 0%Z -> int_truediv 0 changed = Ok (Fin 0).
Proof.
  intros H. unfold int_truediv. destruct (Z.eqb_spec changed 0) as [E|_]; [contradiction |].
  rewrite (round_float_zero (inject_Z 0 / inject_Z changed)); [reflexivity |].
  unfold Qdiv. apply Qmult_0_l.
Qed.

Lemma float_of_int_Ok n x : float_of_int n = Ok x -> x = round_float (inject_Z n).
Proof.
  unfold float_of_int. destruct (round_float (inject_Z n)); intros H; try discriminate.
  injection H as <-. reflexivity.
Qed.

Lemma float_of_int_mono n n' x x' :
  (n <= n')%Z -> float_of_int n = Ok x -> float_of_int n' = Ok x' -> fle x x'.
Proof.
  intros H Hx Hx'. apply float_of_int_Ok in Hx, Hx'. subst.
  apply round_float_mono. rewrite <- Zle_Qle. exact H.
Qed.

Lemma is_zero_pos a : 0 < a -> is_zero (Fin a) = false.
Proof.
  intros H. cbn. destruct (Qeq_bool a 0) eqn:E; [| reflexivity].
  apply Qeq_bool_iff in E. exfalso. lra.
Qed.

Lemma fdiv_pos x a :
  0 < a ->
  fdiv x (Fin a) =
  Ok match x with
     | Fin b => round_float (b / a)
     | other => other
     end.
Proof.
  intros H. unfold fdiv. rewrite (is_zero_pos a H).
  assert (E1 : Qcompare a 0 = Gt) by (apply Qgt_alt; exact H).
  assert (E2 : Qcompare 0 a = Lt) by (apply Qlt_alt; exact H).
  destruct x; cbn; rewrite ?E1, ?E2; reflexivity.
Qed.

Lemma fdiv_mono_pos a x y x' y' :
  0 < a -> fle x y -> fdiv x (Fin a) = Ok x' -> fdiv y (Fin a) = Ok y' -> fle x' y'.
Proof.
  intros Ha H Hx Hy. rewrite (fdiv_pos x a Ha) in Hx. rewrite (fdiv_pos y a Ha) in Hy.
  injection Hx as <-. injection Hy as <-.
  destruct x as [b| | |], y as [c| | |]; try discriminate H; try reflexivity.
  - apply round_float_mono. apply fle_Fin in H.
    apply Qmult_le_compat_r; [exact H |]. apply Qlt_le_weak, Qinv_lt_0_compat, Ha.
  - apply fle_PInf, round_float_not_NaN.
  - apply fle_NInf, round_float_not_NaN.
Qed.

(** A tier is reached exactly from its threshold on. *)
Lemma chain_at_least (g7 g6 g5 g4 g3 g2 g1 : bool) :
  (g7 = true -> g6 = true) -> (g6 = true -> g5 = true) -> (g5 = true -> g4 = true) ->
  (g4 = true -> g3 = true) -> (g3 = true -> g2 = true) -> (g2 = true -> g1 = true) ->
  let tier := (if g7 then 100 else if g6 then 90 else if g5 then 80
               else if g4 then 70 else if g3 then 60 else if g2 then 50
               else if g1 then 40 else 30)%Z in
  ((100 <= tier)%Z <-> g7 = true) /\ ((90 <= tier)%Z <-> g6 = true) /\
  ((80 <= tier)%Z <-> g5 = true) /\ ((70 <= tier)%Z <-> g4 = true) /\
  ((60 <= tier)%Z <-> g3 = true) /\ ((50 <= tier)%Z <-> g2 = true) /\
  ((40 <= tier)%Z <-> g1 = true) /\ (30 <= tier)%Z.
Proof.
  intros H76 H65 H54 H43 H32 H21. cbv zeta.
  destruct g7, g6, g5, g4, g3, g2, g1;
    try discriminate (H76 eq_refl); try discriminate (H65 eq_refl);
    try discriminate (H54 eq_refl); try discriminate (H43 eq_refl);
    try discriminate (H32 eq_refl); try discriminate (H21 eq_refl);
    repeat split; intros; try reflexivity; try lia; try discriminate.
Qed.

Lemma tier_at_least ratio :
  ((100 <= Spec.tier_of ratio)%Z <-> fge ratio (lit 2) = true) /\
  ((90 <= Spec.tier_of ratio)%Z <-> fge ratio (lit (15 # 10)) = true) /\
  ((80 <= Spec.tier_of ratio)%Z <-> fge ratio (lit 1) = true) /\
  ((70 <= Spec.tier_of ratio)%Z <-> fge ratio (lit (8 # 10)) = true) /\
  ((60 <= Spec.tier_of ratio)%Z <-> fge ratio (lit (6 # 10)) = true) /\
  ((50 <= Spec.tier_of ratio)%Z <-> fge ratio (lit (4 # 10)) = true) /\
  ((40 <= Spec.tier_of ratio)%Z <-> fge ratio (lit (2 # 10)) = true) /\
  (30 <= Spec.tier_of ratio)%Z.
Proof.
  destruct thresholds_descend as (D1 & D2 & D3 & D4 & D5 & D6).
  rewrite <- quantity_chain.
  apply chain_at_least; apply fge_weaken; assumption.
Qed.

Lemma tier_of_mono r r' : fle r r' -> (Spec.tier_of r <= Spec.tier_of r')%Z.
Proof.
  intros H.
  assert (W : forall t, fge r t = true -> fge r' t = true)
    by (intros t Ht; exact (fle_trans t r r' Ht H)).
  destruct (tier_at_least r) as (A7 & A6 & A5 & A4 & A3 & A2 & A1 & A0).
  destruct (tier_at_least r') as (B7 & B6 & B5 & B4 & B3 & B2 & B1 & B0).
  pose proof (tier_of_values r) as V. cbn [In] in V.
  destruct V as [V|[V|[V|[V|[V|[V|[V|[V|[]]]]]]]]]; rewrite <- V in *.
  - apply B7, W, A7. lia.
  - apply B6, W, A6. lia.
  - apply B5, W, A5. lia.
  - apply B4, W, A4. lia.
  - apply B3, W, A3. lia.
  - apply B2, W, A2. lia.
  - apply B1, W, A1. lia.
  - exact B0.
Qed.

Lemma calculate_quantity_score_eq total_lines avg_lines total ratio :
  is_zero avg_lines = false ->
  float_of_int total_lines = Ok total ->
  fdiv total avg_lines = Ok ratio ->
  calculate_quantity_score total_lines avg_lines
  = Ok (Fin (inject_Z (Spec.tier_of ratio))).
Proof.
  intros Hz Ht Hr. unfold calculate_quantity_score. rewrite Hz, Ht. cbn [bind].
  rewrite Hr. cbn [bind]. rewrite quantity_chain.
  apply float_of_tier, tier_of_values.
Qed.

End MetricsMore.

Section MetricsExtras.
Local Open Scope Q_scope.

(** X1: an author with at least one issue per 20 changed lines has quality
    score 0. *)
Theorem quality_zero_from_five_percent (issues changed : Z) :
  (0 < changed)%Z -> (changed <= 20 * issues)%Z -> (issues <= DBL_MAX * changed)%Z ->
  quality_score_of issues changed = Ok (Fin 0).
Proof.
  intros Hl Hd Hb.
  destruct (int_truediv_total issues changed ltac:(lia) Hl Hb) as (a & Hq & _).
  destruct (py_round2_float_total (a * 1000)) as [r Hr].
  apply (quality_score_of_pipeline issues changed (Fin a) (Fin 0)) with r;
    [lia | exact Hq | | exact Hr].
  assert (D : fle (lit (1 # 20)) (Fin a)).
  { apply int_truediv_Ok in Hq as [_ ->]. apply round_float_mono.
    assert (Pl : 0 < inject_Z changed) by (rewrite <- (Zlt_Qlt 0); exact Hl).
    apply Qle_shift_div_l; [exact Pl |].
    assert (H20 : inject_Z changed <= 20 * inject_Z issues).
    { change 20 with (inject_Z 20). rewrite <- inject_Z_mult, <- Zle_Qle. exact Hd. }
    lra. }
  assert (K : fle (Fin 50) (fmul (Fin a) (Fin 1000))).
  { assert (E : fmul (lit (1 # 20)) (Fin 1000) = Fin 50) by (vm_compute; reflexivity).
    rewrite <- E. apply fmul_mono_r; [reflexivity | exact D]. }
  assert (T : fle (Fin 100) (fmul (fmul (Fin a) (Fin 1000)) (Fin 2))).
  { assert (E : fmul (Fin 50) (Fin 2) = Fin 100) by (vm_compute; reflexivity).
    rewrite <- E. apply fmul_mono_r; [reflexivity | exact K]. }
  assert (S : fle (fsub (Fin 100) (fmul (fmul (Fin a) (Fin 1000)) (Fin 2))) (Fin 0)).
  { assert (E : fsub (Fin 100) (Fin 100) = Fin 0) by (vm_compute; reflexivity).
    rewrite <- E. apply fsub_anti_r, T. }
  rewrite (py_max0_nonpos _ S). vm_compute. reflexivity.
Qed.

Lemma quality_zero_from_five_percent_witness : quality_score_of 7 140 = Ok (Fin 0).
Proof.
  apply quality_zero_from_five_percent; unfold DBL_MAX; lia.
Defined.

(** X2: with no issue, every line count other than 0 gives both densities 0
    and quality score 100. *)
Theorem no_issue_full_quality (changed : Z) :
  changed <> 0%Z ->
  exists d, calculate_quality_metrics 0 changed = Ok d /\
    d !! "千行代码问题数" = Some (Fin 0) /\
    d !! "千行代码问题率" = Some (Fin 0) /\
    d !! "质量分数" = Some (Fin 100).
Proof.
  intros H. eexists. split.
  - apply (calculate_quality_metrics_nonzero 0 changed (Fin 0) (Fin 0) (Fin 100) H).
    + apply int_truediv_zero, H.
    + vm_compute. reflexivity.
    + vm_compute. reflexivity.
  - apply metrics_lookup.
Qed.

Lemma no_issue_full_quality_witness :
  exists d, calculate_quality_metrics 0 140 = Ok d /\
    d !! "千行代码问题数" = Some (Fin 0) /\
    d !! "千行代码问题率" = Some (Fin 0) /\
    d !! "质量分数" = Some (Fin 100).
Proof. apply no_issue_full_quality. lia. Defined.

(** X3: against a positive average, more changed lines never give a lower
    quantity score. *)
Theorem quantity_score_monotone (total_lines total_lines' : Z) (avg : Q) :
  0 < avg ->
  (- DBL_MAX <= total_lines)%Z -> (total_lines <= total_lines')%Z ->
  (total_lines' <= DBL_MAX)%Z ->
  exists s s',
    calculate_quantity_score total_lines (Fin avg) = Ok (Fin s) /\
    calculate_quantity_score total_lines' (Fin avg) = Ok (Fin s') /\
    s <= s'.
Proof.
  intros Ha L H U.
  destruct (float_of_int_total total_lines ltac:(lia)) as [t Ht].
  destruct (float_of_int_total total_lines' ltac:(lia)) as [t' Ht'].
  pose proof (fdiv_pos (Fin t) avg Ha) as R. pose proof (fdiv_pos (Fin t') avg Ha) as R'.
  eexists. eexists.
  split; [exact (calculate_quantity_score_eq _ _ _ _ (is_zero_pos avg Ha) Ht R) |].
  split; [exact (calculate_quantity_score_eq _ _ _ _ (is_zero_pos avg Ha) Ht' R') |].
  rewrite <- Zle_Qle. apply tier_of_mono.
  exact (fdiv_mono_pos avg _ _ _ _ Ha (float_of_int_mono _ _ _ _ H Ht Ht') R R').
Qed.

Lemma quantity_score_monotone_witness :
  exists s s',
    calculate_quantity_score 90 (Fin 140) = Ok (Fin s) /\
    calculate_quantity_score 300 (Fin 140) = Ok (Fin s') /\
    s <= s'.
Proof.
  apply quantity_score_monotone; [reflexivity | unfold DBL_MAX; lia | lia | unfold DBL_MAX; lia].
Defined.

Lemma weighted_sum q n :
  0 <= q -> q <= 100 -> 0 <= n -> n <= 100 ->
  exists a b,
    fmul (Fin q) (lit (8 # 10)) = Fin a /\ fmul (Fin n) (lit (2 # 10)) = Fin b /\
    0 <= a /\ a <= 80 /\ 0 <= b /\ b <= 20.
Proof.
  intros Hq0 Hq1 Hn0 Hn1.
  assert (E8 : lit (8 # 10) = Fin (3602879701896397 # 4503599627370496))
    by (vm_compute; reflexivity).
  assert (E2 : lit (2 # 10) = Fin (3602879701896397 # 18014398509481984))
    by (vm_compute; reflexivity).
  destruct (weighted_part_bounds q _ _ Hq0 Hq1 E8 ltac:(reflexivity)) as [A0 A1].
  destruct (weighted_part_bounds n _ _ Hn0 Hn1 E2 ltac:(reflexivity)) as [B0 B1].
  assert (T8 : fmul (Fin 100) (lit (8 # 10)) = Fin 80) by (vm_compute; reflexivity).
  assert (T2 : fmul (Fin 100) (lit (2 # 10)) = Fin 20) by (vm_compute; reflexivity).
  rewrite T8 in A1. rewrite T2 in B1.
  destruct (fle_between_Fin _ _ _ A0 A1) as (a & Ea & Ha0 & Ha1).
  destruct (fle_between_Fin _ _ _ B0 B1) as (b & Eb & Hb0 & Hb1).
  exists a, b. auto 10.
Qed.

Lemma final_score_returns q n :
  0 <= q -> q <= 100 -> 0 <= n -> n <= 100 ->
  exists r, calculate_final_score (Fin q) (Fin n) = Ok (Fin r) /\ 0 <= r /\ r <= 100.
Proof.
  intros Hq0 Hq1 Hn0 Hn1. unfold calculate_final_score.
  destruct (weighted_sum q n Hq0 Hq1 Hn0 Hn1) as (a & b & -> & -> & Ha0 & Ha1 & Hb0 & Hb1).
  apply py_round2_unit; cbn [fadd].
  - apply round_float_nonneg. lra.
  - assert (R : round_float 100 = Fin 100) by (vm_compute; reflexivity).
    rewrite <- R. apply round_float_mono. lra.
Qed.

Lemma final_score_mono q q' n n' f f' :
  0 <= q -> q <= q' -> q' <= 100 -> 0 <= n -> n <= n' -> n' <= 100 ->
  calculate_final_score (Fin q) (Fin n) = Ok f ->
  calculate_final_score (Fin q') (Fin n') = Ok f' ->
  fle f f'.
Proof.
  intros Hq0 Hq Hq1 Hn0 Hn Hn1 Hf Hf'. unfold calculate_final_score in Hf, Hf'.
  refine (py_round2_mono _ _ _ _ _ Hf Hf').
  assert (E8 : lit (8 # 10) = Fin (3602879701896397 # 4503599627370496))
    by (vm_compute; reflexivity).
  assert (E2 : lit (2 # 10) = Fin (3602879701896397 # 18014398509481984))
    by (vm_compute; reflexivity).
  assert (A : fle (fmul (Fin q) (lit (8 # 10))) (fmul (Fin q') (lit (8 # 10))))
    by (rewrite E8; apply fmul_mono_r; [reflexivity | apply fle_Fin, Hq]).
  assert (B : fle (fmul (Fin n) (lit (2 # 10))) (fmul (Fin n') (lit (2 # 10))))
    by (rewrite E2; apply fmul_mono_r; [reflexivity | apply fle_Fin, Hn]).
  destruct (weighted_sum q n) as (a & b & Ea & Eb & _); try lra.
  destruct (weighted_sum q' n') as (a' & b' & Ea' & Eb' & _); try lra.
  rewrite Ea, Ea' in A. rewrite Eb, Eb' in B. rewrite Ea, Eb, Ea', Eb'.
  apply fle_Fin in A, B. cbn [fadd]. apply round_float_mono. lra.
Qed.

(** X4: on scores in [0, 100], a higher quality score or a higher quantity
    score never gives a lower final score. *)
Theorem final_score_monotone (quality quality' quantity quantity' : Q) :
  0 <= quality -> quality <= quality' -> quality' <= 100 ->
  0 <= quantity -> quantity <= quantity' -> quantity' <= 100 ->
  exists f f',
    calculate_final_score (Fin quality) (Fin quantity) = Ok (Fin f) /\
    calculate_final_score (Fin quality') (Fin quantity') = Ok (Fin f') /\
    f <= f'.
Proof.
  intros Hq0 Hq Hq1 Hn0 Hn Hn1.
  destruct (final_score_returns quality quantity) as (f & Hf & _); try lra.
  destruct (final_score_returns quality' quantity') as (f' & Hf' & _); try lra.
  exists f, f'. split; [exact Hf |]. split; [exact Hf' |].
  apply fle_Fin.
  exact (final_score_mono _ _ _ _ _ _ Hq0 Hq Hq1 Hn0 Hn Hn1 Hf Hf').
Qed.

Lemma final_score_monotone_witness :
  exists f f',
    calculate_final_score (Fin (5714 # 100)) (Fin 40) = Ok (Fin f) /\
    calculate_final_score (Fin (5714 # 100)) (Fin 80) = Ok (Fin f') /\
    f <= f'.
Proof.
  apply final_score_monotone; vm_compute; discriminate.
Defined.

(** X5: with a quality score in [0, 100] and one of the tiers 30 to 100 as
    quantity score, the final score lies between 6 and 100. *)
Theorem final_score_range (quality quantity : Q) :
  0 <= quality -> quality <= 100 -> 30 <= quantity -> quantity <= 100 ->
  exists f, calculate_final_score (Fin quality) (Fin quantity) = Ok (Fin f) /\
    6 <= f /\ f <= 100.
Proof.
  intros Hq0 Hq1 Hn0 Hn1.
  destruct (final_score_returns quality quantity) as (f & Hf & _ & Hf1); try lra.
  exists f. split; [exact Hf |]. split; [| exact Hf1].
  assert (L : calculate_final_score (Fin 0) (Fin 30) = Ok (Fin 6)) by (vm_compute; reflexivity).
  apply fle_Fin.
  apply (final_score_mono 0 quality 30 quantity (Fin 6) (Fin f)); try lra; assumption.
Qed.

Lemma final_score_range_witness :
  exists f, calculate_final_score (Fin (5714 # 100)) (Fin 30) = Ok (Fin f) /\
    6 <= f /\ f <= 100.
Proof.
  apply final_score_range; vm_compute; discriminate.
Defined.

End MetricsExtras.

(** ** The cohort average *)

Section CohortExtras.
Local Open Scope Q_scope.

Lemma sum_constant (l : list Z) t :
  (forall x, In x l -> x = t) -> fold_right Z.add 0%Z l = (Z.of_nat (length l) * t)%Z.
Proof.
  induction l as [|x l IH]; intros H; [reflexivity |].
  cbn [fold_right length]. rewrite IH by (intros y Hy; apply H; right; exact Hy).
  rewrite (H x (or_introl eq_refl)). lia.
Qed.

Lemma sum_at_most (l : list Z) t :
  (forall x, In x l -> (x <= t)%Z) -> (fold_right Z.add 0 l <= Z.of_nat (length l) * t)%Z.
Proof.
  induction l as [|x l IH]; intros H; [cbn; lia |].
  cbn [fold_right length].
  pose proof (IH (fun y Hy => H y (or_intror Hy))). pose proof (H x (or_introl eq_refl)). lia.
Qed.

Lemma sum_at_least (l : list Z) t :
  (forall x, In x l -> (t <= x)%Z) -> (Z.of_nat (length l) * t <= fold_right Z.add 0 l)%Z.
Proof.
  induction l as [|x l IH]; intros H; [cbn; lia |].
  cbn [fold_right length].
  pose proof (IH (fun y Hy => H y (or_intror Hy))). pose proof (H x (or_introl eq_refl)). lia.
Qed.

Lemma average_lines_Ok (l : list Z) avg :
  l <> [] -> average_lines l = Ok avg ->
  avg = round_float (inject_Z (fold_right Z.add 0%Z l) / inject_Z (Z.of_nat (length l))).
Proof.
  intros Hl H. destruct l as [|x l]; [contradiction |].
  unfold average_lines in H. apply int_truediv_Ok in H as [_ H]. exact H.
Qed.

Lemma length_pos {A} (l : list A) : l <> [] -> 0 < inject_Z (Z.of_nat (length l)).
Proof.
  intros H. destruct l; [contradiction |]. rewrite <- (Zlt_Qlt 0). cbn [length]. lia.
Qed.

(** X6: when every author has the same number t of changed lines, each of
    them gets the quantity score 80, or 50 when t is 0. *)
Theorem equal_lines_same_tier (all_total_lines : list Z) (t : Z) :
  all_total_lines <> [] ->
  (forall x, In x all_total_lines -> x = t) ->
  (0 <= t <= DBL_MAX)%Z ->
  exists avg,
    average_lines all_total_lines = Ok avg /\
    calculate_quantity_score t avg = Ok (Fin (if (t =? 0)%Z then 50 else 80)).
Proof.
  intros Hl Hall Ht.
  pose proof (length_pos _ Hl) as Pn.
  assert (Eavg : inject_Z (fold_right Z.add 0%Z all_total_lines)
                 / inject_Z (Z.of_nat (length all_total_lines)) == inject_Z t).
  { rewrite (sum_constant _ t Hall), inject_Z_mult. field. lra. }
  destruct (float_of_int_total t ltac:(unfold DBL_MAX in *; lia)) as [a Ha].
  pose proof (float_of_int_Ok _ _ Ha) as Ea.
  assert (A : average_lines all_total_lines = Ok (Fin a)).
  { destruct all_total_lines as [|x l]; [contradiction |].
    unfold average_lines, int_truediv.
    destruct (Z.eqb_spec (Z.of_nat (length (x :: l))) 0) as [E|_]; [cbn [length] in E; lia |].
    rewrite (round_float_proper _ _ Eavg), <- Ea. reflexivity. }
  exists (Fin a). split; [exact A |].
  destruct (Z.eqb_spec t 0) as [->|Hne].
  - vm_compute in Ha. injection Ha as <-. reflexivity.
  - assert (P1 : fle (Fin 1) (Fin a)) by (rewrite Ea; apply round_float_int_pos; lia).
    apply fle_Fin in P1. assert (Pa : 0 < a) by lra.
    rewrite (calculate_quantity_score_eq t (Fin a) (Fin a) (round_float 1)
               (is_zero_pos a Pa) Ha).
    + vm_compute. reflexivity.
    + rewrite (fdiv_pos (Fin a) a Pa). f_equal. apply round_float_proper. field. lra.
Qed.

Lemma equal_lines_same_tier_witness :
  exists avg,
    average_lines [140; 140; 140]%Z = Ok avg /\
    calculate_quantity_score 140 avg = Ok (Fin 80).
Proof.
  apply (equal_lines_same_tier [140; 140; 140]%Z 140%Z).
  - discriminate.
  - intros x [<-|[<-|[<-|[]]]]; reflexivity.
  - unfold DBL_MAX. lia.
Defined.

Lemma average_nonneg (l : list Z) avg :
  l <> [] -> (forall x, In x l -> (0 <= x)%Z) -> average_lines l = Ok avg ->
  is_zero avg = false -> exists a, avg = Fin a /\ 0 < a.
Proof.
  intros Hl Hpos H Hz. pose proof (length_pos _ Hl) as Pn.
  pose proof (average_lines_Ok l avg Hl H) as E.
  assert (S0 : (0 <= fold_right Z.add 0 l)%Z).
  { pose proof (sum_at_least l 0 Hpos). lia. }
  assert (N : fle (Fin 0) avg).
  { rewrite E. apply round_float_nonneg. apply Qle_shift_div_l; [exact Pn |].
    rewrite Qmult_0_l. rewrite <- (Zle_Qle 0). exact S0. }
  destruct l as [|x l]; [contradiction |]. unfold average_lines, int_truediv in H.
  destruct (Z.of_nat (length (x :: l)) =? 0)%Z; [discriminate |].
  destruct (round_float _) as [a| | |]; try discriminate. injection H as <-.
  exists a. split; [reflexivity |]. apply fle_Fin in N. cbn in Hz.
  destruct (Qeq_bool a 0) eqn:Q; [discriminate |].
  apply Qeq_bool_neq in Q. destruct (Qlt_le_dec 0 a) as [G|G]; [exact G |].
  exfalso. apply Q. lra.
Qed.

(** X7: against a non-zero average, an author with at least as many changed
    lines as every author of the cohort gets a quantity score of 80 or more,
    and one with at most as many gets 80 or less. *)
Theorem extreme_authors_around_80 (all_total_lines : list Z) (t : Z) (avg : pyfloat) :
  all_total_lines <> [] ->
  (forall x, In x all_total_lines -> (0 <= x)%Z) ->
  (0 <= t <= DBL_MAX)%Z ->
  average_lines all_total_lines = Ok avg ->
  is_zero avg = false ->
  exists s,
    calculate_quantity_score t avg = Ok (Fin (inject_Z s)) /\
    ((forall x, In x all_total_lines -> (x <= t)%Z) -> (80 <= s)%Z) /\
    ((forall x, In x all_total_lines -> (t <= x)%Z) -> (s <= 80)%Z).
Proof.
  intros Hl Hpos Ht Havg Hz.
  pose proof (length_pos _ Hl) as Pn.
  destruct (average_nonneg _ _ Hl Hpos Havg Hz) as (a & -> & Pa).
  pose proof (average_lines_Ok _ _ Hl Havg) as Ea.
  destruct (float_of_int_total t ltac:(unfold DBL_MAX in *; lia)) as [v Hv].
  pose proof (float_of_int_Ok _ _ Hv) as Ev.
  exists (Spec.tier_of (round_float (v / a))).
  split; [apply (calculate_quantity_score_eq t (Fin a) (Fin v));
          [apply is_zero_pos, Pa | exact Hv | apply (fdiv_pos (Fin v) a Pa)] |].
  assert (T1 : Spec.tier_of (round_float 1) = 80%Z) by (vm_compute; reflexivity).
  split; intros H; rewrite <- T1; apply tier_of_mono, round_float_mono.
  - assert (L : fle (Fin a) (Fin v)).
    { rewrite Ea, Ev. apply round_float_mono. apply Qle_shift_div_r; [exact Pn |].
      rewrite <- inject_Z_mult, <- Zle_Qle. pose proof (sum_at_most _ t H). lia. }
    apply fle_Fin in L. apply Qle_shift_div_l; [exact Pa | lra].
  - assert (L : fle (Fin v) (Fin a)).
    { rewrite Ea, Ev. apply round_float_mono. apply Qle_shift_div_l; [exact Pn |].
      rewrite <- inject_Z_mult, <- Zle_Qle. pose proof (sum_at_least _ t H). lia. }
    apply fle_Fin in L. apply Qle_shift_div_r; [exact Pa | lra].
Qed.

Lemma extreme_authors_around_80_witness :
  exists s,
    calculate_quantity_score 300 (Fin 150) = Ok (Fin (inject_Z s)) /\
    ((forall x, In x [300; 100; 50]%Z -> (x <= 300)%Z) -> (80 <= s)%Z) /\
    ((forall x, In x [300; 100; 50]%Z -> (300 <= x)%Z) -> (s <= 80)%Z).
Proof.
  apply (extreme_authors_around_80 [300; 100; 50]%Z 300%Z (Fin 150)).
  - discriminate.
  - intros x [<-|[<-|[<-|[]]]]; lia.
  - unfold DBL_MAX. lia.
  - vm_compute. reflexivity.
  - reflexivity.
Defined.

End CohortExtras.

(** ** The dictionary of commits, in insertion order *)

Section OrderedDictionary.
Context (rt : Runtime).

Lemma odict_append_keys key commit items :
  List.map fst (odict_append key commit items) =
  (List.map fst items ++
   if existsb (String.eqb key) (List.map fst items) then [] else [key])%list.
Proof.
  induction items as [|[k bucket] rest IH]; [reflexivity |].
  cbn [odict_append List.map fst existsb]. rewrite (String.eqb_sym key k).
  destruct (String.eqb k key); cbn [orb List.map fst app].
  - rewrite app_nil_r. reflexivity.
  - rewrite IH. reflexivity.
Qed.

Lemma odict_append_map key commit items :
  (list_to_map (odict_append key commit items) : gmap string (list Commit)) =
  <[key := (default [] ((list_to_map items : gmap string (list Commit)) !! key)
             ++ [commit])%list]> (list_to_map items).
Proof.
  induction items as [|[k bucket] rest IH]; [reflexivity |].
  cbn [odict_append]. destruct (String.eqb_spec k key) as [->|N].
  - rewrite !list_to_map_cons, lookup_insert_eq. cbn [from_option id].
    rewrite insert_insert_eq. reflexivity.
  - rewrite !list_to_map_cons, IH, lookup_insert_ne by exact N.
    apply insert_insert_ne. exact N.
Qed.

Lemma odict_append_entries key commit items :
  Permutation (concat (List.map snd (odict_append key commit items)))
              (commit :: concat (List.map snd items)).
Proof.
  induction items as [|[k bucket] rest IH]; [reflexivity |].
  cbn [odict_append]. destruct (String.eqb k key); cbn [List.map snd concat].
  - rewrite <- app_assoc. cbn [app].
    symmetry. apply Permutation_middle.
  - rewrite IH. symmetry. apply Permutation_middle.
Qed.

Lemma odict_append_nonempty key commit items :
  Forall (fun item => snd item <> []) items ->
  Forall (fun item => snd item <> []) (odict_append key commit items).
Proof.
  induction items as [|[k bucket] rest IH]; intros H; cbn [odict_append].
  - constructor; [discriminate | constructor].
  - inversion H as [|? ? H1 H2]; subst. destruct (String.eqb k key).
    + constructor; [| exact H2]. cbn. intros E. apply app_eq_nil in E as [_ E]. discriminate.
    + constructor; [exact H1 | apply IH, H2].
Qed.

Lemma collect_commit_item_eq authors items commit :
  collect_commit_item authors items commit =
  if Measure.matched authors commit
  then odict_append (author_name commit) commit items else items.
Proof.
  unfold collect_commit_item, Measure.matched.
  destruct (existsb _ authors) eqn:E.
  - apply find_is_Some_existsb in E as [x ->]. reflexivity.
  - destruct (List.find _ authors) eqn:F; [| reflexivity].
    assert (existsb (fun target => author_matches target (author_name commit)) authors = true)
      by (apply find_is_Some_existsb; eauto).
    congruence.
Qed.

Lemma first_occurrences_seen seen seen' names :
  (forall x, existsb (String.eqb x) seen = existsb (String.eqb x) seen') ->
  Measure.first_occurrences seen names = Measure.first_occurrences seen' names.
Proof.
  revert seen seen'. induction names as [|n names IH]; intros seen seen' H; [reflexivity |].
  cbn [Measure.first_occurrences]. rewrite (H n).
  destruct (existsb (String.eqb n) seen'); [apply IH, H |].
  f_equal. apply IH. intros x. cbn [existsb]. rewrite (H x). reflexivity.
Qed.

Lemma items_fold authors log : forall items,
  let items' := fold_left (collect_commit_item authors) log items in
  (list_to_map items' : gmap string (list Commit))
    = fold_left (collect_commit authors) log (list_to_map items) /\
  List.map fst items' =
    (List.map fst items ++
     Measure.first_occurrences (List.map fst items)
       (List.map author_name (List.filter (Measure.matched authors) log)))%list /\
  Permutation (concat (List.map snd items'))
    (concat (List.map snd items) ++ List.filter (Measure.matched authors) log) /\
  (Forall (fun item => snd item <> []) items ->
   Forall (fun item => snd item <> []) items').
Proof.
  induction log as [|c log IH]; intros items; cbv zeta.
  - cbn [fold_left List.filter List.map Measure.first_occurrences].
    rewrite !app_nil_r. auto.
  - cbn [fold_left List.filter]. rewrite collect_commit_item_eq, collect_commit_eq.
    fold (Measure.matched authors c).
    destruct (Measure.matched authors c) eqn:M; [| apply IH].
    destruct (IH (odict_append (author_name c) c items)) as (I1 & I2 & I3 & I4).
    split; [rewrite I1, odict_append_map; reflexivity |].
    split; [| split].
    + rewrite I2, odict_append_keys. cbn [List.map Measure.first_occurrences].
      destruct (existsb (String.eqb (author_name c)) (List.map fst items)) eqn:E.
      * rewrite app_nil_r. reflexivity.
      * rewrite <- app_assoc. cbn [app]. do 2 f_equal.
        apply first_occurrences_seen. intros x. rewrite existsb_app. cbn [existsb].
        rewrite orb_false_r. apply orb_comm.
    + rewrite I3, odict_append_entries. cbn [app].
      apply Permutation_middle.
    + intros H. apply I4, odict_append_nonempty, H.
Qed.

Lemma items_in_range repo authors start_date end_date since until_day :
  strptime_ymd rt start_date = Ok since ->
  strptime_ymd rt end_date = Ok until_day ->
  (0 <= until_day < MAXORDINAL)%Z ->
  commits_by_author_items rt (Some repo) authors start_date end_date
  = Ok (fold_left (collect_commit_item authors)
          (iter_commits repo since (until_day + 1)) []).
Proof.
  intros Hs He Hr. unfold commits_by_author_items. rewrite Hs. cbn [bind].
  rewrite He. cbn [bind]. rewrite (add_one_day_Ok _ Hr). reflexivity.
Qed.

Lemma first_occurrences_fresh seen names :
  NoDup (Measure.first_occurrences seen names) /\
  forall x, In x (Measure.first_occurrences seen names) ->
    existsb (String.eqb x) seen = false.
Proof.
  revert seen. induction names as [|n names IH]; intros seen;
    cbn [Measure.first_occurrences].
  - split; [constructor | intros x []].
  - destruct (existsb (String.eqb n) seen) eqn:E; [apply IH |].
    destruct (IH (n :: seen)) as [N F]. split.
    + constructor; [| exact N]. intros Hin. apply list_elem_of_In in Hin. apply F in Hin.
      cbn [existsb] in Hin. rewrite String.eqb_refl in Hin. discriminate.
    + intros x [<-|Hx]; [exact E |]. apply F in Hx. cbn [existsb] in Hx.
      apply orb_false_iff in Hx. tauto.
Qed.

(** X8: for dates that parse, the end date before the last day of the
    calendar, the dictionary of the commits, kept in insertion order, holds
    the same buckets as the mapping; its keys are the authors of the matched
    commits, each once, in the order of their first matched commit in the
    log; the buckets together hold every matched commit of the window once
    and nothing else, and no bucket is empty. *)
Theorem dictionary_in_insertion_order
    (repo : Repo) (authors : list string) (start_date end_date : string)
    (since until_day : Z) :
  strptime_ymd rt start_date = Ok since ->
  strptime_ymd rt end_date = Ok until_day ->
  (0 <= until_day < MAXORDINAL)%Z ->
  exists items by_author,
    commits_by_author_items rt (Some repo) authors start_date end_date = Ok items /\
    get_commits_by_author_and_time rt (Some repo) authors start_date end_date
      = Ok by_author /\
    let matched_log :=
      List.filter (Measure.matched authors) (iter_commits repo since (until_day + 1)) in
    list_to_map items = by_author /\
    NoDup (List.map fst items) /\
    List.map fst items = Measure.first_occurrences [] (List.map author_name matched_log) /\
    Permutation (concat (List.map snd items)) matched_log /\
    Forall (fun item => snd item <> []) items /\
    (items = [] <-> matched_log = []).
Proof.
  intros Hs He Hr. eexists. eexists.
  split; [apply (items_in_range _ _ _ _ _ _ Hs He Hr) |].
  split; [apply (get_commits_in_range _ _ _ _ _ _ _ Hs He Hr) |].
  cbv zeta.
  destruct (items_fold authors (iter_commits repo since (until_day + 1)) [])
    as (I1 & I2 & I3 & I4).
  cbn [List.map concat app] in I2, I3.
  split; [exact I1 |]. split; [rewrite I2; apply first_occurrences_fresh |].
  split; [exact I2 |]. split; [exact I3 |]. split; [apply I4; constructor |].
  split; intros E.
  - rewrite E in I3. cbn in I3. apply Permutation_nil in I3. exact I3.
  - rewrite E in I3. symmetry in I3. apply Permutation_nil in I3.
    destruct (fold_left _ _ _) as [|[k b] rest]; [reflexivity |].
    exfalso. assert (I5 := I4 ltac:(constructor)).
    inversion I5 as [|? ? H1 _]; subst.
    cbn in I3, H1. destruct b; [contradiction | discriminate].
Qed.

(** X9: a target name that is the empty string matches every author: with
    it among the targets, for dates that parse, the end date before the last
    day of the calendar, every commit of the window is grouped. *)
Theorem empty_target_selects_all
    (repo : Repo) (authors : list string) (start_date end_date : string)
    (since until_day : Z) :
  In EmptyString authors ->
  strptime_ymd rt start_date = Ok since ->
  strptime_ymd rt end_date = Ok until_day ->
  (0 <= until_day < MAXORDINAL)%Z ->
  exists by_author,
    get_commits_by_author_and_time rt (Some repo) authors start_date end_date
      = Ok by_author /\
    forall commit, In commit (iter_commits repo since (until_day + 1)) ->
      exists bucket, by_author !! author_name commit = Some bucket /\ In commit bucket.
Proof.
  intros Hin Hs He Hr. eexists.
  split; [apply (get_commits_in_range _ _ _ _ _ _ _ Hs He Hr) |].
  intros c Hc. rewrite collect_fold, lookup_empty.
  assert (B : In c (Spec.bucket_of authors (author_name c)
                      (iter_commits repo since (until_day + 1)))).
  { apply bucket_of_In. split; [exact Hc |]. split; [reflexivity |].
    exists EmptyString. split; [exact Hin |]. left. exists EmptyString, (author_name c).
    reflexivity. }
  destruct (Spec.bucket_of authors (author_name c) _) as [|b bs]; [destruct B |].
  eexists. split; [reflexivity | exact B].
Qed.

End OrderedDictionary.

Lemma dictionary_in_insertion_order_witness :
  exists items,
    commits_by_author_items Sample.plain_runtime (Some Sample.sample_repo)
      ["zhangbo0037"; "JohanLi233"]%string "2025-02-27" "2025-7-18" = Ok items /\
    List.map fst items = ["JohanLi233"; "zhangbo0037"]%string.
Proof.
  destruct (dictionary_in_insertion_order Sample.plain_runtime Sample.sample_repo
              ["zhangbo0037"; "JohanLi233"]%string "2025-02-27" "2025-7-18"
              739309 739450 eq_refl eq_refl ltac:(unfold MAXORDINAL; lia))
    as (items & by_author & H & _ & _ & _ & K & _).
  exists items. split; [exact H | exact K].
Defined.

Lemma empty_target_selects_all_witness :
  exists by_author,
    get_commits_by_author_and_time Sample.plain_runtime (Some Sample.sample_repo)
      [""]%string "2025-02-27" "2025-7-18" = Ok by_author /\
    forall commit, In commit (iter_commits Sample.sample_repo 739309 (739450 + 1)) ->
      exists bucket, by_author !! author_name commit = Some bucket /\ In commit bucket.
Proof.
  apply (empty_target_selects_all Sample.plain_runtime Sample.sample_repo [""]%string
           "2025-02-27" "2025-7-18" 739309 739450);
    [left; reflexivity | reflexivity | reflexivity | unfold MAXORDINAL; lia].
Defined.

(** ** The text handed to the detectors *)

Section TextRoundTrip.
Context (rt : Runtime).
Local Open Scope string_scope.

Lemma split_newline_nonempty s : split_newline s <> [].
Proof.
  destruct s as [|c s]; cbn [split_newline]; [discriminate |].
  destruct (Ascii.eqb c newline); [discriminate |].
  destruct (split_newline s); discriminate.
Qed.

Lemma split_newline_one_line s :
  Forall (fun line => Measure.one_line line = true) (split_newline s).
Proof.
  induction s as [|c s IH]; cbn [split_newline].
  - constructor; [reflexivity | constructor].
  - destruct (Ascii.eqb c newline) eqn:E.
    + constructor; [reflexivity | exact IH].
    + destruct (split_newline s) as [|line lines].
      * constructor; [| constructor]. cbn [Measure.one_line]. rewrite E. reflexivity.
      * inversion IH as [|? ? H1 H2]; subst. constructor; [| exact H2].
        cbn [Measure.one_line]. rewrite E, H1. reflexivity.
Qed.

Lemma split_one_line s : Measure.one_line s = true -> split_newline s = [s].
Proof.
  induction s as [|c s IH]; intros H; [reflexivity |].
  cbn [Measure.one_line] in H. apply andb_true_iff in H as [Hc Hs].
  cbn [split_newline]. apply negb_true_iff in Hc. rewrite Hc, (IH Hs). reflexivity.
Qed.

Lemma split_line_break line rest :
  Measure.one_line line = true ->
  split_newline (line ++ String newline rest) = line :: split_newline rest.
Proof.
  induction line as [|c line IH]; intros H.
  - change (EmptyString ++ String newline rest) with (String newline rest).
    cbn [split_newline]. rewrite Ascii.eqb_refl. reflexivity.
  - cbn [Measure.one_line] in H. apply andb_true_iff in H as [Hc Hs].
    change (String c line ++ String newline rest)
      with (String c (line ++ String newline rest)).
    cbn [split_newline]. apply negb_true_iff in Hc. rewrite Hc, (IH Hs). reflexivity.
Qed.

Lemma split_join lines :
  lines <> [] -> Forall (fun line => Measure.one_line line = true) lines ->
  split_newline (join_newline lines) = lines.
Proof.
  induction lines as [|line lines IH]; intros N H; [contradiction |].
  inversion H as [|? ? H1 H2]; subst.
  destruct lines as [|line' lines].
  - cbn [join_newline]. apply split_one_line, H1.
  - change (join_newline (line :: line' :: lines))
      with (line ++ String newline (join_newline (line' :: lines))).
    rewrite (split_line_break _ _ H1), IH; [reflexivity | discriminate | exact H2].
Qed.

Lemma one_line_slice s :
  Measure.one_line s = true -> Measure.one_line (slice_from_1 s) = true.
Proof.
  destruct s as [|c s]; [reflexivity |]. cbn [Measure.one_line slice_from_1].
  intros H. apply andb_true_iff in H. tauto.
Qed.

Lemma patch_lines_one_line items :
  Forall (fun line => Measure.one_line line = true) (patch_lines rt items).
Proof.
  unfold patch_lines. induction items as [|item items IH]; cbn [flat_map]; [constructor |].
  apply Forall_app. split; [| exact IH].
  destruct (diff item) as [bytes|]; [| constructor].
  destruct (String.eqb bytes EmptyString); [constructor | apply split_newline_one_line].
Qed.

Lemma diff_lines_one_line commit :
  Forall (fun line => Measure.one_line line = true) (diff_lines_of rt commit).
Proof.
  unfold diff_lines_of, get_commit_diff_content.
  destruct (read_diff commit) as [items|e]; cbn [bind try_except];
    [apply patch_lines_one_line | constructor].
Qed.

Lemma new_lines_one_line diff_lines :
  Forall (fun line => Measure.one_line line = true) diff_lines ->
  Forall (fun line => Measure.one_line line = true) (new_lines diff_lines).
Proof.
  unfold new_lines. induction diff_lines as [|l ls IH]; intros H; cbn [List.filter List.map];
    [constructor |].
  inversion H as [|? ? H1 H2]; subst.
  destruct (startswith l "+" && negb (startswith l "+++")); cbn [List.map].
  - constructor; [apply one_line_slice, H1 | apply IH, H2].
  - apply IH, H2.
Qed.

Lemma added_lines_one_line commits :
  Forall (fun line => Measure.one_line line = true) (Measure.added_lines rt commits).
Proof.
  unfold Measure.added_lines. induction commits as [|c commits IH]; cbn [flat_map];
    [constructor |].
  apply Forall_app. split; [| exact IH].
  apply new_lines_one_line, diff_lines_one_line.
Qed.

(** X10: when an author added at least one line, the text the pattern
    detectors search, split at its line breaks, is again the list of the
    collected lines: no collected line holds a line break, so the text has
    one line per added line, in the order of the commits. *)
Theorem detector_text_keeps_lines (commits : list Commit) :
  Measure.added_lines rt commits <> [] ->
  exists code,
    collect_code_lines rt commits [] = Ok code /\
    code = Measure.added_lines rt commits /\
    split_newline (join_newline code) = code.
Proof.
  intros N. exists (Measure.added_lines rt commits).
  split; [rewrite collect_code_lines_eq; reflexivity |].
  split; [reflexivity |].
  apply split_join; [exact N | apply added_lines_one_line].
Qed.

End TextRoundTrip.

Lemma detector_text_keeps_lines_witness :
  exists code,
    collect_code_lines Sample.plain_runtime
      [Sample.deleting_commit; Sample.root_commit] [] = Ok code /\
    code = ["return counter;"]%string /\
    split_newline (join_newline code) = code.
Proof.
  apply (detector_text_keeps_lines Sample.plain_runtime
           [Sample.deleting_commit; Sample.root_commit]).
  vm_compute. discriminate.
Defined.

(** ** Quantity metrics, continued *)

Section QuantityMore.
Local Open Scope Z_scope.

Lemma total_of_Permutation field l1 l2 :
  Permutation l1 l2 -> Spec.total_of field l1 = Spec.total_of field l2.
Proof.
  induction 1 as [|c l l' _ IH|c c' l|l l' l'' _ IH1 _ IH2];
    cbn [Spec.total_of fold_right]; [reflexivity | | | congruence].
  - fold (Spec.total_of field l) (Spec.total_of field l'). rewrite IH. reflexivity.
  - lia.
Qed.

(** X11: the quantity metrics of an author do not depend on the order in
    which the log yields the commits. *)
Theorem quantity_metrics_order_free (commits commits' : list Commit) :
  Permutation commits commits' ->
  analyze_commit_quantity commits = analyze_commit_quantity commits'.
Proof.
  intros P. unfold analyze_commit_quantity. rewrite !add_commit_stats_fold.
  rewrite (Permutation_length P), !(total_of_Permutation _ _ _ P). reflexivity.
Qed.

Lemma get_diff_stats_Ok commit :
  get_diff_stats commit =
  Ok (Spec.counted insertions commit, Spec.counted deletions commit,
      Spec.counted lines commit).
Proof.
  unfold get_diff_stats, Spec.counted.
  destruct (stats commit); reflexivity.
Qed.

(** X12: [get_diff_stats] returns for every commit, with three zeros when
    the stats cannot be read, and the insertions and deletions it reports,
    added up over the commits of an author, are the added and deleted lines
    of the quantity metrics. *)
Theorem diff_stats_add_up (commits : list Commit) :
  exists triples,
    Forall2 (fun commit triple => get_diff_stats commit = Ok triple) commits triples /\
    (forall commit triple, In commit commits -> Spec.raises (stats commit) ->
       get_diff_stats commit = Ok triple -> triple = (0, 0, 0)) /\
    analyze_commit_quantity commits !! "新增代码行数"%string
      = Some (fold_right Z.add 0 (List.map (fun t => fst (fst t)) triples)) /\
    analyze_commit_quantity commits !! "删除代码行数"%string
      = Some (fold_right Z.add 0 (List.map (fun t => snd (fst t)) triples)).
Proof.
  exists (List.map (fun c => (Spec.counted insertions c, Spec.counted deletions c,
                              Spec.counted lines c)) commits).
  split; [| split].
  - induction commits as [|c commits IH]; cbn [List.map]; constructor;
      [apply get_diff_stats_Ok | exact IH].
  - intros c t _ [e He] H. rewrite get_diff_stats_Ok in H. injection H as <-.
    unfold Spec.counted. rewrite He. reflexivity.
  - destruct (analyze_commit_quantity_lookup commits) as (_ & Hi & Hd & _).
    rewrite Hi, Hd, !List.map_map. cbn [fst snd]. clear Hi Hd.
    split; f_equal; unfold Spec.total_of;
      (induction commits as [|c commits IH]; cbn [fold_right List.map];
       [reflexivity | rewrite IH; reflexivity]).
Qed.

End QuantityMore.

Lemma quantity_metrics_order_free_witness :
  analyze_commit_quantity [Sample.root_commit; Sample.deleting_commit] =
  analyze_commit_quantity [Sample.deleting_commit; Sample.root_commit].
Proof.
  apply (quantity_metrics_order_free [Sample.root_commit; Sample.deleting_commit]
           [Sample.deleting_commit; Sample.root_commit]).
  apply perm_swap.
Defined.

(** ** The tallies of the detectors *)

Section TallyFacts.
Context (rt : Runtime).
Local Open Scope Z_scope.

Lemma sum_values_empty : sum_values ∅ = 0.
Proof. unfold sum_values. apply map_fold_empty. Qed.

Lemma sum_values_insert_fresh key v (m : gmap string Z) :
  m !! key = None -> sum_values (<[key := v]> m) = v + sum_values m.
Proof.
  intros H. unfold sum_values. apply map_fold_insert_L; [intros; lia | exact H].
Qed.

Lemma sum_values_dict_add key n (m : gmap string Z) :
  sum_values (dict_add key n m) = sum_values m + n.
Proof.
  unfold dict_add. destruct (m !! key) as [v|] eqn:E; cbn [from_option id].
  - rewrite <- insert_delete_eq.
    rewrite sum_values_insert_fresh by apply lookup_delete_eq.
    rewrite <- (insert_delete_id m key v E) at 2.
    rewrite sum_values_insert_fresh by apply lookup_delete_eq. lia.
  - rewrite sum_values_insert_fresh by exact E. lia.
Qed.

Lemma pattern_matches_app patterns patterns' text :
  Measure.pattern_matches rt (patterns ++ patterns') text =
  Measure.pattern_matches rt patterns text + Measure.pattern_matches rt patterns' text.
Proof.
  unfold Measure.pattern_matches.
  induction patterns as [|p ps IH]; cbn [app fold_right]; [reflexivity |].
  rewrite IH. lia.
Qed.

Lemma pattern_matches_nonneg patterns text :
  (forall pattern, 0 <= re_findall_count rt pattern text) ->
  0 <= Measure.pattern_matches rt patterns text.
Proof.
  intros H. unfold Measure.pattern_matches.
  induction patterns as [|p ps IH]; cbn [fold_right]; [lia |].
  specialize (H p). lia.
Qed.

(** The inner loop of [analyze_code_content] on one category. *)
Lemma category_fold_found key text patterns : forall (m : gmap string Z) v,
  m !! key = Some v ->
  fold_left (fun issues pattern => dict_add key (re_findall_count rt pattern text) issues)
    patterns m !! key = Some (v + Measure.pattern_matches rt patterns text).
Proof.
  induction patterns as [|p ps IH]; intros m v H; cbn [fold_left].
  - cbn. rewrite Z.add_0_r. exact H.
  - rewrite (IH _ (v + re_findall_count rt p text)).
    + cbn [Measure.pattern_matches fold_right]. f_equal.
      unfold Measure.pattern_matches. lia.
    + unfold dict_add. rewrite lookup_insert_eq, H. reflexivity.
Qed.

Lemma category_fold_first key text patterns (m : gmap string Z) :
  patterns <> [] ->
  fold_left (fun issues pattern => dict_add key (re_findall_count rt pattern text) issues)
    patterns m !! key
  = Some (default 0 (m !! key) + Measure.pattern_matches rt patterns text).
Proof.
  destruct patterns as [|p ps]; [contradiction | intros _]. cbn [fold_left].
  rewrite (category_fold_found _ _ _ _ (default 0 (m !! key) + re_findall_count rt p text)).
  - f_equal. unfold Measure.pattern_matches. cbn [fold_right]. lia.
  - unfold dict_add. apply lookup_insert_eq.
Qed.

Lemma category_fold_other key text patterns other : forall (m : gmap string Z),
  key <> other ->
  fold_left (fun issues pattern => dict_add key (re_findall_count rt pattern text) issues)
    patterns m !! other = m !! other.
Proof.
  induction patterns as [|p ps IH]; intros m N; cbn [fold_left]; [reflexivity |].
  rewrite IH by exact N. unfold dict_add. apply lookup_insert_ne, N.
Qed.

Lemma category_fold_sum key text patterns : forall (m : gmap string Z),
  sum_values
    (fold_left (fun issues pattern => dict_add key (re_findall_count rt pattern text) issues)
       patterns m)
  = sum_values m + Measure.pattern_matches rt patterns text.
Proof.
  induction patterns as [|p ps IH]; intros m; cbn [fold_left].
  - cbn. lia.
  - rewrite IH, sum_values_dict_add. unfold Measure.pattern_matches. cbn [fold_right]. lia.
Qed.

(** The outer loop of [analyze_code_content] on a table of categories. *)
Lemma table_fold_other text table : forall (m : gmap string Z) other,
  ~ In other (List.map fst table) ->
  fold_left
    (fun issues '(issue_type, patterns) =>
       fold_left
         (fun issues pattern =>
            dict_add issue_type (re_findall_count rt pattern text) issues)
         patterns issues)
    table m !! other = m !! other.
Proof.
  induction table as [|[k ps] table IH]; intros m other N; cbn [fold_left]; [reflexivity |].
  cbn [List.map fst In] in N.
  rewrite IH by tauto. apply category_fold_other. tauto.
Qed.

Lemma table_fold_found text table : forall (m : gmap string Z) key patterns,
  List.NoDup (List.map fst table) ->
  (forall k ps, In (k, ps) table -> ps <> [] /\ m !! k = None) ->
  In (key, patterns) table ->
  fold_left
    (fun issues '(issue_type, patterns) =>
       fold_left
         (fun issues pattern =>
            dict_add issue_type (re_findall_count rt pattern text) issues)
         patterns issues)
    table m !! key = Some (Measure.pattern_matches rt patterns text).
Proof.
  induction table as [|[k ps] table IH]; intros m key patterns D H Hin; [destruct Hin |].
  cbn [fold_left]. cbn [List.map fst] in D. inversion D as [|? ? D1 D2]; subst.
  destruct Hin as [E|Hin].
  - injection E as -> ->. rewrite table_fold_other by exact D1.
    destruct (H key patterns (or_introl eq_refl)) as [Hp Hm].
    rewrite category_fold_first by exact Hp. rewrite Hm. reflexivity.
  - apply IH; [exact D2 | | exact Hin].
    intros k' ps' Hin'. destruct (H k' ps' (or_intror Hin')) as [Hp Hm].
    split; [exact Hp |]. rewrite category_fold_other; [exact Hm |].
    intros ->. apply D1. apply List.in_map_iff. exists (k', ps'). split; [reflexivity | exact Hin'].
Qed.

Lemma table_fold_sum text table : forall (m : gmap string Z),
  sum_values
    (fold_left
       (fun issues '(issue_type, patterns) =>
          fold_left
            (fun issues pattern =>
               dict_add issue_type (re_findall_count rt pattern text) issues)
            patterns issues)
       table m)
  = sum_values m + Measure.pattern_matches rt (concat (List.map snd table)) text.
Proof.
  induction table as [|[k ps] table IH]; intros m; cbn [fold_left List.map snd concat].
  - cbn. lia.
  - rewrite IH, category_fold_sum, pattern_matches_app. lia.
Qed.

Lemma quality_patterns_keys :
  List.NoDup (List.map fst quality_patterns) /\
  forall k ps, In (k, ps) quality_patterns -> ps <> [].
Proof.
  split.
  - cbn [quality_patterns List.map fst].
    repeat (constructor; [cbn [In]; intros H; repeat destruct H as [H|H]; try discriminate H; exact H |]).
    constructor.
  - intros k ps H. cbn [quality_patterns In] in H.
    repeat (destruct H as [H|H]; [injection H as <- <-; discriminate |]). destruct H.
Qed.

Lemma analyze_code_content_sum (code_lines : list string) :
  sum_values (analyze_code_content rt code_lines) =
  Measure.pattern_matches rt (concat (List.map snd quality_patterns))
    (join_newline code_lines).
Proof.
  unfold analyze_code_content. rewrite table_fold_sum, sum_values_empty. lia.
Qed.

(** X13: the tally of the pattern detectors holds exactly the six
    categories of the pattern table, each with the number of matches of its
    patterns in the collected lines joined by line breaks, however many
    there are; the values add up to the matches of all the patterns. *)
Theorem pattern_tally_by_category (code_lines : list string) :
  let text := join_newline code_lines in
  let issues := analyze_code_content rt code_lines in
  (forall category patterns, In (category, patterns) quality_patterns ->
     issues !! category = Some (Measure.pattern_matches rt patterns text)) /\
  (forall key, ~ In key (List.map fst quality_patterns) -> issues !! key = None) /\
  sum_values issues =
    Measure.pattern_matches rt (concat (List.map snd quality_patterns)) text.
Proof.
  cbv zeta. destruct quality_patterns_keys as [D P].
  split; [| split].
  - intros category patterns Hin. unfold analyze_code_content.
    apply table_fold_found; [exact D | | exact Hin].
    intros k ps H. split; [exact (P k ps H) | apply lookup_empty].
  - intros key N. unfold analyze_code_content.
    rewrite table_fold_other by exact N. apply lookup_empty.
  - apply analyze_code_content_sum.
Qed.

End TallyFacts.

(** ** The measures of the syntax tree *)

Section TreeMeasures.
Context (rt : Runtime).
Local Open Scope Z_scope.

Lemma nesting_height_pos n : (1 <= nesting_height n)%nat.
Proof. destruct n. cbn [nesting_height]. lia. Qed.

Lemma list_max_step x l : list_max (x :: l) = Nat.max x (list_max l).
Proof. reflexivity. Qed.

(** The loop of [_calculate_nesting_depth] over the children, from any
    running maximum at least [depth]. *)
Lemma nesting_loop frames depth
    (IH : forall n d, _calculate_nesting_depth frames n d =
            if (nesting_height n <=? frames)%nat
            then Ok (d + Z.of_nat (nesting_height n) - 1) else Raise RecursionError)
    children : forall running,
  depth <= running ->
  fold_left
    (fun acc child =>
       let* max_depth := acc in
       if is_nesting (kind_of child) then
         let* child_depth := _calculate_nesting_depth frames child (depth + 1) in
         Ok (Z.max max_depth child_depth)
       else Ok max_depth)
    children (Ok running)
  = let deepest :=
      list_max (List.map
        (fun c => match kind_of c with
                  | For | While | If | Try => nesting_height c
                  | _ => O
                  end) children) in
    if (deepest <=? frames)%nat
    then Ok (Z.max running (depth + Z.of_nat deepest)) else Raise RecursionError.
Proof.
  induction children as [|c cs IHcs]; intros running Hr; cbv zeta.
  - cbn [fold_left List.map]. change (list_max []) with O.
    change (0 <=? frames)%nat with true. cbv iota. f_equal. lia.
  - cbn [fold_left List.map bind]. rewrite list_max_step. cbv zeta in IHcs.
    set (rest := list_max (List.map _ cs)) in *.
    destruct (is_nesting (kind_of c)) eqn:K.
    + assert (E : match kind_of c with
                  | For | While | If | Try => nesting_height c
                  | _ => O
                  end = nesting_height c)
        by (destruct (kind_of c); try discriminate K; reflexivity).
      rewrite E, IH.
      destruct (Nat.leb_spec (nesting_height c) frames) as [Hc|Hc]; cbn [bind].
      * rewrite IHcs by lia.
        destruct (Nat.leb_spec rest frames) as [Hl|Hl].
        -- destruct (Nat.leb_spec (Nat.max (nesting_height c) rest) frames); [| lia].
           f_equal. pose proof (nesting_height_pos c). lia.
        -- destruct (Nat.leb_spec (Nat.max (nesting_height c) rest) frames); [lia |].
           reflexivity.
      * destruct (Nat.leb_spec (Nat.max (nesting_height c) rest) frames); [lia |].
        clear. induction cs as [|c' cs IH']; [reflexivity | exact IH'].
    + assert (E : match kind_of c with
                  | For | While | If | Try => nesting_height c
                  | _ => O
                  end = O)
        by (destruct (kind_of c); try discriminate K; reflexivity).
      rewrite E, IHcs by exact Hr. cbn [Nat.max]. reflexivity.
Qed.

Lemma nesting_depth_eq (frames : nat) (n : node) (depth : Z) :
  _calculate_nesting_depth frames n depth =
  if (nesting_height n <=? frames)%nat
  then Ok (depth + Z.of_nat (nesting_height n) - 1)
  else Raise RecursionError.
Proof.
  revert n depth. induction frames as [|frames IH]; intros [k cs] depth.
  - reflexivity.
  - cbn [_calculate_nesting_depth iter_child_nodes nesting_height].
    rewrite (nesting_loop frames depth IH cs depth (Z.le_refl _)). cbv zeta.
    set (deepest := list_max _).
    change (S deepest <=? S frames)%nat with (deepest <=? frames)%nat.
    destruct (deepest <=? frames)%nat; [| reflexivity]. f_equal. lia.
Qed.

(** X14: started at [depth] with [frames] nested calls left, the depth
    computation returns [depth] plus the height of the nest of loops,
    conditionals and [try] statements under the node, less one, when that
    height fits in the frames, and runs out of frames otherwise; what it
    returns is at least [depth] and is returned with any larger number of
    frames as well. *)
Theorem nesting_depth_exact (frames : nat) (n : node) (depth : Z) :
  _calculate_nesting_depth frames n depth =
    (if (nesting_height n <=? frames)%nat
     then Ok (depth + Z.of_nat (nesting_height n) - 1)
     else Raise RecursionError) /\
  (forall d, _calculate_nesting_depth frames n depth = Ok d ->
     depth <= d /\
     forall frames', (frames <= frames')%nat ->
       _calculate_nesting_depth frames' n depth = Ok d).
Proof.
  split; [apply nesting_depth_eq |]. intros d H. rewrite nesting_depth_eq in H.
  destruct (Nat.leb_spec (nesting_height n) frames) as [L|L]; [| discriminate].
  injection H as <-. pose proof (nesting_height_pos n). split; [lia |].
  intros frames' F. rewrite nesting_depth_eq.
  destruct (Nat.leb_spec (nesting_height n) frames'); [reflexivity | lia].
Qed.

Lemma walk_queue_preorder steps : forall todo,
  (forest_count todo <= steps)%nat ->
  Permutation (walk_queue steps todo) (flat_map Measure.preorder todo).
Proof.
  induction steps as [|steps IH]; intros todo H.
  - destruct todo as [|n rest]; [constructor |].
    rewrite forest_count_cons, node_count_children in H. lia.
  - destruct todo as [|n rest]; [constructor |].
    rewrite forest_count_cons, node_count_children in H.
    cbn [walk_queue flat_map]. destruct n as [k cs]. cbn [Measure.preorder iter_child_nodes app].
    apply perm_skip. rewrite IH.
    + rewrite flat_map_app. apply Permutation_app_comm.
    + rewrite forest_count_app. cbn [iter_child_nodes] in H. lia.
Qed.

Lemma ast_walk_preorder tree : Permutation (ast_walk tree) (Measure.preorder tree).
Proof.
  unfold ast_walk. rewrite walk_queue_preorder.
  - cbn [flat_map]. rewrite app_nil_r. reflexivity.
  - rewrite forest_count_cons. unfold forest_count. cbn. lia.
Qed.

Lemma walk_queue_length steps : forall todo,
  (forest_count todo <= steps)%nat ->
  length (walk_queue steps todo) = forest_count todo.
Proof.
  induction steps as [|steps IH]; intros todo H.
  - destruct todo as [|n rest]; [reflexivity |].
    rewrite forest_count_cons, node_count_children in H. lia.
  - destruct todo as [|n rest]; [reflexivity |].
    cbn [walk_queue length]. rewrite forest_count_cons, node_count_children in *.
    rewrite IH; rewrite forest_count_app; lia.
Qed.

Lemma filter_length_Permutation {A} (p : A -> bool) l l' :
  Permutation l l' -> length (List.filter p l) = length (List.filter p l').
Proof.
  induction 1 as [|x l l' _ IH|x y l|l l' l'' _ IH1 _ IH2]; cbn [List.filter];
    [reflexivity | | | congruence].
  - destruct (p x); cbn [length]; rewrite IH; reflexivity.
  - destruct (p x), (p y); reflexivity.
Qed.

Lemma filter_length_le {A} (p : A -> bool) l :
  (length (List.filter p l) <= length l)%nat.
Proof.
  induction l as [|x l IH]; cbn [List.filter length]; [lia |].
  destruct (p x); cbn [length]; lia.
Qed.

Lemma count_fold {A} (p : A -> bool) l : forall a,
  fold_left (fun acc x => if p x then acc + 1 else acc) l a =
  a + Z.of_nat (length (List.filter p l)).
Proof.
  induction l as [|x l IH]; intros a; cbn [fold_left List.filter length]; [lia |].
  rewrite IH. destruct (p x); cbn [length]; lia.
Qed.

(** X15: the complexity of a node is one more than the number of
    conditionals, loops, [try] statements and handlers among the node and
    its descendants, each counted once; it is at least 1 and at most one
    more than the number of nodes. *)
Theorem complexity_counts_branching (n : node) :
  _calculate_complexity n = 1 + Measure.branching_nodes n /\
  1 <= _calculate_complexity n <= 1 + Z.of_nat (node_count n).
Proof.
  unfold _calculate_complexity, Measure.branching_nodes.
  rewrite (count_fold (fun c => is_branching (kind_of c))).
  pose proof (filter_length_le (fun c => is_branching (kind_of c)) (ast_walk n)) as L.
  assert (W : length (ast_walk n) = node_count n).
  { unfold ast_walk. rewrite walk_queue_length; rewrite forest_count_cons;
      unfold forest_count; cbn; lia. }
  rewrite (filter_length_Permutation _ _ _ (ast_walk_preorder n)) in *.
  split; [reflexivity | lia].
Qed.

End TreeMeasures.

(** ** The structural tally *)

Section SyntaxTally.
Context (rt : Runtime).
Local Open Scope string_scope.
Local Open Scope Z_scope.

Lemma tallied_default n : default 0 (Measure.tallied n) = n.
Proof.
  unfold Measure.tallied. destruct (Z.eqb_spec n 0) as [->|]; reflexivity.
Qed.

Lemma tallied_succ n : 0 <= n -> Some (n + 1) = Measure.tallied (n + 1).
Proof.
  intros H. unfold Measure.tallied. destruct (Z.eqb_spec (n + 1) 0); [lia | reflexivity].
Qed.

Lemma dict_add_tallied key (issues : gmap string Z) n :
  0 <= n -> issues !! key = Measure.tallied n ->
  dict_add key 1 issues !! key = Measure.tallied (n + 1).
Proof.
  intros Hn H. unfold dict_add. rewrite lookup_insert_eq, H, tallied_default.
  apply tallied_succ, Hn.
Qed.

(** The loop of [analyze_python_syntax] over nodes whose depth can be
    computed. *)
Lemma check_nodes_tally nodes : forall (issues : gmap string Z) a b,
  0 <= a -> 0 <= b ->
  issues !! "高复杂度函数" = Measure.tallied a ->
  issues !! "过深嵌套" = Measure.tallied b ->
  (forall key, key <> "高复杂度函数" -> key <> "过深嵌套" -> issues !! key = None) ->
  forallb
    (fun n => implb (is_loop_or_if (kind_of n))
                (nesting_height n <=? recursion_headroom rt)%nat) nodes = true ->
  exists issues' : gmap string Z,
    check_nodes rt nodes issues = (issues', None) /\
    issues' !! "高复杂度函数" =
      Measure.tallied (a + Z.of_nat (length (List.filter
        (fun n => match kind_of n with
                  | FunctionDef => 10 <? _calculate_complexity n
                  | _ => false
                  end) nodes))) /\
    issues' !! "过深嵌套" =
      Measure.tallied (b + Z.of_nat (length (List.filter
        (fun n => is_loop_or_if (kind_of n) && (4 <? nesting_height n)%nat) nodes))) /\
    (forall key, key <> "高复杂度函数" -> key <> "过深嵌套" -> issues' !! key = None).
Proof.
  induction nodes as [|n nodes IH]; intros issues a b Ha Hb H1 H2 H3 F.
  - exists issues. cbn [check_nodes List.filter length]. rewrite !Z.add_0_r. auto.
  - cbn [forallb] in F. apply andb_true_iff in F as [Fn F].
    cbn [check_nodes List.filter].
    set (p1 := match kind_of n with
               | FunctionDef => 10 <? _calculate_complexity n
               | _ => false
               end).
    set (p2 := is_loop_or_if (kind_of n) && (4 <? nesting_height n)%nat).
    set (issues1 := if p1 then dict_add "高复杂度函数" 1 issues else issues).
    set (issues2 := if p2 then dict_add "过深嵌套" 1 issues1 else issues1).
    assert (E : check_node rt n issues = (issues2, None)).
    { unfold check_node. fold p1.
      replace (match kind_of n with
               | FunctionDef =>
                   if 10 <? _calculate_complexity n
                   then dict_add "高复杂度函数" 1 issues else issues
               | _ => issues
               end) with issues1
        by (unfold issues1, p1; destruct (kind_of n); reflexivity).
      unfold issues2, p2. destruct (is_loop_or_if (kind_of n)); [| reflexivity].
      cbn [implb andb] in Fn |- *. rewrite nesting_depth_eq, Fn. f_equal.
      apply Nat.leb_le in Fn. pose proof (nesting_height_pos n).
      destruct (Nat.ltb_spec 4 (nesting_height n));
        destruct (Z.ltb_spec 3 (0 + Z.of_nat (nesting_height n) - 1)); try lia; reflexivity. }
    rewrite E.
    destruct (IH issues2 (a + (if p1 then 1 else 0)) (b + (if p2 then 1 else 0)))
      as (issues' & R & K1 & K2 & K3); [destruct p1; lia | destruct p2; lia | | | | exact F |].
    + unfold issues2. destruct p2.
      * rewrite dict_add_other by discriminate. unfold issues1.
        destruct p1; [apply dict_add_tallied; assumption | rewrite Z.add_0_r; exact H1].
      * unfold issues1.
        destruct p1; [apply dict_add_tallied; assumption | rewrite Z.add_0_r; exact H1].
    + assert (H2' : issues1 !! "过深嵌套" = Measure.tallied b).
      { unfold issues1. destruct p1; [rewrite dict_add_other by discriminate |]; exact H2. }
      unfold issues2. destruct p2; [apply dict_add_tallied; assumption |
                                    rewrite Z.add_0_r; exact H2'].
    + intros key N1 N2. unfold issues2, issues1.
      destruct p2, p1; repeat (rewrite dict_add_other by congruence); apply H3; assumption.
    + exists issues'. split; [exact R |].
      split; [rewrite K1 | split; [rewrite K2 | exact K3]]; f_equal;
        [destruct p1 | destruct p2]; cbn [length]; lia.
Qed.

(** X16: when the text parses and the depth of every loop and conditional
    of its tree can be computed under the recursion limit, the structural
    tally holds the number of functions of complexity above 10 under
    "高复杂度函数" and the number of loops and conditionals nested deeper
    than 3 under "过深嵌套", a key being absent when its number is zero, and
    nothing else. *)
Theorem syntax_tally_counts (code_content : string) (tree : node) :
  ast_parse rt code_content = Ok tree ->
  Measure.measurable (recursion_headroom rt) tree = true ->
  let issues := analyze_python_syntax rt code_content in
  issues !! "高复杂度函数" = Measure.tallied (Measure.complex_functions tree) /\
  issues !! "过深嵌套" = Measure.tallied (Measure.deep_nests tree) /\
  (forall key, key <> "高复杂度函数" -> key <> "过深嵌套" -> issues !! key = None).
Proof.
  intros P M. cbv zeta. unfold analyze_python_syntax, run_try_block. rewrite P.
  assert (F : forallb
    (fun n => implb (is_loop_or_if (kind_of n))
                (nesting_height n <=? recursion_headroom rt)%nat) (ast_walk tree) = true).
  { apply forallb_forall. intros n Hin.
    unfold Measure.measurable in M. rewrite forallb_forall in M. apply M.
    apply (Permutation_in _ (ast_walk_preorder tree)), Hin. }
  destruct (check_nodes_tally (ast_walk tree) ∅ 0 0) as (issues' & R & K1 & K2 & K3);
    [lia | lia | reflexivity | reflexivity | intros; apply lookup_empty | exact F |].
  rewrite R. unfold Measure.complex_functions, Measure.deep_nests.
  rewrite <- !(filter_length_Permutation _ _ _ (ast_walk_preorder tree)).
  rewrite !Z.add_0_l in K1, K2. auto.
Qed.

Lemma check_nodes_sum nodes : forall (issues : gmap string Z),
  sum_values issues <= sum_values (fst (check_nodes rt nodes issues)).
Proof.
  induction nodes as [|n nodes IH]; intros issues; cbn [check_nodes fst]; [lia |].
  assert (E : sum_values issues <= sum_values (fst (check_node rt n issues))).
  { unfold check_node.
    set (issues1 := match kind_of n with
                    | FunctionDef =>
                        if 10 <? _calculate_complexity n
                        then dict_add "高复杂度函数" 1 issues else issues
                    | _ => issues
                    end).
    assert (E1 : sum_values issues <= sum_values issues1).
    { unfold issues1. destruct (kind_of n); try lia.
      destruct (10 <? _calculate_complexity n); [rewrite sum_values_dict_add |]; lia. }
    destruct (is_loop_or_if (kind_of n)); [| exact E1].
    destruct (_calculate_nesting_depth _ n 0) as [d|e]; cbn [fst]; [| exact E1].
    destruct (3 <? d); [rewrite sum_values_dict_add |]; lia. }
  destruct (check_node rt n issues) as [issues1 [e|]]; cbn [fst] in E |- *; [exact E |].
  specialize (IH issues1). lia.
Qed.

Lemma syntax_tally_nonneg code_content :
  0 <= sum_values (analyze_python_syntax rt code_content).
Proof.
  unfold analyze_python_syntax.
  assert (E : 0 <= sum_values (fst (run_try_block rt code_content))).
  { unfold run_try_block. destruct (ast_parse rt code_content) as [tree|e]; cbn [fst].
    - pose proof (check_nodes_sum (ast_walk tree) ∅) as S.
      rewrite sum_values_empty in S. exact S.
    - rewrite sum_values_empty. lia. }
  destruct (run_try_block rt code_content) as [issues [e|]]; cbn [fst] in E; [| exact E].
  destruct e; try exact E. rewrite sum_values_dict_add. lia.
Qed.

Lemma issue_count_nonneg_all (all_code_lines : list string) :
  (forall pattern text, 0 <= re_findall_count rt pattern text) ->
  0 <= count_issues rt all_code_lines.
Proof.
  intros H. unfold count_issues. destruct all_code_lines as [|l ls]; [lia |].
  cbv zeta. rewrite analyze_code_content_sum.
  pose proof (pattern_matches_nonneg rt (concat (List.map snd quality_patterns))
                (join_newline (l :: ls)) (fun p => H p _)) as N.
  pose proof (syntax_tally_nonneg
                (join_newline (List.filter looks_like_python (l :: ls)))) as T.
  destruct (String.eqb _ EmptyString); lia.
Qed.

End SyntaxTally.

Lemma syntax_tally_counts_witness :
  let issues := analyze_python_syntax Fixture.busy_runtime Fixture.busy_source in
  issues !! "高复杂度函数"%string = Some 1%Z /\
  issues !! "过深嵌套"%string = Some 1%Z /\
  (forall key, key <> "高复杂度函数"%string -> key <> "过深嵌套"%string ->
     issues !! key = None).
Proof.
  apply (syntax_tally_counts Fixture.busy_runtime Fixture.busy_source Fixture.busy_module);
    reflexivity.
Defined.

(** ** The record of an author *)

Section AuthorRecord.
Context (rt : Runtime).
Local Open Scope string_scope.
Local Open Scope Z_scope.

Lemma metric_lookup (r1 r2 r3 : pyfloat) :
  let d := <["千行代码问题数" := r1]>
          (<["千行代码问题率" := r2]>
          (<["质量分数" := r3]> (∅ : gmap string pyfloat))) in
  metric d "千行代码问题数" = r1 /\
  metric d "千行代码问题率" = r2 /\
  metric d "质量分数" = r3.
Proof.
  cbv zeta. destruct (metrics_lookup r1 r2 r3) as (H1 & H2 & H3). cbv zeta in H1, H2, H3.
  unfold metric. rewrite H1, H2, H3. auto.
Qed.

Lemma total_lines_nonneg commits :
  Spec.stats_are_counts commits ->
  0 <= Spec.total_of insertions commits + Spec.total_of deletions commits.
Proof.
  intros H.
  assert (0 <= Spec.total_of insertions commits)
    by (apply total_of_nonneg; intros c st Hc Hs; apply (H c st Hc Hs)).
  assert (0 <= Spec.total_of deletions commits)
    by (apply total_of_nonneg; intros c st Hc Hs; apply (H c st Hc Hs)).
  lia.
Qed.

(** The record [_analyze_author_code] builds, by its quality figures. *)
Lemma author_record_eq author commits metrics :
  calculate_quality_metrics
    (count_issues rt (Measure.added_lines rt commits))
    (Spec.total_of insertions commits + Spec.total_of deletions commits) = Ok metrics ->
  _analyze_author_code rt author commits =
  Ok {| contributor := author;
        commit_count := Z.of_nat (length commits);
        total_changed_lines :=
          Spec.total_of insertions commits + Spec.total_of deletions commits;
        total_issue_count := count_issues rt (Measure.added_lines rt commits);
        issues_per_kloc := metric metrics "千行代码问题数";
        issue_rate_per_kloc := metric metrics "千行代码问题率";
        quality_score := metric metrics "质量分数";
        quantity_score := Fin 0;
        final_score := Fin 0 |}.
Proof.
  intros H. unfold _analyze_author_code. cbv zeta.
  rewrite collect_code_lines_eq. cbn [bind app].
  destruct (analyze_commit_quantity_lookup commits) as (Hn & _ & _ & _ & _ & Ht & _).
  cbv zeta in Hn, Ht. rewrite Hn, Ht. cbn [from_option id].
  fold (Measure.added_lines rt commits). rewrite H. reflexivity.
Qed.

Lemma author_record author commits :
  Spec.stats_are_counts commits ->
  (forall pattern text, 0 <= re_findall_count rt pattern text) ->
  count_issues rt (Measure.added_lines rt commits) <= DBL_MAX ->
  exists (q : Q) (r : pyfloat),
    _analyze_author_code rt author commits =
    Ok {| contributor := author;
          commit_count := Z.of_nat (length commits);
          total_changed_lines :=
            Spec.total_of insertions commits + Spec.total_of deletions commits;
          total_issue_count := count_issues rt (Measure.added_lines rt commits);
          issues_per_kloc := r;
          issue_rate_per_kloc := r;
          quality_score := Fin q;
          quantity_score := Fin 0;
          final_score := Fin 0 |} /\
    (0 <= q)%Q /\ (q <= 100)%Q.
Proof.
  intros Hs Hre Hb.
  pose proof (total_lines_nonneg commits Hs) as Ht.
  pose proof (issue_count_nonneg_all rt (Measure.added_lines rt commits) Hre) as Hi.
  set (total := Spec.total_of insertions commits + Spec.total_of deletions commits) in *.
  set (issues := count_issues rt (Measure.added_lines rt commits)) in *.
  destruct (Z.eq_dec total 0) as [E|N].
  - exists 100%Q, (Fin 0).
    rewrite (author_record_eq author commits _
               ltac:(fold total; rewrite E; apply calculate_quality_metrics_zero)).
    destruct (metric_lookup (Fin 0) (Fin 0) (Fin 100)) as (-> & -> & ->).
    fold total issues. split; [reflexivity |]. split; [discriminate | apply Qle_refl].
  - destruct (quality_pipeline issues total Hi ltac:(lia)
                ltac:(assert (0 <= DBL_MAX) by (vm_compute; discriminate); nia))
      as (q & r & s & _ & _ & _ & _ & S0 & S1 & M).
    exists s, r. rewrite (author_record_eq author commits _ M).
    destruct (metric_lookup r r (Fin s)) as (-> & -> & ->).
    fold total issues. auto.
Qed.

End AuthorRecord.

(** ** What the detectors are given *)

Section DetectorInput.
Context (rt : Runtime).
Local Open Scope string_scope.
Local Open Scope Z_scope.

(** C10: the lines collected for the issue detector are exactly the lines
    of the diffs of the commits that are marked '+' and do not begin with
    '+++', each with its leading '+' removed; the text the patterns are
    searched in has these lines as its lines, so a pattern anchored at a
    line start meets the first character after the mark; every category of
    the table holds the matches of its patterns in that text, and the issue
    count of the record is the number of matches of all the patterns in it
    plus the structural tally of the lines that look like Python. *)
Theorem detector_reads_unmarked_lines (commits : list Commit) :
  exists all_code_lines,
    collect_code_lines rt commits [] = Ok all_code_lines /\
    (forall line,
       In line all_code_lines <->
       exists commit diff_lines,
         In commit commits /\
         get_commit_diff_content rt commit = Ok diff_lines /\
         In ("+" ++ line) diff_lines /\
         startswith ("+" ++ line) "+++" = false) /\
    (all_code_lines <> [] ->
     split_newline (join_newline all_code_lines) = all_code_lines) /\
    (forall category patterns, In (category, patterns) quality_patterns ->
       analyze_code_content rt all_code_lines !! category
       = Some (Measure.pattern_matches rt patterns (join_newline all_code_lines))) /\
    let total_issues :=
      match all_code_lines with
      | [] => 0
      | _ :: _ =>
          Measure.pattern_matches rt (concat (List.map snd quality_patterns))
            (join_newline all_code_lines)
          + (let python_code :=
               join_newline (List.filter looks_like_python all_code_lines) in
             if String.eqb python_code "" then 0
             else sum_values (analyze_python_syntax rt python_code))
      end in
    count_issues rt all_code_lines = total_issues /\
    forall author,
      _analyze_author_code rt author commits =
      let total_lines :=
        Spec.total_of insertions commits + Spec.total_of deletions commits in
      let* quality_metrics := calculate_quality_metrics total_issues total_lines in
      Ok {| contributor := author;
            commit_count := Z.of_nat (length commits);
            total_changed_lines := total_lines;
            total_issue_count := total_issues;
            issues_per_kloc := metric quality_metrics "千行代码问题数";
            issue_rate_per_kloc := metric quality_metrics "千行代码问题率";
            quality_score := metric quality_metrics "质量分数";
            quantity_score := Fin 0;
            final_score := Fin 0 |}.
Proof.
  exists (Measure.added_lines rt commits).
  split; [rewrite collect_code_lines_eq; reflexivity |].
  split; [| split; [| split]].
  - intros line. unfold Measure.added_lines. rewrite in_flat_map. split.
    + intros (c & Hc & Hl). apply new_lines_In in Hl.
      exists c, (diff_lines_of rt c). split; [exact Hc |].
      split; [apply get_commit_diff_content_Ok | exact Hl].
    + intros (c & ds & Hc & Hd & Hl). exists c. split; [exact Hc |].
      rewrite get_commit_diff_content_Ok in Hd. injection Hd as <-.
      apply new_lines_In, Hl.
  - intros Hne. apply split_join; [exact Hne | apply added_lines_one_line].
  - intros category patterns Hin. destruct quality_patterns_keys as [D P].
    unfold analyze_code_content. apply table_fold_found; [exact D | | exact Hin].
    intros k ps H. split; [exact (P k ps H) | apply lookup_empty].
  - cbv zeta.
    assert (E : count_issues rt (Measure.added_lines rt commits) =
      match Measure.added_lines rt commits with
      | [] => 0
      | _ :: _ =>
          Measure.pattern_matches rt (concat (List.map snd quality_patterns))
            (join_newline (Measure.added_lines rt commits))
          + (if String.eqb
                  (join_newline
                     (List.filter looks_like_python (Measure.added_lines rt commits))) ""
             then 0
             else sum_values
                    (analyze_python_syntax rt
                       (join_newline
                          (List.filter looks_like_python
                             (Measure.added_lines rt commits)))))
      end).
    { unfold count_issues. destruct (Measure.added_lines rt commits) as [|l ls];
        [reflexivity |].
      cbv zeta. rewrite analyze_code_content_sum.
      destruct (String.eqb _ ""); [rewrite Z.add_0_r |]; reflexivity. }
    split; [exact E |]. intros author. rewrite <- E.
    unfold _analyze_author_code. cbv zeta.
    rewrite collect_code_lines_eq. cbn [bind app].
    destruct (analyze_commit_quantity_lookup commits) as (Hn & _ & _ & _ & _ & Ht & _).
    cbv zeta in Hn, Ht. rewrite Hn, Ht. cbn [from_option id]. reflexivity.
Qed.

End DetectorInput.

Lemma detector_reads_unmarked_lines_witness :
  exists all_code_lines,
    collect_code_lines Fixture.busy_runtime [Sample.root_commit] [] = Ok all_code_lines /\
    all_code_lines = ["return counter;"]%string /\
    count_issues Fixture.busy_runtime all_code_lines = 2%Z.
Proof.
  destruct (detector_reads_unmarked_lines Fixture.busy_runtime [Sample.root_commit])
    as (all_code_lines & H1 & _ & _ & _ & H5 & _).
  exists all_code_lines. split; [exact H1 |].
  assert (E : all_code_lines = ["return counter;"]%string)
    by (vm_compute in H1; injection H1 as <-; reflexivity).
  split; [exact E |]. rewrite H5, E. reflexivity.
Defined.

Section AuthorRecordExtras.
Context (rt : Runtime).
Local Open Scope string_scope.
Local Open Scope Z_scope.

(** X17: when the stats are counts and no pattern has a negative number of
    matches, [_analyze_author_code] returns a record: it names the author,
    counts the commits, holds the added plus the deleted lines of the
    readable stats and the issues of the added lines, none of them
    negative, the same figure for both densities, a quality score in
    [0, 100] and 0 for the two scores that are set later. *)
Theorem author_record_fields (author : string) (commits : list Commit) :
  Spec.stats_are_counts commits ->
  (forall pattern text, 0 <= re_findall_count rt pattern text) ->
  count_issues rt (Measure.added_lines rt commits) <= DBL_MAX ->
  exists record,
    _analyze_author_code rt author commits = Ok record /\
    contributor record = author /\
    commit_count record = Z.of_nat (length commits) /\
    total_changed_lines record =
      Spec.total_of insertions commits + Spec.total_of deletions commits /\
    0 <= total_changed_lines record /\
    total_issue_count record = count_issues rt (Measure.added_lines rt commits) /\
    0 <= total_issue_count record /\
    issues_per_kloc record = issue_rate_per_kloc record /\
    fle (Fin 0) (quality_score record) /\ fle (quality_score record) (Fin 100) /\
    quantity_score record = Fin 0 /\ final_score record = Fin 0.
Proof.
  intros Hs Hre Hb.
  destruct (author_record rt author commits Hs Hre Hb) as (q & r & E & Q0 & Q1).
  eexists. split; [exact E |]. cbn [contributor commit_count total_changed_lines
    total_issue_count issues_per_kloc issue_rate_per_kloc quality_score quantity_score
    final_score].
  split; [reflexivity |]. split; [reflexivity |]. split; [reflexivity |].
  split; [apply total_lines_nonneg, Hs |]. split; [reflexivity |].
  split; [apply issue_count_nonneg_all, Hre |]. split; [reflexivity |].
  split; [apply fle_Fin, Q0 |]. split; [apply fle_Fin, Q1 |]. split; reflexivity.
Qed.

(** X18: an author whose readable stats count no added and no deleted line
    gets the quality score 100 and both densities 0, whatever the number of
    issues found in the lines of the diffs. *)
Theorem uncounted_lines_full_quality (author : string) (commits : list Commit) :
  Spec.total_of insertions commits + Spec.total_of deletions commits = 0 ->
  exists record,
    _analyze_author_code rt author commits = Ok record /\
    total_changed_lines record = 0 /\
    total_issue_count record = count_issues rt (Measure.added_lines rt commits) /\
    issues_per_kloc record = Fin 0 /\
    issue_rate_per_kloc record = Fin 0 /\
    quality_score record = Fin 100.
Proof.
  intros E. eexists.
  split; [apply author_record_eq; rewrite E; apply calculate_quality_metrics_zero |].
  cbn [total_changed_lines total_issue_count issues_per_kloc issue_rate_per_kloc
       quality_score].
  destruct (metric_lookup (Fin 0) (Fin 0) (Fin 100)) as (-> & -> & ->). auto.
Qed.

End AuthorRecordExtras.

Lemma author_record_fields_witness :
  exists record,
    _analyze_author_code Sample.plain_runtime "zhangbo0037"
      [Sample.deleting_commit; Sample.root_commit] = Ok record /\
    contributor record = "zhangbo0037"%string /\
    commit_count record = 2%Z /\
    total_changed_lines record = 7%Z /\
    (0 <= total_changed_lines record)%Z /\
    total_issue_count record = 0%Z /\
    (0 <= total_issue_count record)%Z /\
    issues_per_kloc record = issue_rate_per_kloc record /\
    fle (Fin 0) (quality_score record) /\ fle (quality_score record) (Fin 100) /\
    quantity_score record = Fin 0 /\ final_score record = Fin 0.
Proof.
  apply (author_record_fields Sample.plain_runtime "zhangbo0037"
           [Sample.deleting_commit; Sample.root_commit]).
  - intros commit st [<-|[<-|[]]] H; injection H as <-; cbn; lia.
  - intros pattern text. cbn. lia.
  - vm_compute. discriminate.
Defined.

Lemma uncounted_lines_full_quality_witness :
  exists record,
    _analyze_author_code Fixture.busy_runtime "zhangbo0037" [Fixture.statless_commit]
      = Ok record /\
    total_changed_lines record = 0%Z /\
    total_issue_count record = 2%Z /\
    issues_per_kloc record = Fin 0 /\
    issue_rate_per_kloc record = Fin 0 /\
    quality_score record = Fin 100.
Proof.
  apply (uncounted_lines_full_quality Fixture.busy_runtime "zhangbo0037"
           [Fixture.statless_commit]).
  reflexivity.
Defined.

(** ** The main loop *)

Section PipelineFacts.
Context (host : Host) (rt : Runtime).
Local Open Scope string_scope.
Local Open Scope Z_scope.

Lemma initialize_repo_None local_path :
  path_exists host local_path = false \/
  path_exists host (path_join host local_path ".git") = false \/
  Spec.raises (git_Repo host local_path) ->
  initialize_repo host local_path = None.
Proof.
  unfold initialize_repo. intros [H|[H|[e H]]].
  - rewrite H. reflexivity.
  - rewrite H. destruct (path_exists host local_path); reflexivity.
  - rewrite H. destruct (path_exists host local_path); [| reflexivity].
    destruct (path_exists host (path_join host local_path ".git")); reflexivity.
Qed.

Lemma initialize_repo_Some local_path repo :
  initialize_repo host local_path = Some repo <->
  path_exists host local_path = true /\
  path_exists host (path_join host local_path ".git") = true /\
  git_Repo host local_path = Ok repo.
Proof.
  unfold initialize_repo.
  destruct (path_exists host local_path); cbn [negb try_except];
    [| split; [discriminate | intros [H _]; discriminate H]].
  destruct (path_exists host (path_join host local_path ".git")); cbn [negb try_except];
    [| split; [discriminate | intros (_ & H & _); discriminate H]].
  destruct (git_Repo host local_path) as [r|e]; cbn [bind try_except].
  - split; [intros H; injection H as ->; auto | intros (_ & _ & H); injection H as ->; reflexivity].
  - split; [discriminate | intros (_ & _ & H); discriminate H].
Qed.

Lemma get_current_branch_returns repo :
  exists branch, get_current_branch host repo = Ok branch.
Proof.
  destruct repo as [repo|]; [| eexists; reflexivity].
  unfold get_current_branch.
  destruct (active_branch_name host repo) as [name|e]; cbn [try_except];
    [eexists; reflexivity |].
  destruct (head_commit_hexsha host repo) as [sha|e']; cbn [bind try_except];
    eexists; reflexivity.
Qed.

Lemma items_empty_iff authors log :
  fold_left (collect_commit_item authors) log [] = [] <->
  List.filter (Measure.matched authors) log = [].
Proof.
  destruct (items_fold authors log []) as (_ & _ & I3 & I4). cbv zeta in I3, I4.
  cbn [List.map concat app] in I3.
  split; intros E.
  - rewrite E in I3. cbn in I3. apply Permutation_nil in I3. exact I3.
  - rewrite E in I3. symmetry in I3. apply Permutation_nil in I3.
    destruct (fold_left _ _ _) as [|[k b] rest]; [reflexivity |].
    exfalso. assert (I5 := I4 ltac:(constructor)).
    inversion I5 as [|? ? H1 _]; subst.
    cbn in I3, H1. destruct b; [contradiction | discriminate].
Qed.

(** X19: when the path does not exist, holds no [.git] or cannot be opened
    as a repository, no repository is set and the analysis returns the
    text of the failed initialisation, before any date is parsed. *)
Theorem unusable_path_report
    (local_path : string) (authors : list string) (start_date end_date : string) :
  path_exists host local_path = false \/
  path_exists host (path_join host local_path ".git") = false \/
  Spec.raises (git_Repo host local_path) ->
  initialize_repo host local_path = None /\
  run_analysis host rt local_path authors start_date end_date
    = Ok "❌ 仓库初始化失败，请检查本地路径".
Proof.
  intros H. pose proof (initialize_repo_None local_path H) as E.
  split; [exact E |]. unfold run_analysis. rewrite E. reflexivity.
Qed.

(** X20: on a repository that opens, with dates that parse, the end date
    before the last day of the calendar, the analysis returns the text of
    the missing commits when no commit of the window has an author that
    matches a target, whether or not the branch name can be read. *)
Theorem no_matching_commit_report
    (local_path : string) (repo : Repo) (authors : list string)
    (start_date end_date : string) (since until_day : Z) :
  initialize_repo host local_path = Some repo ->
  strptime_ymd rt start_date = Ok since ->
  strptime_ymd rt end_date = Ok until_day ->
  (0 <= until_day < MAXORDINAL)%Z ->
  List.filter (Measure.matched authors) (iter_commits repo since (until_day + 1)) = [] ->
  run_analysis host rt local_path authors start_date end_date
    = Ok "❌ 未找到指定时间段内目标作者的提交记录".
Proof.
  intros Hi Hs He Hr Hm. unfold run_analysis. rewrite Hi.
  destruct (get_current_branch_returns (Some repo)) as [branch ->]. cbn [bind].
  rewrite (items_in_range rt _ _ _ _ _ _ Hs He Hr). cbn [bind].
  rewrite (proj2 (items_empty_iff authors _) Hm). reflexivity.
Qed.

End PipelineFacts.

Lemma unusable_path_report_witness :
  initialize_repo Fixture.plain_host "/srv/scanner/src" = None /\
  run_analysis Fixture.plain_host Sample.plain_runtime "/srv/scanner/src"
    ["zhangbo0037"]%string "27.02.2025" "18.07.2025"
    = Ok "❌ 仓库初始化失败，请检查本地路径"%string.
Proof.
  apply (unusable_path_report Fixture.plain_host Sample.plain_runtime "/srv/scanner/src").
  left. reflexivity.
Defined.

Lemma no_matching_commit_report_witness :
  run_analysis Fixture.plain_host Sample.plain_runtime "/srv/scanner"
    ["someone else"]%string "2025-02-27" "2025-7-18"
    = Ok "❌ 未找到指定时间段内目标作者的提交记录"%string.
Proof.
  apply (no_matching_commit_report Fixture.plain_host Sample.plain_runtime "/srv/scanner"
           Sample.sample_repo ["someone else"]%string "2025-02-27" "2025-7-18"
           739309 739450);
    [reflexivity | reflexivity | reflexivity | unfold MAXORDINAL; lia | reflexivity].
Defined.

(** ** The scored report *)

Section ScoredReport.
Context (host : Host) (rt : Runtime).
Local Open Scope string_scope.
Local Open Scope Z_scope.

Lemma analyze_authors_Ok items :
  (forall pattern text, 0 <= re_findall_count rt pattern text) ->
  Forall
    (fun item =>
       Spec.stats_are_counts (snd item) /\
       count_issues rt (Measure.added_lines rt (snd item)) <= DBL_MAX)
    items ->
  exists records,
    analyze_authors rt items = Ok records /\
    Forall2
      (fun item record =>
         contributor record = fst item /\
         commit_count record = Z.of_nat (length (snd item)) /\
         total_changed_lines record = (Spec.total_of insertions (snd item) + Spec.total_of deletions (snd item)) /\
         exists q, quality_score record = Fin q /\ (0 <= q)%Q /\ (q <= 100)%Q)
      items records.
Proof.
  intros Hre. induction items as [|[author commits] items IH]; intros H.
  - exists []. split; [reflexivity | constructor].
  - inversion H as [|? ? [H1 Hb] H2]; subst. cbn [snd] in H1, Hb.
    destruct (IH H2) as (records & E & F).
    destruct (author_record rt author commits H1 Hre Hb) as (q & r & A & Q0 & Q1).
    eexists. cbn [analyze_authors]. rewrite A. cbn [bind]. rewrite E. cbn [bind].
    split; [reflexivity |]. constructor; [| exact F].
    cbn [contributor commit_count total_changed_lines quality_score fst snd].
    split; [reflexivity |]. split; [reflexivity |]. split; [reflexivity |].
    exists q. auto.
Qed.

Lemma tier_range s :
  In s [100; 90; 80; 70; 60; 50; 40; 30] ->
  (30 <= inject_Z s)%Q /\ (inject_Z s <= 100)%Q.
Proof.
  intros H.
  assert (R : 30 <= s <= 100) by (repeat (destruct H as [<-|H]; [lia |]); destruct H).
  split; [change (inject_Z 30 <= inject_Z s)%Q | change (inject_Z s <= inject_Z 100)%Q];
    rewrite <- Zle_Qle; lia.
Qed.

Lemma quantity_score_returns t a :
  (0 <= a)%Q -> 0 <= t <= DBL_MAX ->
  exists s, In s [100; 90; 80; 70; 60; 50; 40; 30] /\
    calculate_quantity_score t (Fin a) = Ok (Fin (inject_Z s)).
Proof.
  intros Ha Ht. destruct (Qeq_bool a 0) eqn:E.
  - exists 50. split; [cbn; tauto |]. unfold calculate_quantity_score.
    cbn [is_zero]. rewrite E. reflexivity.
  - assert (Pa : (0 < a)%Q).
    { apply Qeq_bool_neq in E. destruct (Qlt_le_dec 0 a) as [G|G]; [exact G |].
      exfalso. apply E. lra. }
    destruct (float_of_int_total t ltac:(unfold DBL_MAX in *; lia)) as [v Hv].
    exists (Spec.tier_of (round_float (v / a))). split; [apply tier_of_values |].
    apply (calculate_quantity_score_eq t (Fin a) (Fin v));
      [apply is_zero_pos, Pa | exact Hv | apply (fdiv_pos (Fin v) a Pa)].
Qed.

Lemma final_score_of_tier q s :
  (0 <= q)%Q -> (q <= 100)%Q -> In s [100; 90; 80; 70; 60; 50; 40; 30] ->
  exists f, calculate_final_score (Fin q) (Fin (inject_Z s)) = Ok (Fin f) /\
    (6 <= f)%Q /\ (f <= 100)%Q.
Proof.
  intros Q0 Q1 Hs. destruct (tier_range s Hs) as [S0 S1].
  destruct (final_score_returns q (inject_Z s)) as (f & Hf & _ & F1); try lra.
  exists f. split; [exact Hf |]. split; [| exact F1].
  assert (L : calculate_final_score (Fin 0) (Fin 30) = Ok (Fin 6))
    by (vm_compute; reflexivity).
  apply fle_Fin.
  apply (final_score_mono 0 q 30 (inject_Z s) (Fin 6) (Fin f)); try lra; assumption.
Qed.

Lemma update_scores_Ok a records :
  (0 <= a)%Q ->
  Forall
    (fun record =>
       0 <= total_changed_lines record <= DBL_MAX /\
       exists q, quality_score record = Fin q /\ (0 <= q)%Q /\ (q <= 100)%Q)
    records ->
  exists records',
    update_scores (Fin a) records = Ok records' /\
    Forall2
      (fun record record' =>
         contributor record' = contributor record /\
         commit_count record' = commit_count record /\
         total_changed_lines record' = total_changed_lines record /\
         exists q s f,
           quality_score record' = Fin q /\ (0 <= q)%Q /\ (q <= 100)%Q /\
           quantity_score record' = Fin (inject_Z s) /\
           In s [100; 90; 80; 70; 60; 50; 40; 30] /\
           calculate_quantity_score (total_changed_lines record) (Fin a)
             = Ok (quantity_score record') /\
           calculate_final_score (quality_score record') (quantity_score record')
             = Ok (final_score record') /\
           final_score record' = Fin f /\ (6 <= f)%Q /\ (f <= 100)%Q)
      records records'.
Proof.
  intros Ha. induction records as [|record records IH]; intros H.
  - exists []. split; [reflexivity | constructor].
  - inversion H as [|? ? [Ht (q & Hq & Q0 & Q1)] H2]; subst.
    destruct (IH H2) as (records' & E & F).
    destruct (quantity_score_returns _ a Ha Ht) as (s & Hs & Es).
    destruct (final_score_of_tier q s Q0 Q1 Hs) as (f & Ef & F0 & F1).
    eexists. cbn [update_scores]. unfold set_scores. rewrite Es. cbn [bind].
    rewrite Hq, Ef. cbn [bind]. rewrite E. cbn [bind].
    split; [reflexivity |]. constructor; [| exact F].
    cbn [contributor commit_count total_changed_lines quality_score quantity_score
         final_score].
    split; [reflexivity |]. split; [reflexivity |]. split; [reflexivity |].
    exists q, s, f. auto 12.
Qed.

Lemma Forall2_chain {A B C} (R1 : A -> B -> Prop) (R2 : B -> C -> Prop) l1 : forall l2 l3,
  Forall2 R1 l1 l2 -> Forall2 R2 l2 l3 ->
  Forall2 (fun x z => exists y, R1 x y /\ R2 y z) l1 l3.
Proof.
  induction l1 as [|x l1 IH]; intros l2 l3 H1 H2; inversion H1; subst;
    inversion H2; subst; constructor; eauto.
Qed.

Lemma match_nonempty {A B} (l : list A) (a b : B) :
  l <> [] -> match l with [] => a | _ :: _ => b end = b.
Proof. destruct l; [contradiction | reflexivity]. Qed.

Lemma bucket_lines_sum (items : list (string * list Commit)) :
  fold_right Z.add 0 (List.map (fun item => (Spec.total_of insertions (snd item) + Spec.total_of deletions (snd item))) items)
  = (Spec.total_of insertions (concat (List.map snd items)) + Spec.total_of deletions (concat (List.map snd items))).
Proof.
  induction items as [|[k b] items IH]; cbn [List.map fold_right concat snd]; [reflexivity |].
  rewrite IH, !total_of_app. lia.
Qed.

Lemma member_at_most_sum (l : list Z) x :
  (forall y, In y l -> 0 <= y) -> In x l -> x <= fold_right Z.add 0 l.
Proof.
  induction l as [|y l IH]; intros H Hin; [destruct Hin |]. cbn [fold_right].
  pose proof (H y (or_introl eq_refl)).
  assert (0 <= fold_right Z.add 0 l).
  { pose proof (sum_at_least l 0 (fun z Hz => H z (or_intror Hz))). lia. }
  destruct Hin as [->|Hin]; [lia |].
  pose proof (IH (fun z Hz => H z (or_intror Hz)) Hin). lia.
Qed.

Lemma item_is_bucket authors log name bucket :
  In (name, bucket) (fold_left (collect_commit_item authors) log []) ->
  bucket = Spec.bucket_of authors name log.
Proof.
  intros Hin. destruct (items_fold authors log []) as (I1 & I2 & _). cbv zeta in I1, I2.
  cbn [List.map app] in I2.
  assert (D : NoDup (List.map fst (fold_left (collect_commit_item authors) log [])))
    by (rewrite I2; apply first_occurrences_fresh).
  apply list_elem_of_In in Hin.
  pose proof (elem_of_list_to_map_1 (M := gmap string) _ name bucket D Hin) as L.
  rewrite I1 in L. change (list_to_map []) with (∅ : gmap string (list Commit)) in L.
  rewrite collect_fold, lookup_empty in L.
  destruct (Spec.bucket_of authors name log) as [|b bs]; [discriminate |].
  cbn [from_option id app] in L. injection L as <-. reflexivity.
Qed.

(** X21: on a repository that opens, with dates that parse, the end date
    before the last day of the calendar, when some commit of the window
    matches, the stats are counts whose total fits a float, no pattern has
    a negative number of matches and the issue count of the lines of every
    author fits a float, the analysis returns the rendered table of one
    record per matched author, in the order of the dictionary: each record
    names its author, counts the commits and the changed lines of the
    bucket, has a quality score in [0, 100], one of the eight tiers as
    quantity score, and as final score the rounded weighted sum of the two,
    between 6 and 100. *)
Theorem report_of_scored_authors
    (local_path : string) (repo : Repo) (authors : list string)
    (start_date end_date : string) (since until_day : Z) :
  initialize_repo host local_path = Some repo ->
  strptime_ymd rt start_date = Ok since ->
  strptime_ymd rt end_date = Ok until_day ->
  (0 <= until_day < MAXORDINAL)%Z ->
  let window := iter_commits repo since (until_day + 1) in
  let matched_log := List.filter (Measure.matched authors) window in
  matched_log <> [] ->
  Spec.stats_are_counts matched_log ->
  (Spec.total_of insertions matched_log + Spec.total_of deletions matched_log) <= DBL_MAX ->
  (forall pattern text, 0 <= re_findall_count rt pattern text) ->
  (forall name,
     count_issues rt (Measure.added_lines rt (Spec.bucket_of authors name window))
     <= DBL_MAX) ->
  exists items records,
    commits_by_author_items rt (Some repo) authors start_date end_date = Ok items /\
    run_analysis host rt local_path authors start_date end_date
      = Ok (render_table host records (start_date ++ " 至 " ++ end_date)) /\
    Forall2
      (fun item record =>
         contributor record = fst item /\
         commit_count record = Z.of_nat (length (snd item)) /\
         total_changed_lines record = (Spec.total_of insertions (snd item) + Spec.total_of deletions (snd item)) /\
         exists q s f,
           quality_score record = Fin q /\ (0 <= q)%Q /\ (q <= 100)%Q /\
           quantity_score record = Fin (inject_Z s) /\
           In s [100; 90; 80; 70; 60; 50; 40; 30] /\
           calculate_final_score (quality_score record) (quantity_score record)
             = Ok (final_score record) /\
           final_score record = Fin f /\ (6 <= f)%Q /\ (f <= 100)%Q)
      items records.
Proof.
  intros Hi Hs He Hrange window matched_log Hne Hst Hmax Hre Hb.
  set (items := fold_left (collect_commit_item authors) window []).
  assert (EI : commits_by_author_items rt (Some repo) authors start_date end_date = Ok items)
    by apply (items_in_range rt _ _ _ _ _ _ Hs He Hrange).
  destruct (items_fold authors window []) as (_ & _ & P & _).
  cbv zeta in P. cbn [List.map concat app] in P.
  fold items in P. fold matched_log in P.
  assert (Hitems : items <> []).
  { intros E. apply Hne. apply (proj1 (items_empty_iff authors _)). exact E. }
  (* the buckets *)
  assert (Hbucket : forall item, In item items -> forall c, In c (snd item) -> In c matched_log).
  { intros item Hin c Hc. apply (Permutation_in _ P).
    apply in_concat. exists (snd item). split; [| exact Hc].
    apply List.in_map_iff. exists item. auto. }
  assert (Hcounts : Forall (fun item => Spec.stats_are_counts (snd item)) items).
  { apply List.Forall_forall. intros item Hin c st Hc Hstats.
    apply (Hst c st); [apply (Hbucket item Hin c Hc) | exact Hstats]. }
  assert (Hitem : Forall
    (fun item =>
       Spec.stats_are_counts (snd item) /\
       count_issues rt (Measure.added_lines rt (snd item)) <= DBL_MAX) items).
  { apply List.Forall_forall. intros [name bucket] Hin.
    split; [rewrite List.Forall_forall in Hcounts; apply (Hcounts _ Hin) |].
    cbn [snd]. rewrite (item_is_bucket authors window name bucket Hin). apply Hb. }
  destruct (analyze_authors_Ok items Hre Hitem) as (records & ER & FR).
  (* the totals *)
  assert (Etot : List.map total_changed_lines records
                 = List.map (fun item => (Spec.total_of insertions (snd item) + Spec.total_of deletions (snd item))) items).
  { clear - FR. induction FR as [|item record items records (_ & _ & H & _) _ IH];
      cbn [List.map]; [reflexivity | rewrite H, IH; reflexivity]. }
  assert (Esum : fold_right Z.add 0 (List.map total_changed_lines records)
                 = (Spec.total_of insertions matched_log + Spec.total_of deletions matched_log)).
  { rewrite Etot, bucket_lines_sum.
    rewrite (total_of_Permutation insertions _ _ P),
            (total_of_Permutation deletions _ _ P). reflexivity. }
  assert (Hnonneg : forall y, In y (List.map total_changed_lines records) -> 0 <= y).
  { rewrite Etot. intros y Hy. apply List.in_map_iff in Hy as (item & <- & Hin).
    apply total_lines_nonneg. rewrite List.Forall_forall in Hcounts. apply Hcounts, Hin. }
  assert (Hlen : length records = length items)
    by (symmetry; apply (Forall2_length _ _ _ FR)).
  assert (Hrec : records <> []).
  { intros E. rewrite E in Hlen. destruct items; [contradiction | discriminate]. }
  (* the average *)
  assert (Eavg : exists a, average_lines (List.map total_changed_lines records) = Ok (Fin a)
                           /\ (0 <= a)%Q).
  { destruct records as [|r0 rs]; [contradiction |].
    unfold average_lines. cbn [List.map].
    change (total_changed_lines r0 :: List.map total_changed_lines rs)
      with (List.map total_changed_lines (r0 :: rs)).
    apply int_truediv_total.
    - rewrite Esum. apply total_lines_nonneg, Hst.
    - cbn [List.map length]. lia.
    - rewrite Esum. cbn [List.map length].
      assert (0 <= (Spec.total_of insertions matched_log + Spec.total_of deletions matched_log)) by apply total_lines_nonneg, Hst.
      nia. }
  destruct Eavg as (a & Ea & Pa).
  assert (Hin : Forall
    (fun record =>
       0 <= total_changed_lines record <= DBL_MAX /\
       exists q, quality_score record = Fin q /\ (0 <= q)%Q /\ (q <= 100)%Q) records).
  { apply List.Forall_forall. intros record Hr.
    assert (Hm : In (total_changed_lines record) (List.map total_changed_lines records))
      by (apply List.in_map; exact Hr).
    split.
    - pose proof (Hnonneg _ Hm). pose proof (member_at_most_sum _ _ Hnonneg Hm). lia.
    - clear - FR Hr. induction FR as [|item r items records (_ & _ & _ & H) _ IH];
        [destruct Hr |]. destruct Hr as [<-|Hr]; [exact H | apply IH, Hr]. }
  destruct (update_scores_Ok a records Pa Hin) as (records' & EU & FU).
  exists items, records'. split; [exact EI |]. split.
  - unfold run_analysis. rewrite Hi.
    destruct (get_current_branch_returns host (Some repo)) as [branch ->]. cbn [bind].
    rewrite EI. cbn [bind].
    rewrite match_nonempty by exact Hitems.
    unfold score_authors. rewrite ER. cbn [bind]. cbv zeta. rewrite Ea. cbn [bind].
    rewrite EU. cbn [bind]. unfold generate_report_table.
    destruct records' as [|r' rs']; [| reflexivity].
    exfalso. apply Forall2_length in FU. rewrite FU in Hlen.
    destruct items; [contradiction | discriminate].
  - refine (Forall2_impl _ _ _ _ (Forall2_chain _ _ _ _ _ FR FU) _).
    intros item record' (record & (C1 & C2 & C3 & _) & (D1 & D2 & D3 & q & s & f & K)).
    split; [congruence |]. split; [congruence |]. split; [congruence |].
    exists q, s, f. tauto.
Qed.

End ScoredReport.

Lemma plain_runtime_issue_bound (code : list string) :
  (count_issues Sample.plain_runtime code <= 1)%Z.
Proof.
  unfold count_issues. destruct code as [|l ls]; [lia |].
  cbv zeta. rewrite analyze_code_content_sum.
  change (Measure.pattern_matches Sample.plain_runtime _ _) with 0%Z.
  destruct (String.eqb _ EmptyString); [lia |].
  change (analyze_python_syntax Sample.plain_runtime
            (join_newline (List.filter looks_like_python (l :: ls))))
    with (dict_add "语法错误" 1 (∅ : gmap string Z)).
  rewrite sum_values_dict_add, sum_values_empty. lia.
Qed.

Lemma report_of_scored_authors_witness :
  exists items records,
    commits_by_author_items Sample.plain_runtime (Some Sample.sample_repo)
      ["zhangbo0037"; "JohanLi233"]%string "2025-02-27" "2025-7-18" = Ok items /\
    run_analysis Fixture.plain_host Sample.plain_runtime "/srv/scanner"
      ["zhangbo0037"; "JohanLi233"]%string "2025-02-27" "2025-7-18"
      = Ok (render_table Fixture.plain_host records
              ("2025-02-27" ++ " 至 " ++ "2025-7-18")%string) /\
    Forall2
      (fun item record =>
         contributor record = fst item /\
         commit_count record = Z.of_nat (length (snd item)) /\
         total_changed_lines record =
           (Spec.total_of insertions (snd item) + Spec.total_of deletions (snd item))%Z /\
         exists q s f,
           quality_score record = Fin q /\ (0 <= q)%Q /\ (q <= 100)%Q /\
           quantity_score record = Fin (inject_Z s) /\
           In s [100; 90; 80; 70; 60; 50; 40; 30]%Z /\
           calculate_final_score (quality_score record) (quantity_score record)
             = Ok (final_score record) /\
           final_score record = Fin f /\ (6 <= f)%Q /\ (f <= 100)%Q)
      items records.
Proof.
  apply (report_of_scored_authors Fixture.plain_host Sample.plain_runtime "/srv/scanner"
           Sample.sample_repo ["zhangbo0037"; "JohanLi233"]%string
           "2025-02-27" "2025-7-18" 739309 739450).
  - reflexivity.
  - reflexivity.
  - reflexivity.
  - unfold MAXORDINAL. lia.
  - vm_compute. discriminate.
  - intros commit st Hin H. vm_compute in Hin.
    destruct Hin as [<-|[<-|[<-|[]]]]; injection H as <-; cbn; lia.
  - vm_compute. discriminate.
  - intros pattern text. cbn. lia.
  - intros name. pose proof (plain_runtime_issue_bound
      (Measure.added_lines Sample.plain_runtime
         (Spec.bucket_of ["zhangbo0037"; "JohanLi233"]%string name
            (iter_commits Sample.sample_repo 739309 (739450 + 1))))).
    assert (1 <= DBL_MAX)%Z by (vm_compute; discriminate). lia.
Defined.

(** ** What the analysis can return *)

Section ReportOutcomes.
Context (host : Host) (rt : Runtime).
Local Open Scope string_scope.
Local Open Scope Z_scope.

Lemma analyze_authors_length items : forall records,
  analyze_authors rt items = Ok records -> length records = length items.
Proof.
  induction items as [|[author commits] items IH]; intros records H; cbn [analyze_authors] in H.
  - injection H as <-. reflexivity.
  - destruct (_analyze_author_code rt author commits) as [r|e]; [| discriminate].
    cbn [bind] in H. destruct (analyze_authors rt items) as [rs|e]; [| discriminate].
    cbn [bind] in H. injection H as <-. cbn [length]. rewrite (IH rs eq_refl). reflexivity.
Qed.

Lemma update_scores_length avg records : forall records',
  update_scores avg records = Ok records' -> length records' = length records.
Proof.
  induction records as [|r records IH]; intros records' H; cbn [update_scores] in H.
  - injection H as <-. reflexivity.
  - destruct (set_scores avg r) as [r'|e]; [| discriminate].
    cbn [bind] in H. destruct (update_scores avg records) as [rs|e]; [| discriminate].
    cbn [bind] in H. injection H as <-. cbn [length]. rewrite (IH rs eq_refl). reflexivity.
Qed.

Lemma score_authors_length items records :
  score_authors rt items = Ok records -> length records = length items.
Proof.
  unfold score_authors. intros H.
  destruct (analyze_authors rt items) as [rs|e] eqn:E; [| discriminate].
  cbn [bind] in H. cbv zeta in H.
  destruct (average_lines _) as [avg|e]; [| discriminate]. cbn [bind] in H.
  rewrite (update_scores_length _ _ _ H). apply analyze_authors_length, E.
Qed.

(** X22: a text the analysis returns is the text of the failed
    initialisation, the text of the missing commits, or the table rendered
    from one record per author of the dictionary, of which there is at
    least one: the renderer is never reached with an empty list. *)
Theorem report_outcomes
    (local_path : string) (authors : list string) (start_date end_date text : string) :
  run_analysis host rt local_path authors start_date end_date = Ok text ->
  (initialize_repo host local_path = None /\
   text = "❌ 仓库初始化失败，请检查本地路径") \/
  (exists repo,
     initialize_repo host local_path = Some repo /\
     commits_by_author_items rt (Some repo) authors start_date end_date = Ok [] /\
     text = "❌ 未找到指定时间段内目标作者的提交记录") \/
  (exists repo items records,
     initialize_repo host local_path = Some repo /\
     commits_by_author_items rt (Some repo) authors start_date end_date = Ok items /\
     score_authors rt items = Ok records /\
     records <> [] /\ length records = length items /\
     text = render_table host records (start_date ++ " 至 " ++ end_date) /\
     text = generate_report_table host records (start_date ++ " 至 " ++ end_date)).
Proof.
  unfold run_analysis. intros H.
  destruct (initialize_repo host local_path) as [repo|];
    [| left; injection H as <-; auto].
  right. destruct (get_current_branch_returns host (Some repo)) as [branch E].
  rewrite E in H. cbn [bind] in H.
  destruct (commits_by_author_items rt (Some repo) authors start_date end_date)
    as [items|e] eqn:EC; [| discriminate]. cbn [bind] in H.
  destruct items as [|item items]; [left; exists repo; injection H as <-; auto |].
  right. destruct (score_authors rt (item :: items)) as [records|e] eqn:S; [| discriminate].
  cbn [bind] in H. injection H as <-.
  pose proof (score_authors_length _ _ S) as L.
  exists repo, (item :: items), records.
  destruct records as [|r rs]; [discriminate L |].
  repeat (split; [first [reflexivity | discriminate | exact L | exact S | exact EC] |]).
  reflexivity.
Qed.

(** X23: on a repository that opens, a date that does not parse makes the
    analysis raise what the parser raised: unlike the failures of stats and
    diffs, it is not turned into a text. *)
Theorem unparsable_date_raises
    (local_path : string) (repo : Repo) (authors : list string)
    (start_date end_date : string) (e : exn) :
  initialize_repo host local_path = Some repo ->
  strptime_ymd rt start_date = Raise e \/
  (exists since, strptime_ymd rt start_date = Ok since) /\
    strptime_ymd rt end_date = Raise e ->
  run_analysis host rt local_path authors start_date end_date = Raise e.
Proof.
  intros Hi H. unfold run_analysis. rewrite Hi.
  destruct (get_current_branch_returns host (Some repo)) as [branch ->]. cbn [bind].
  unfold commits_by_author_items.
  destruct H as [->|[[since ->] ->]]; reflexivity.
Qed.

(** X24: on a repository that opens, an end date that is the last day of
    the calendar makes the computation of the end of the window overflow:
    the grouping and the analysis raise OverflowError, whatever the log
    holds. *)
Theorem last_day_overflows
    (local_path : string) (repo : Repo) (authors : list string)
    (start_date end_date : string) (since until_day : Z) :
  initialize_repo host local_path = Some repo ->
  strptime_ymd rt start_date = Ok since ->
  strptime_ymd rt end_date = Ok until_day ->
  (MAXORDINAL <= until_day)%Z ->
  get_commits_by_author_and_time rt (Some repo) authors start_date end_date
    = Raise OverflowError /\
  run_analysis host rt local_path authors start_date end_date = Raise OverflowError.
Proof.
  intros Hi Hs He Hmax. split.
  - unfold get_commits_by_author_and_time. rewrite Hs. cbn [bind]. rewrite He.
    cbn [bind]. rewrite (add_one_day_overflow _ Hmax). reflexivity.
  - unfold run_analysis. rewrite Hi.
    destruct (get_current_branch_returns host (Some repo)) as [branch ->]. cbn [bind].
    unfold commits_by_author_items. rewrite Hs. cbn [bind]. rewrite He. cbn [bind].
    rewrite (add_one_day_overflow _ Hmax). reflexivity.
Qed.

End ReportOutcomes.

Lemma report_outcomes_witness :
  (initialize_repo Fixture.plain_host "/srv/scanner" = None /\
   "❌ 未找到指定时间段内目标作者的提交记录"%string
     = "❌ 仓库初始化失败，请检查本地路径"%string) \/
  (exists repo,
     initialize_repo Fixture.plain_host "/srv/scanner" = Some repo /\
     commits_by_author_items Sample.plain_runtime (Some repo) ["someone else"]%string
       "2025-02-27" "2025-7-18" = Ok [] /\
     "❌ 未找到指定时间段内目标作者的提交记录"%string
       = "❌ 未找到指定时间段内目标作者的提交记录"%string) \/
  (exists repo items records,
     initialize_repo Fixture.plain_host "/srv/scanner" = Some repo /\
     commits_by_author_items Sample.plain_runtime (Some repo) ["someone else"]%string
       "2025-02-27" "2025-7-18" = Ok items /\
     score_authors Sample.plain_runtime items = Ok records /\
     records <> [] /\ length records = length items /\
     "❌ 未找到指定时间段内目标作者的提交记录"%string
       = render_table Fixture.plain_host records
           ("2025-02-27" ++ " 至 " ++ "2025-7-18")%string /\
     "❌ 未找到指定时间段内目标作者的提交记录"%string
       = generate_report_table Fixture.plain_host records
           ("2025-02-27" ++ " 至 " ++ "2025-7-18")%string).
Proof.
  apply (report_outcomes Fixture.plain_host Sample.plain_runtime "/srv/scanner"
           ["someone else"]%string "2025-02-27" "2025-7-18").
  reflexivity.
Defined.

Lemma unparsable_date_raises_witness :
  run_analysis Fixture.plain_host Sample.plain_runtime "/srv/scanner"
    ["zhangbo0037"]%string "27.02.2025" "2025-7-18" = Raise ValueError.
Proof.
  apply (unparsable_date_raises Fixture.plain_host Sample.plain_runtime "/srv/scanner"
           Sample.sample_repo); [reflexivity | left; reflexivity].
Defined.

Lemma last_day_overflows_witness :
  get_commits_by_author_and_time Fixture.late_runtime (Some Sample.sample_repo)
    ["zhangbo0037"]%string "2025-02-27" "9999-12-31" = Raise OverflowError /\
  run_analysis Fixture.plain_host Fixture.late_runtime "/srv/scanner"
    ["zhangbo0037"]%string "2025-02-27" "9999-12-31" = Raise OverflowError.
Proof.
  apply (last_day_overflows Fixture.plain_host Fixture.late_runtime "/srv/scanner"
           Sample.sample_repo ["zhangbo0037"]%string "2025-02-27" "9999-12-31"
           739309 MAXORDINAL); [reflexivity | reflexivity | reflexivity | lia].
Defined.
